(** * flowers-import: the invoice normalisation and consolidation core

    A shallow embedding of
    - [invoice-extractor/scripts/calc_finais.py] ([finalize_table]), and
    - [invoice-extractor/scripts/flores_prisma/parser.py]
      ([FloresPrismaJSON]: [_parse_int], [_parse_float], [_map_product],
      [parse]),
    followed by the properties the written specification states about them.

    Conventions of the embedding.
    - A Python [float] is a binary64 value: Rocq's primitive [float].
    - A Python [int] is a [Z].
    - What pandas and numpy do without [finalize_table] fixing it is a
      parameter ([Backend]): the order [argsort] gives to equal keys, the
      stems column once the counts leave [int64], the order and the
      compensation of the float additions of a group. A reference layer
      ([stable_backend]) runs the examples.
    - A Python [str] is a [string], one character per code point; the
      character tables cover the code points below U+0100.
    - A [dict] is a [gmap]; a JSON object, whose key order Python keeps, is
      an association list.
    - A call that may raise returns a [result]. *)

From Stdlib Require Import ZArith List Ascii String Floats Sorting.Sorted Permutation.
From stdpp Require Import base option list gmap strings sorting pretty.

Local Open Scope Z_scope.

(* 0.12, 0.13 and the like are written in decimal and read as the nearest
   binary64 value. *)
Set Warnings "-inexact-float".

(** ** Binary64 helpers *)

Module F64.

(** Quotient of [a] by [d > 0] rounded to the nearest integer, ties to the
    even one. *)
Definition rne_div (a d : Z) : Z :=
  let q := a / d in
  match 2 * (a mod d) ?= d with
  | Lt => q
  | Gt => q + 1
  | Eq => if Z.even q then q else q + 1
  end.

(** The binary64 value nearest to [n / d] (ties to even), with sign [s]. *)
Definition of_ratio (s : bool) (n d : positive) : float :=
  let '(mz, ez, lz) := SFdiv_core_binary prec emax (Zpos n) 0 (Zpos d) 0 in
  SF2Prim (binary_round_aux prec emax s mz ez lz).

Definition signed_zero (s : bool) : float := if s then neg_zero else zero.

(** The binary64 value nearest to the integer [z] (ties to even);
    infinite when [z] is out of range. *)
Definition of_Z (z : Z) : float :=
  SF2Prim (binary_normalize prec emax z 0 false).

(** C's [rint] in the default rounding mode. *)
Definition rint (x : float) : float :=
  match Prim2SF x with
  | S754_finite s m e =>
      if bool_decide (0 <= e) then x
      else match rne_div (Zpos m) (2 ^ (- e)) with
           | Zpos n => of_ratio s n 1
           | _ => signed_zero s
           end
  | _ => x
  end.

(** [numpy.round(x, decimals)] for [decimals > 0], as NumPy computes it:
    scale by the power of ten, [rint], scale back. *)
Definition np_round (decimals : Z) (x : float) : float :=
  let f := of_Z (10 ^ decimals) in
  (rint (x * f) / f)%float.

(** Python's [round(x, ndigits)] on a float for [0 <= ndigits]: the exact
    value of [x] is rounded to [ndigits] decimals, ties to even, and the
    decimal result is converted back to the nearest binary64 value. *)
Definition py_round (ndigits : Z) (x : float) : float :=
  match Prim2SF x with
  | S754_finite s m e =>
      if bool_decide (0 <= e) then x
      else match rne_div (Zpos m * 10 ^ ndigits) (2 ^ (- e)) with
           | Zpos n => of_ratio s n (Z.to_pos (10 ^ ndigits))
           | _ => signed_zero s
           end
  | _ => x
  end.

(** Python's truth value of a float: [x != 0.0]. *)
Definition truthy (x : float) : bool := negb (x =? 0)%float.

End F64.

(** ** Python exceptions *)

Inductive exn : Set :=
  | ValueError | TypeError | OverflowError | AttributeError
  | KeyError | IndexError | ZeroDivisionError.

Inductive result (A : Type) : Type :=
  | Ok (a : A)
  | Raise (e : exn).
Arguments Ok {A} a.
Arguments Raise {A} e.

#[global] Instance result_ret : MRet result := fun A a => Ok a.
#[global] Instance result_bind : MBind result := fun A B f m =>
  match m with Ok a => f a | Raise e => Raise e end.
#[global] Instance result_fmap : FMap result := fun A B f m =>
  match m with Ok a => Ok (f a) | Raise e => Raise e end.

(** [try: m  except Exception: h]. Every constructor of [exn] is a subclass
    of [Exception]. *)
Definition try_except {A} (m : result A) (h : result A) : result A :=
  match m with Ok a => Ok a | Raise _ => h end.

(** ** Normalised line items (the dicts [parse] emits) *)

Record Item : Type := mkItem {
  product : string;
  stems : Z;
  rate_usd : float;
  value_usd : float;
  source_file : string
}.

(** ** The pandas layer of [finalize_table] *)

(** The keys of [groupby("product")]: the distinct products, sorted. *)
Definition group_keys (items : list Item) : list string :=
  merge_sort String.le (remove_dups (map product items)).

Definition group_of (items : list Item) (k : string) : list Item :=
  filter (fun it => product it = k) items.

(** The sum of a column of integers. *)
Definition Zsum (l : list Z) : Z := foldr Z.add 0 l.

(** The stems of the group [k], added as integers. *)
Definition group_stems (items : list Item) (k : string) : Z :=
  Zsum (map stems (group_of items k)).

(** The stem counts are Python ints. pandas holds them in an [int64] column
    when every one of them fits, and adds them without a check.
    [int64_safe] says that no count and no sum of counts, taken in whatever
    order, leaves [int64]: the absolute values add up to less than [2^63]. *)
Definition int64_safe (items : list Item) : Prop :=
  Zsum (map (fun it => Z.abs (stems it)) items) < 2 ^ 63.

Definition wrap64 (z : Z) : Z := (z + 2 ^ 63) mod 2 ^ 64 - 2 ^ 63.

(** Group sum of an [int64] column: the additions wrap around. *)
Definition group_sum_int (l : list Z) : Z := wrap64 (foldl Z.add 0 l).

(** Group sum of a [float64] column by compensated (Kahan) additions in row
    order: NaN entries are skipped, and a NaN compensation (an infinite
    entry) is reset. This is one way of adding a group; [finalize_table]
    does not choose it. *)
Definition kahan_step (sc : float * float) (v : float) : float * float :=
  let '(sumx, comp) := sc in
  if is_nan v then sc
  else
    let y := (v - comp)%float in
    let t := (sumx + y)%float in
    let c := (t - sumx - y)%float in
    (t, if is_nan c then 0%float else c).

Definition group_sum_float (l : list float) : float :=
  fst (foldl kahan_step (0%float, 0%float) l).

(** What [finalize_table] asks of pandas and numpy without fixing it.
    - [argsort] is [numpy.argsort(kind="quicksort")], which [sort_values]
      calls when no [kind] is given: an index permutation that puts the keys
      in non-decreasing order. The order of equal keys is not part of its
      contract.
    - [stems_column items produtos] is the column [total_stems] as line 53
      reads it through [.astype(int)]: the error the conversion raises, or
      the integer it gives for the group of each product. Inside
      [int64_safe] this is the sum of the group. Outside, the column is
      uint64, float64 or object, depending on the counts and on the lines
      added for the catalogue, and the conversion gives other integers or
      raises: nothing is assumed there.
    - [sum_value_usd items k] is the float sum of the group [k] of the frame
      made of [items]. In which order the values are added, and with which
      compensation, is the library's business: only the sum of a group of
      one finite, non-zero value is fixed, which is that value. *)
Record Backend : Type := mkBackend {
  argsort : list Z -> list nat;
  argsort_perm : forall ks, Permutation (argsort ks) (seq 0 (length ks));
  argsort_sorted : forall ks,
    Sorted Z.le (map (fun i => nth i ks 0) (argsort ks));
  stems_column : list Item -> list string -> result (string -> Z);
  stems_column_safe : forall items produtos,
    int64_safe items ->
    exists hastes,
      stems_column items produtos = Ok hastes /\
      forall k, hastes k = group_stems items k;
  sum_value_usd : list Item -> string -> float;
  sum_value_usd_single : forall items k it s m e,
    group_of items k = [it] ->
    Prim2SF (value_usd it) = S754_finite s m e ->
    sum_value_usd items k = value_usd it
}.

(** A reference layer, used to run [finalize_table] on examples: the stems
    in an [int64] column, the float sums by compensated additions in row
    order. It meets the contract above ([ref_stems_column_safe],
    [ref_sum_value_usd_single]), and no statement made for every [Backend]
    relies on more than the contract. The examples that run it have stem
    counts that are [int64_safe] and groups of one value, or of values whose
    sum is exact in whatever order they are added. *)
Definition ref_stems_column (items : list Item) (produtos : list string)
  : result (string -> Z) :=
  Ok (fun k => group_sum_int (map stems (group_of items k))).

Definition ref_sum_value_usd (items : list Item) (k : string) : float :=
  group_sum_float (map value_usd (group_of items k)).

(** ** [calc_finais.py] *)

Record GroupRow : Type := mkGroupRow {
  g_Produto : string;
  total_stems : Z;
  subtotal_usd : float
}.

Record FinalRow : Type := mkFinalRow {
  Produto : string;
  Num_de_hastes : Z;
  Subtotal_do_invoice : float;
  Cotacao_do_dolar : float;
  Preco : float;
  Custos_de_operacao : float;
  Total : float
}.

(** [df_items.groupby("product").agg(total_stems=("stems","sum"),
    subtotal_usd=("value_usd","sum")).reset_index()], the column
    [total_stems] being given as [hastes], the integers line 53 finds in
    it. *)
Definition groupby_agg (B : Backend) (hastes : string -> Z) (items : list Item)
  : list GroupRow :=
  map (fun k => mkGroupRow k (hastes k) (sum_value_usd B items k))
      (group_keys items).

(** [{p: i for i, p in enumerate(produtos)}] *)
Definition order_dict (produtos : list string) : gmap string nat :=
  foldl (fun m ip => <[ip.2 := ip.1]> m) ∅ (imap pair produtos).

(** [g["Produto"].map(order).fillna(1_000_000).astype(int)] *)
Definition ord_key (produtos : list string) (p : string) : Z :=
  match order_dict produtos !! p with
  | Some i => Z.of_nat i
  | None => 1000000
  end.

Definition dummy_group : GroupRow := mkGroupRow "" 0 0%float.

(** [g.sort_values("__ord")] *)
Definition sort_values (B : Backend) (key : string -> Z) (g : list GroupRow)
  : list GroupRow :=
  map (fun i => nth i g dummy_group) (argsort B (map (fun r => key (g_Produto r)) g)).

(** Python's [x / n] for a float [x] and an int [n]. *)
Definition truediv (x : float) (n : Z) : result float :=
  if bool_decide (n = 0) then Raise ZeroDivisionError
  else Ok (x / F64.of_Z n)%float.

(** [round((preco + opsc) / stems, 4) if stems and stems > 0 else 0.0] *)
Definition total_cell (preco opsc : float) (stems : Z) : result float :=
  if bool_decide (stems <> 0) && bool_decide (0 < stems)
  then q ← truediv (preco + opsc)%float stems; Ok (F64.py_round 4 q)
  else Ok 0%float.

(** [float(v or 0.0)] *)
Definition float_or_zero (v : float) : float :=
  if F64.truthy v then v else 0%float.

(** One line of [out]: the columns the source builds one after the other,
    here for the line made from the group [r]. *)
Definition final_row (cot : float) (ops : gmap string float) (r : GroupRow)
  : result FinalRow :=
  let prod := g_Produto r in
  let hastes := total_stems r in
  let subtotal := F64.np_round 2 (subtotal_usd r) in
  let preco := F64.np_round 2 (subtotal * cot)%float in
  let opsc := float_or_zero (default 0%float (ops !! prod)) in
  tot ← total_cell preco opsc hastes;
  Ok (mkFinalRow prod hastes subtotal cot preco opsc tot).

Definition finalize_table (B : Backend) (items : list Item) (cotacao : float)
    (produtos : list string) (ops_costs_map : option (gmap string float))
  : result (list FinalRow) :=
  (* the stems column as [.astype(int)] converts it at line 53; no step
     before that line reads the column or raises *)
  hastes ← stems_column B items produtos;
  (* group by product *)
  let g := groupby_agg B hastes items in
  (* every name of [produtos] gets a line *)
  let have : gset string := list_to_set (map g_Produto g) in
  let missing := filter (fun p => p ∉ have) produtos in
  let add := map (fun p => mkGroupRow p 0 0%float) missing in
  let g := g ++ add in
  (* order as [produtos] *)
  let g := sort_values B (ord_key produtos) g in
  (* final columns *)
  let cot := float_or_zero cotacao in
  let ops := default ∅ ops_costs_map in
  mapM (final_row cot ops) g.

(** ** Python values and builtins used by the parser *)

(** A decoded JSON value. *)
#[local] Unset Elimination Schemes.
Inductive pyval : Type :=
  | PNone
  | PBool (b : bool)
  | PInt (z : Z)
  | PFloat (f : float)
  | PStr (s : string)
  | PList (l : list pyval)
  | PDict (l : list (string * pyval)).
#[local] Set Elimination Schemes.

(** The builtins follow CPython. The bound CPython 3.11 puts on the number
    of digits that [int] and [str] convert is left out. *)
Module Py.

Definition code (c : ascii) : N := N_of_ascii c.

(** [str.isspace] on one character. *)
Definition isspace (c : ascii) : bool :=
  let n := code c in
  ((9 <=? n) && (n <=? 13) || (28 <=? n) && (n <=? 32)
   || (n =? 133) || (n =? 160))%N.

(** The blanks [int()] and [float()] skip around a numeral. *)
Definition num_space (c : ascii) : bool :=
  let n := code c in
  ((9 <=? n) && (n <=? 13) || (n =? 32) || (n =? 133) || (n =? 160))%N.

Fixpoint lstrip_with (sp : ascii -> bool) (s : string) : string :=
  match s with
  | String c s' => if sp c then lstrip_with sp s' else s
  | EmptyString => EmptyString
  end.

Fixpoint rstrip_with (sp : ascii -> bool) (s : string) : string :=
  match s with
  | String c s' =>
      match rstrip_with sp s' with
      | EmptyString => if sp c then EmptyString else String c EmptyString
      | r => String c r
      end
  | EmptyString => EmptyString
  end.

Definition strip_with (sp : ascii -> bool) (s : string) : string :=
  rstrip_with sp (lstrip_with sp s).

(** [s.strip()] *)
Definition strip (s : string) : string := strip_with isspace s.

(** [s.replace(a, b)] for one-character [a] and [b]. *)
Fixpoint replace (a b : ascii) (s : string) : string :=
  match s with
  | String c s' => String (if Ascii.eqb c a then b else c) (replace a b s')
  | EmptyString => EmptyString
  end.

Definition is_digit (c : ascii) : bool := ((48 <=? code c) && (code c <=? 57))%N.
Definition digit_val (c : ascii) : Z := Z.of_N (code c) - 48.

(** [digitpart]: digits, single underscores allowed between two digits.
    Returns the value and the number of digits. *)
Fixpoint digitpart (acc : Z) (n : Z) (after_digit : bool) (s : string)
  : option (Z * Z * string) :=
  match s with
  | String c s' =>
      if is_digit c then digitpart (10 * acc + digit_val c) (n + 1) true s'
      else if Ascii.eqb c "_" then
        if after_digit then
          match s' with
          | String c' _ => if is_digit c' then digitpart acc n false s' else None
          | EmptyString => None
          end
        else None
      else if after_digit then Some (acc, n, s) else None
  | EmptyString => if after_digit then Some (acc, n, s) else None
  end.

Definition split_sign (s : string) : bool * string :=
  match s with
  | String "-" s' => (true, s')
  | String "+" s' => (false, s')
  | _ => (false, s)
  end.

(** [int(s)] for a [str]. *)
Definition int_of_str (s : string) : result Z :=
  let '(neg, body) := split_sign (strip_with num_space s) in
  match digitpart 0 0 false body with
  | Some (n, _, EmptyString) => Ok (if neg then - n else n)
  | _ => Raise ValueError
  end.

Definition lower (c : ascii) : ascii :=
  if ((65 <=? code c) && (code c <=? 90))%N
  then ascii_of_N (code c + 32) else c.

Fixpoint lower_str (s : string) : string :=
  match s with
  | String c s' => String (lower c) (lower_str s')
  | EmptyString => EmptyString
  end.

(** The binary64 value nearest to [d * 10 ^ e10] for [0 <= d]. The two
    early exits only keep the powers of ten small. *)
Definition of_decimal (neg : bool) (d e10 : Z) : float :=
  match d with
  | Zpos p =>
      if bool_decide (400 < e10) then (if neg then neg_infinity else infinity)
      else if bool_decide (0 <= e10) then
        SF2Prim (binary_normalize prec emax
                   (if neg then - (d * 10 ^ e10) else d * 10 ^ e10) 0 false)
      else if bool_decide (e10 < - (Z.log2 d + 1) - 400) then F64.signed_zero neg
      else F64.of_ratio neg p (Z.to_pos (10 ^ (- e10)))
  | _ => F64.signed_zero neg
  end.

(** The mantissa of a decimal numeral: [digits [. digits]] or [. digits].
    Returns the digits read as one integer, the number of digits after the
    point, and the rest. *)
Definition mantissa (s : string) : option (Z * Z * string) :=
  match s with
  | String "." s' =>
      match digitpart 0 0 false s' with
      | Some (d, k, rest) => Some (d, k, rest)
      | None => None
      end
  | _ =>
      match digitpart 0 0 false s with
      | Some (d, _, String "." rest) =>
          match digitpart d 0 false rest with
          | Some (d', k, rest') => Some (d', k, rest')
          | None =>
              (* no digit after the point: an underscore there is an error *)
              match rest with
              | String "_" _ => None
              | _ => Some (d, 0, rest)
              end
          end
      | Some (d, _, rest) => Some (d, 0, rest)
      | None => None
      end
  end.

(** The exponent part: [(e|E) [sign] digits], or nothing. *)
Definition exponent (s : string) : option Z :=
  match s with
  | EmptyString => Some 0
  | String c s' =>
      if Ascii.eqb (lower c) "e" then
        let '(neg, body) := split_sign s' in
        match digitpart 0 0 false body with
        | Some (e, _, EmptyString) => Some (if neg then - e else e)
        | _ => None
        end
      else None
  end.

(** [float(s)] for a [str]. *)
Definition float_of_str (s : string) : result float :=
  let '(neg, body) := split_sign (strip_with num_space s) in
  let word := lower_str body in
  if bool_decide (word = "inf" \/ word = "infinity")
  then Ok (if neg then neg_infinity else infinity)
  else if bool_decide (word = "nan") then Ok nan
  else
    match mantissa body with
    | Some (d, k, rest) =>
        match exponent rest with
        | Some e => Ok (of_decimal neg d (e - k))
        | None => Raise ValueError
        end
    | None => Raise ValueError
    end.

(** [int(x)] for a float. *)
Definition int_of_float (x : float) : result Z :=
  match Prim2SF x with
  | S754_nan => Raise ValueError
  | S754_infinity _ => Raise OverflowError
  | S754_zero _ => Ok 0
  | S754_finite s m e =>
      let a := if bool_decide (0 <= e) then Zpos m * 2 ^ e
               else Zpos m / 2 ^ (- e) in
      Ok (if s then - a else a)
  end.

(** The conversion of an int to a float, as in [float(n)] and in mixed
    arithmetic. *)
Definition float_of_int (z : Z) : result float :=
  let f := F64.of_Z z in
  if is_infinity f then Raise OverflowError else Ok f.

(** Truth value. *)
Definition truthy (v : pyval) : bool :=
  match v with
  | PNone => false
  | PBool b => b
  | PInt z => negb (bool_decide (z = 0))
  | PFloat f => F64.truthy f
  | PStr s => negb (bool_decide (s = ""))
  | PList l => negb (bool_decide (l = []))
  | PDict l => negb (bool_decide (l = []))
  end.

(** [a or b] *)
Definition or_ (a b : pyval) : pyval := if truthy a then a else b.

Fixpoint assoc (k : string) (l : list (string * pyval)) : option pyval :=
  match l with
  | (k', v) :: l' => if bool_decide (k' = k) then Some v else assoc k l'
  | [] => None
  end.

(** [d.get(k, dflt)]; only a dict has [get]. *)
Definition get (d : pyval) (k : string) (dflt : pyval) : result pyval :=
  match d with
  | PDict l => Ok (default dflt (assoc k l))
  | _ => Raise AttributeError
  end.

Fixpoint chars (s : string) : list pyval :=
  match s with
  | String c s' => PStr (String c EmptyString) :: chars s'
  | EmptyString => []
  end.

(** [x[0]] *)
Definition getitem0 (x : pyval) : result pyval :=
  match x with
  | PList (v :: _) => Ok v
  | PStr (String c _) => Ok (PStr (String c EmptyString))
  | PList [] | PStr EmptyString => Raise IndexError
  | PDict _ => Raise KeyError
  | _ => Raise TypeError
  end.

(** [float(v)] *)
Definition float (v : pyval) : result float :=
  match v with
  | PBool b => Ok (if b then 1 else 0)%float
  | PInt z => float_of_int z
  | PFloat f => Ok f
  | PStr s => float_of_str s
  | PNone | PList _ | PDict _ => Raise TypeError
  end.

(** The elements a [for] loop over [x] visits. *)
Definition iter (x : pyval) : result (list pyval) :=
  match x with
  | PList l => Ok l
  | PStr s => Ok (chars s)
  | PDict l => Ok (map (fun kv => PStr kv.1) l)
  | _ => Raise TypeError
  end.

End Py.

(** ** [flores_prisma/parser.py] *)

(** The state of a [FloresPrismaJSON] instance once constructed. *)
Record FloresPrismaJSON : Type := mkParser {
  depara_map : gmap string string;
  _default : string
}.

Section Parser.

(** [repr] of a float, a list or a dict, which [str] returns for them. *)
Variable py_repr : pyval -> string.

(** [str(v)] *)
Definition py_str (v : pyval) : string :=
  match v with
  | PNone => "None"
  | PBool true => "True"
  | PBool false => "False"
  | PInt z => pretty z
  | PStr s => s
  | PFloat _ | PList _ | PDict _ => py_repr v
  end.

Definition _parse_int (v : pyval) : result Z :=
  try_except (Py.int_of_str (Py.strip (py_str v)))
    (try_except
       (f ← Py.float_of_str (Py.strip (Py.replace "," "." (py_str v)));
        Py.int_of_float f)
       (Ok 0)).

Definition _parse_float (v : pyval) : result float :=
  try_except (Py.float_of_str (Py.strip (Py.replace "," "." (py_str v))))
    (try_except (Py.float v) (Ok 0%float)).

Definition _map_product (self : FloresPrismaJSON) (nm_product : pyval)
  : option string :=
  match nm_product with
  | PNone => None
  | _ =>
      let nm := Py.strip (py_str nm_product) in
      Some (default (_default self) (depara_map self !! nm))
  end.

(** The body of the inner loop of [parse]: [None] is [continue], [Some]
    is the item appended to [out]. *)
Definition parse_product (self : FloresPrismaJSON) (source : string)
    (p : pyval) : result (option Item) :=
  nm_product ← Py.get p "nm_product" PNone;
  match _map_product self nm_product with
  | None => Ok None
  | Some product =>
      nu_stems_bunch ← Py.get p "nu_stems_bunch" PNone;
      stems_per_bunch ← _parse_int nu_stems_bunch;
      nu_bunches ← Py.get p "nu_bunches" PNone;
      bunches ← _parse_int (Py.or_ nu_bunches (PInt 1));
      let stems := stems_per_bunch * bunches in
      mny_rate_stem ← Py.get p "mny_rate_stem" PNone;
      rate ← _parse_float mny_rate_stem;
      fstems ← Py.float_of_int stems;
      let value := (fstems * rate)%float in
      Ok (Some (mkItem product stems rate value source))
  end.

Fixpoint parse_products (self : FloresPrismaJSON) (source : string)
    (ps : list pyval) (out : list Item) : result (list Item) :=
  match ps with
  | [] => Ok out
  | p :: ps' =>
      o ← parse_product self source p;
      parse_products self source ps' (out ++ option_list o)
  end.

Fixpoint parse_boxes (self : FloresPrismaJSON) (source : string)
    (boxes : list pyval) (out : list Item) : result (list Item) :=
  match boxes with
  | [] => Ok out
  | box :: boxes' =>
      ps ← (Py.get box "products" (PList []) ≫= Py.iter);
      out' ← parse_products self source ps out;
      parse_boxes self source boxes' out'
  end.

(** [parse], from the decoded document [data] and the base name [source]
    of its file. *)
Definition parse (self : FloresPrismaJSON) (data : pyval) (source : string)
  : result (list Item) :=
  invs ← Py.get data "invoices" (PList []);
  if negb (Py.truthy invs) then Ok []
  else
    inv ← Py.getitem0 invs;
    boxes ← (Py.get inv "boxes" (PList []) ≫= Py.iter);
    parse_boxes self source boxes [].

End Parser.

(** *** Loading the rules *)

(** The attributes [depara_map] and [_default] as [__init__] leaves them,
    before anything is known of the types in the rule file. Of the dict only
    the entries whose key is a [str] are kept: [_map_product] looks a [str]
    up, and no key of another type equals one. *)
Record ParserState : Type := mkState {
  st_depara_map : gmap string pyval;
  st_default : pyval
}.

(** A value a dict takes as a key. *)
Definition hashable (v : pyval) : bool :=
  match v with
  | PList _ | PDict _ => false
  | _ => true
  end.

(** [{r.get("match"): r.get("produto") for r in rules if r.get("match")}] *)
Fixpoint load_rules (rules : list pyval) (m : gmap string pyval)
  : result (gmap string pyval) :=
  match rules with
  | [] => Ok m
  | r :: rules' =>
      c ← Py.get r "match" PNone;
      if Py.truthy c then
        k ← Py.get r "match" PNone;
        v ← Py.get r "produto" PNone;
        if hashable k
        then load_rules rules' (match k with PStr s => <[s := v]> m | _ => m end)
        else Raise TypeError
      else load_rules rules' m
  end.

(** [_load_depara], from the outcome [doc] of reading and decoding the file
    and the value [self_default] of [self._default] at the call: the dict
    returned and the value of [self._default] at the return. *)
Definition _load_depara (doc : result pyval) (self_default : pyval)
  : gmap string pyval * pyval :=
  match doc with
  | Ok js =>
      match Py.get js "default" (PStr "Coloridas") with
      | Ok d =>
          match rules ← Py.get js "regras" (PList []);
                rs ← Py.iter rules;
                load_rules rs ∅ with
          | Ok m => (m, d)
          | Raise _ => (∅, d)
          end
      | Raise _ => (∅, self_default)
      end
  | Raise _ => (∅, self_default)
  end.

Definition __init__ (doc : result pyval) : ParserState :=
  let '(m, d) := _load_depara doc (PStr "Coloridas") in
  mkState m d.

(** ** [streamlit_app.py] *)

(** [parse_int], the integer parser of the second front end. *)
Definition parse_int (py_repr : pyval -> string) (x : pyval) : result Z :=
  try_except (Py.int_of_str (Py.strip (py_str py_repr x)))
    (try_except
       (f ← Py.float_of_str (Py.strip (Py.replace "," "." (py_str py_repr x)));
        Py.int_of_float f)
       (Ok 0)).

(** ** [app.py]: the pt-BR formatting helpers *)

(** [s.replace(old, new)] for a non-empty [old]: the occurrences of [old]
    are found from the left and do not overlap; [skip] counts the characters
    of the occurrence just replaced that are still to be passed. *)
Fixpoint str_replace_go (old new : string) (skip : nat) (s : string) : string :=
  match s with
  | String c s' =>
      match skip with
      | S k => str_replace_go old new k s'
      | O =>
          if String.prefix old s
          then new +:+ str_replace_go old new (String.length old - 1) s'
          else String c (str_replace_go old new 0 s')
      end
  | EmptyString => EmptyString
  end.

Definition str_replace (old new s : string) : string :=
  str_replace_go old new 0 s.

(** The digits [ds] of an integer with a comma before every group of three
    digits counted from the right. *)
Fixpoint thousands (ds : string) : string :=
  match ds with
  | String c ds' =>
      String c (if (0 <? String.length ds')%nat
                   && (String.length ds' mod 3 =? 0)%nat
                then String "," (thousands ds')
                else thousands ds')
  | EmptyString => EmptyString
  end.

(** [n] hundredths written with two decimals and grouped thousands. *)
Definition fixed2 (neg : bool) (n : Z) : string :=
  (if neg then "-" else "")
  +:+ thousands (pretty (Z.to_N (n / 100)))
  +:+ String "." (String (pretty_N_char (Z.to_N (n mod 100 / 10)))
                 (String (pretty_N_char (Z.to_N (n mod 10))) "")).

(** [f"{x:,.2f}"]: the exact value of [x] rounded to two decimals, ties to
    even. *)
Definition format_2f (x : float) : string :=
  match Prim2SF x with
  | S754_nan => "nan"
  | S754_infinity s => if s then "-inf" else "inf"
  | S754_zero s => fixed2 s 0
  | S754_finite s m e =>
      fixed2 s (if bool_decide (0 <= e) then Zpos m * 2 ^ e * 10 ^ 2
                else F64.rne_div (Zpos m * 10 ^ 2) (2 ^ (- e)))
  end.

Definition _fmt_num_br (value : pyval) : string :=
  match Py.float value with
  | Ok x =>
      str_replace "X" "." (str_replace "." "," (str_replace "," "X" (format_2f x)))
  | Raise _ => "0,00"
  end.

Definition fmt_brl (value : pyval) : string := "R$ " +:+ _fmt_num_br value.

Definition fmt_usd (value : pyval) : string := "$ " +:+ _fmt_num_br value.

Definition parse_brl_to_float (py_repr : pyval -> string) (text : pyval)
  : result float :=
  match text with
  | PNone => Ok 0%float
  | PBool _ | PInt _ | PFloat _ => Py.float text
  | _ =>
      let s := Py.strip (py_str py_repr text) in
      let s := foldl (fun s sym => str_replace sym "" s) s ["R$"; "$"] in
      let s := str_replace " " "" s in
      let s := str_replace "," "." (str_replace "." "" s) in
      try_except (Py.float_of_str s) (Ok 0%float)
  end.

(** ** [app.py]: the catalogue and the displayed table *)

(** [[p.get("nome") for p in ps if p.get("nome")]] *)
Fixpoint product_names (ps : list pyval) : result (list pyval) :=
  match ps with
  | [] => Ok []
  | p :: ps' =>
      c ← Py.get p "nome" PNone;
      if Py.truthy c then
        n ← Py.get p "nome" PNone;
        rest ← product_names ps';
        Ok (n :: rest)
      else product_names ps'
  end.

(** [carregar_produtos], from the state of produtos.json: [None] when the
    file does not exist, else the outcome of reading and decoding it. *)
Definition carregar_produtos (file : option (result pyval)) : list pyval :=
  let fallback := [PStr "Freedom 70/80"; PStr "Freedom 60"; PStr "Freedom 50";
                   PStr "Coloridas"] in
  match file with
  | Some doc =>
      match data ← doc;
            ps ← (Py.get data "produtos" (PList []) ≫= Py.iter);
            product_names ps with
      | Ok names => names
      | Raise _ => fallback
      end
  | None => fallback
  end.

(** A line of the table as it is shown: the numbers of five columns are
    texts. *)
Record DisplayRow : Type := mkDisplayRow {
  shown_Produto : pyval;
  shown_hastes : Z;
  shown_Subtotal : string;
  shown_Cotacao : string;
  shown_Preco : string;
  shown_Custos : string;
  shown_Total : string
}.

(** What [format_display] makes of one line. *)
Definition display_row (prod : pyval) (hastes : Z)
    (subtotal cot preco custos total : float) : DisplayRow :=
  mkDisplayRow prod hastes (fmt_usd (PFloat subtotal)) (fmt_brl (PFloat cot))
    (fmt_brl (PFloat preco)) (fmt_brl (PFloat custos)) (fmt_brl (PFloat total)).

(** [format_display] on a frame with the seven columns; an empty frame is
    returned as it is. *)
Definition format_display (df : list FinalRow) : list DisplayRow :=
  map (fun r => display_row (PStr (Produto r)) (Num_de_hastes r)
                  (Subtotal_do_invoice r) (Cotacao_do_dolar r) (Preco r)
                  (Custos_de_operacao r) (Total r)) df.

(** [empty_table]: [format_display] of the frame of the lines
    [[p, 0, 0.0, 0.0, 0.0, 0.0, 0.0]]. *)
Definition empty_table (file : option (result pyval)) : list DisplayRow :=
  map (fun p => display_row p 0 0 0 0 0 0) (carregar_produtos file).

(** ** Closed forms used in the statements *)

(** The frame [g] of [finalize_table] just before it is sorted, the stems
    of the groups being [hastes]. *)
Definition unsorted_frame (B : Backend) (hastes : string -> Z)
    (items : list Item) (produtos : list string) : list GroupRow :=
  let g := groupby_agg B hastes items in
  let have : gset string := list_to_set (map g_Produto g) in
  g ++ map (fun p => mkGroupRow p 0 0%float) (filter (fun p => p ∉ have) produtos).

(** The value of the "Total" cell: the guard of [total_cell] decided. *)
Definition total_of (preco opsc : float) (stems : Z) : float :=
  if bool_decide (0 < stems)
  then F64.py_round 4 ((preco + opsc) / F64.of_Z stems)%float
  else 0%float.

(** The line [final_row] returns. *)
Definition row_of (cot : float) (ops : gmap string float) (r : GroupRow)
  : FinalRow :=
  let subtotal := F64.np_round 2 (subtotal_usd r) in
  let preco := F64.np_round 2 (subtotal * cot)%float in
  let opsc := float_or_zero (default 0%float (ops !! g_Produto r)) in
  mkFinalRow (g_Produto r) (total_stems r) subtotal cot preco opsc
             (total_of preco opsc (total_stems r)).

(** Rounding half away from zero to [nd] decimals, as the specification
    words it: the exact value of [x] is rounded, and the decimal result is
    converted to the nearest binary64 value. *)
Definition spec_round_half_up (nd : Z) (x : float) : float :=
  match Prim2SF x with
  | S754_finite s m e =>
      if bool_decide (0 <= e) then x
      else match ((2 * (Zpos m * 10 ^ nd) + 2 ^ (- e)) / (2 * 2 ^ (- e)))%Z with
           | Zpos n => F64.of_ratio s n (Z.to_pos (10 ^ nd))
           | _ => F64.signed_zero s
           end
  | _ => x
  end.

(** [x] occurs before [y] in [l]. *)
Definition before {A} (x y : A) (l : list A) : Prop :=
  exists l1 l2 l3, l = l1 ++ x :: l2 ++ y :: l3.

(** A stable [argsort]: indices of equal keys stay in increasing order. *)
Definition lex_le (ks : list Z) (i j : nat) : Prop :=
  nth i ks 0 < nth j ks 0 \/ (nth i ks 0 = nth j ks 0 /\ (i <= j)%nat).

Definition stable (B : Backend) : Prop :=
  forall ks, Sorted (lex_le ks) (argsort B ks).

(** The stable [argsort], and an [argsort] that reverses equal keys. *)
#[global] Instance lex_le_dec ks : RelDecision (lex_le ks).
Proof. intros i j. unfold lex_le. apply _. Defined.

Definition stable_argsort (ks : list Z) : list nat :=
  merge_sort (lex_le ks) (seq 0 (length ks)).

Definition rev_le (ks : list Z) (i j : nat) : Prop :=
  nth i ks 0 < nth j ks 0 \/ (nth i ks 0 = nth j ks 0 /\ (j <= i)%nat).

#[global] Instance rev_le_dec ks : RelDecision (rev_le ks).
Proof. intros i j. unfold rev_le. apply _. Defined.

Definition tie_reversing_argsort (ks : list Z) : list nat :=
  merge_sort (rev_le ks) (seq 0 (length ks)).

(** The product column of the sorted frame. It does not depend on the
    stems ([sorted_frame_products]). *)
Definition sorted_products (B : Backend) (items : list Item)
    (produtos : list string) : list string :=
  map g_Produto (sort_values B (ord_key produtos)
                   (unsorted_frame B (group_stems items) items produtos)).

(** The float sum in the frame for the product [p]: the sum the layer gives
    for a product of the items, 0.0 on a line added for the catalogue. *)
Definition frame_subtotal (B : Backend) (items : list Item) (p : string)
  : float :=
  if decide (p ∈ group_keys items) then sum_value_usd B items p else 0%float.

(** The cells of a line that are computed from the other cells of the
    line and from the rate given: the rate column, the price, rounded once,
    and the total per stem, rounded once or 0.0. *)
Definition derived_cells (cotacao : float) (r : FinalRow) : Prop :=
  Cotacao_do_dolar r = float_or_zero cotacao /\
  Preco r = F64.np_round 2 (Subtotal_do_invoice r * Cotacao_do_dolar r)%float /\
  Total r =
    if bool_decide (0 < Num_de_hastes r)
    then F64.py_round 4 ((Preco r + Custos_de_operacao r)
                         / F64.of_Z (Num_de_hastes r))%float
    else 0%float.

(** What [finalize_table] computes for a line [r] when the stem counts are
    [int64_safe]: the stems of the product, the float sum of the frame
    rounded once, the cost of the product, and the derived cells. *)
Definition row_spec (B : Backend) (items : list Item) (cotacao : float)
    (ops_costs_map : option (gmap string float)) (r : FinalRow) : Prop :=
  Num_de_hastes r = group_stems items (Produto r) /\
  Subtotal_do_invoice r = F64.np_round 2 (frame_subtotal B items (Produto r)) /\
  Custos_de_operacao r =
    float_or_zero (default 0%float (default ∅ ops_costs_map !! Produto r)) /\
  derived_cells cotacao r.

(** A catalogue of 1000002 names: c0, c1, ..., c1000000, then P. *)
Definition big_catalog : list string :=
  map (fun n => "c" +:+ pretty n) (seq 0 (Z.to_nat 1000001)) ++ ["P"].

(** Blank strings, and strings that do not begin or end with a blank. *)
Fixpoint all_space (s : string) : Prop :=
  match s with
  | String c s' => Py.isspace c = true /\ all_space s'
  | EmptyString => True
  end.

Definition head_not_space (s : string) : Prop :=
  match s with
  | String c _ => Py.isspace c = false
  | EmptyString => True
  end.

Fixpoint last_not_space (s : string) : Prop :=
  match s with
  | String c EmptyString => Py.isspace c = false
  | String _ s' => last_not_space s'
  | EmptyString => True
  end.

(** The products of one box, parsed. *)
Definition parse_box (py_repr : pyval -> string) (self : FloresPrismaJSON)
    (source : string) (box : pyval) : result (list (option Item)) :=
  ps ← (Py.get box "products" (PList []) ≫= Py.iter);
  mapM (parse_product py_repr self source) ps.

(** A call that raises. *)
Definition fails {A} (m : result A) : Prop := exists e, m = Raise e.

(** The line of product [p] when the stem counts are [int64_safe]. *)
Definition line_of (B : Backend) (items : list Item) (cotacao : float)
    (ops_costs_map : option (gmap string float)) (p : string) : FinalRow :=
  let hastes := group_stems items p in
  let subtotal := F64.np_round 2 (frame_subtotal B items p) in
  let cot := float_or_zero cotacao in
  let preco := F64.np_round 2 (subtotal * cot)%float in
  let opsc := float_or_zero (default 0%float (default ∅ ops_costs_map !! p)) in
  mkFinalRow p hastes subtotal cot preco opsc (total_of preco opsc hastes).

(** What [parse] promises of an item: the file it comes from, a product of
    the rule map or the default product, a stem count a float can hold, and
    the value [stems * rate]. *)
Definition canonical (self : FloresPrismaJSON) (source : string) (it : Item)
  : Prop :=
  source_file it = source /\
  (product it = _default self \/
   exists nm, depara_map self !! nm = Some (product it)) /\
  is_infinity (F64.of_Z (stems it)) = false /\
  value_usd it = (F64.of_Z (stems it) * rate_usd it)%float.

(** Strings of decimal digits and the number they write. *)
Fixpoint string_forall (P : ascii -> bool) (s : string) : bool :=
  match s with
  | String c s' => P c && string_forall P s'
  | EmptyString => true
  end.

Fixpoint digits_value (acc : Z) (s : string) : Z :=
  match s with
  | String c s' => digits_value (10 * acc + Py.digit_val c) s'
  | EmptyString => acc
  end.

(** A character that is neither a blank nor a comma, and one that is no
    point either. *)
Definition plain (c : ascii) : bool :=
  negb (Py.isspace c) && negb (Ascii.eqb c ",").

Definition plain_int (c : ascii) : bool :=
  plain c && negb (Ascii.eqb c ".").

(** A rule of the rule file with the texts [mp.1] and [mp.2] under "match"
    and "produto". *)
Definition is_rule (r : pyval) (mp : string * string) : Prop :=
  exists l, r = PDict l /\
            Py.assoc "match" l = Some (PStr mp.1) /\
            Py.assoc "produto" l = Some (PStr mp.2).

(** The rules read in order, a later rule replacing an earlier rule with
    the same text, rules with an empty text left out. *)
Definition rules_map (pairs : list (string * string)) : gmap string string :=
  foldl (fun acc mp => if decide (mp.1 = "") then acc else <[mp.1 := mp.2]> acc)
        ∅ pairs.

(** The characters of a number written by [format_2f], and the exchange of
    separators [_fmt_num_br] makes. *)
Definition money_char (c : ascii) : bool :=
  Py.is_digit c || Ascii.eqb c "," || Ascii.eqb c "." || Ascii.eqb c "-".

Definition swap_char (c : ascii) : ascii :=
  if Ascii.eqb "," c then "."%char else if Ascii.eqb "." c then ","%char else c.

Definition swap_separators (s : string) : string :=
  str_replace "X" "." (str_replace "." "," (str_replace "," "X" s)).

(** An entry of the catalogue file with the text [n] under "nome". *)
Definition is_product (p : pyval) (n : string) : Prop :=
  exists l, p = PDict l /\ Py.assoc "nome" l = Some (PStr n).

(** * Properties *)

(** ** The result monad *)

Lemma mapM_Ok {A B} (f : A -> result B) (g : A -> B) (l : list A) :
  (forall x, f x = Ok (g x)) -> mapM f l = Ok (map g l).
Proof.
  intros Hf. induction l as [|x l IH]; [reflexivity|].
  cbn [mapM map]. rewrite Hf, IH. reflexivity.
Qed.

Lemma try_except_Ok {A} (m h : result A) :
  (exists a, h = Ok a) -> exists a, try_except m h = Ok a.
Proof. intros [a ->]. destruct m; simpl; eauto. Qed.

(** ** The closed form of [finalize_table] *)

Lemma total_cell_ok preco opsc stems :
  total_cell preco opsc stems = Ok (total_of preco opsc stems).
Proof.
  unfold total_cell, total_of, truediv.
  destruct (bool_decide_reflect (0 < stems)) as [Hpos|Hneg].
  - rewrite (bool_decide_eq_true_2 (stems <> 0)) by lia.
    rewrite (bool_decide_eq_false_2 (stems = 0)) by lia.
    reflexivity.
  - rewrite andb_false_r. reflexivity.
Qed.

Lemma final_row_ok cot ops r : final_row cot ops r = Ok (row_of cot ops r).
Proof. unfold final_row. rewrite total_cell_ok. reflexivity. Qed.

(** The call raises what the conversion of the stems column raises, and
    nothing else. *)
Lemma finalize_table_bind B items cotacao produtos ops_costs_map :
  finalize_table B items cotacao produtos ops_costs_map =
  (hastes ← stems_column B items produtos;
   Ok (map (row_of (float_or_zero cotacao) (default ∅ ops_costs_map))
           (sort_values B (ord_key produtos)
              (unsorted_frame B hastes items produtos)))).
Proof.
  unfold finalize_table.
  destruct (stems_column B items produtos) as [hastes|e]; [|reflexivity].
  cbn [mbind result_bind]. apply mapM_Ok. intros r. apply final_row_ok.
Qed.

Lemma unsorted_frame_stems_ext B (h1 h2 : string -> Z) items produtos :
  (forall k, h1 k = h2 k) ->
  unsorted_frame B h1 items produtos = unsorted_frame B h2 items produtos.
Proof.
  intros H.
  assert (Hg : groupby_agg B h1 items = groupby_agg B h2 items).
  { unfold groupby_agg. apply map_ext. intros k. rewrite H. reflexivity. }
  unfold unsorted_frame. rewrite Hg. reflexivity.
Qed.

(** With stem counts that are [int64_safe] the call returns. *)
Lemma finalize_table_eq B items cotacao produtos ops_costs_map :
  int64_safe items ->
  finalize_table B items cotacao produtos ops_costs_map =
  Ok (map (row_of (float_or_zero cotacao) (default ∅ ops_costs_map))
          (sort_values B (ord_key produtos)
             (unsorted_frame B (group_stems items) items produtos))).
Proof.
  intros Hsafe. rewrite finalize_table_bind.
  destruct (stems_column_safe B items produtos Hsafe) as (hastes & -> & Hh).
  cbn [mbind result_bind].
  rewrite (unsorted_frame_stems_ext B hastes (group_stems items) _ _ Hh).
  reflexivity.
Qed.

Lemma finalize_table_returns B items cotacao produtos ops_costs_map :
  int64_safe items ->
  exists rows, finalize_table B items cotacao produtos ops_costs_map = Ok rows.
Proof. intros Hsafe. eexists. apply finalize_table_eq, Hsafe. Qed.

(** A table that is returned is made from the stems the conversion gave. *)
Lemma finalize_table_inv B items cotacao produtos ops_costs_map rows :
  finalize_table B items cotacao produtos ops_costs_map = Ok rows ->
  exists hastes,
    stems_column B items produtos = Ok hastes /\
    rows = map (row_of (float_or_zero cotacao) (default ∅ ops_costs_map))
               (sort_values B (ord_key produtos)
                  (unsorted_frame B hastes items produtos)).
Proof.
  rewrite finalize_table_bind.
  destruct (stems_column B items produtos) as [hastes|e]; [|discriminate].
  cbn [mbind result_bind]. intros [= <-]. eauto.
Qed.

(** ** Sorting by key *)

Lemma map_nth_seq {A} (g : list A) (d : A) :
  map (fun i => nth i g d) (seq 0 (length g)) = g.
Proof.
  induction g as [|x g IH]; [reflexivity|].
  cbn [length seq map nth]. f_equal.
  rewrite <- seq_shift, map_map. exact IH.
Qed.

Lemma argsort_lt B ks i : In i (argsort B ks) -> (i < length ks)%nat.
Proof.
  intros Hi. apply (Permutation_in _ (argsort_perm B ks)) in Hi.
  apply in_seq in Hi. lia.
Qed.

Lemma sort_values_perm B key g : Permutation (sort_values B key g) g.
Proof.
  unfold sort_values.
  rewrite <- (map_nth_seq g dummy_group) at 2.
  apply Permutation_map.
  rewrite <- (length_map (fun r => key (g_Produto r)) g).
  apply argsort_perm.
Qed.

Lemma sort_values_sorted B key g :
  Sorted Z.le (map (fun r => key (g_Produto r)) (sort_values B key g)).
Proof.
  unfold sort_values. rewrite map_map.
  pose proof (argsort_sorted B (map (fun r => key (g_Produto r)) g)) as Hs.
  erewrite map_ext_in; [exact Hs|].
  intros i Hi. cbv beta. apply argsort_lt in Hi. rewrite length_map in Hi.
  rewrite (nth_indep _ 0 (key (g_Produto dummy_group)))
    by (rewrite length_map; exact Hi).
  symmetry. apply (map_nth (fun r => key (g_Produto r))).
Qed.

(** Two backends: the stable sort, and a sort that reverses equal keys.
    Both meet the contract of [argsort]. *)

#[global] Instance lex_le_total ks : base.Total (lex_le ks).
Proof. intros i j. unfold lex_le. lia. Qed.

Lemma lex_le_key ks i j : lex_le ks i j -> nth i ks 0 <= nth j ks 0.
Proof. unfold lex_le. lia. Qed.

Lemma stable_argsort_perm ks : Permutation (stable_argsort ks) (seq 0 (length ks)).
Proof. apply merge_sort_Permutation. Qed.

Lemma stable_argsort_lex ks : Sorted (lex_le ks) (stable_argsort ks).
Proof. apply (Sorted_merge_sort (lex_le ks)). Qed.

Lemma stable_argsort_sorted ks :
  Sorted Z.le (map (fun i => nth i ks 0) (stable_argsort ks)).
Proof.
  apply (Sorted_fmap _ (lex_le ks)); [apply lex_le_key|apply stable_argsort_lex].
Qed.

(** The reference layer meets the contract of the stems column and of the
    float sum. *)

Lemma foldl_add_Zsum (l : list Z) (a : Z) : foldl Z.add a l = a + Zsum l.
Proof.
  revert a. induction l as [|x l IH]; intros a; unfold Zsum; cbn [foldl foldr].
  - lia.
  - rewrite IH. unfold Zsum. lia.
Qed.

Lemma group_sum_int_Zsum (l : list Z) : group_sum_int l = wrap64 (Zsum l).
Proof. unfold group_sum_int. rewrite foldl_add_Zsum. reflexivity. Qed.

Lemma wrap64_small (z : Z) : - 2 ^ 63 <= z < 2 ^ 63 -> wrap64 z = z.
Proof. intros Hz. unfold wrap64. rewrite Z.mod_small; lia. Qed.

Lemma Zsum_cons (a : Z) (l : list Z) : Zsum (a :: l) = a + Zsum l.
Proof. reflexivity. Qed.

Lemma group_stems_cons (it : Item) (items : list Item) (k : string) :
  group_stems (it :: items) k =
  (if decide (product it = k) then stems it else 0) + group_stems items k.
Proof.
  unfold group_stems, group_of. destruct (decide (product it = k)) as [Heq|Hne].
  - rewrite filter_cons_True by exact Heq. reflexivity.
  - rewrite filter_cons_False by exact Hne. reflexivity.
Qed.

(** A group adds up to no more than all the counts do, in absolute value. *)
Lemma group_stems_abs (items : list Item) (k : string) :
  Z.abs (group_stems items k) <= Zsum (map (fun it => Z.abs (stems it)) items).
Proof.
  induction items as [|it items IH]; [cbn; lia|].
  rewrite group_stems_cons. cbn [map]. rewrite Zsum_cons.
  destruct (decide (product it = k)); lia.
Qed.

Lemma int64_safe_group (items : list Item) (k : string) :
  int64_safe items -> - 2 ^ 63 < group_stems items k < 2 ^ 63.
Proof.
  unfold int64_safe. intros H. pose proof (group_stems_abs items k). lia.
Qed.

Lemma ref_stems_column_safe (items : list Item) (produtos : list string) :
  int64_safe items ->
  exists hastes,
    ref_stems_column items produtos = Ok hastes /\
    forall k, hastes k = group_stems items k.
Proof.
  intros Hsafe. eexists. split; [reflexivity|]. intros k. cbv beta.
  rewrite group_sum_int_Zsum. apply wrap64_small.
  pose proof (int64_safe_group items k Hsafe). unfold group_stems in *. lia.
Qed.

Lemma is_nan_finite (v : float) s m e :
  Prim2SF v = S754_finite s m e -> is_nan v = false.
Proof.
  intros H. unfold is_nan. rewrite FloatAxioms.eqb_spec, H.
  unfold SFeqb, SFcompare.
  destruct s; rewrite Z.compare_refl, Pos.compare_cont_refl; reflexivity.
Qed.

Lemma group_sum_float_single (v : float) s m e :
  Prim2SF v = S754_finite s m e -> group_sum_float [v] = v.
Proof.
  intros H. unfold group_sum_float. cbn [foldl]. unfold kahan_step.
  rewrite (is_nan_finite v s m e H). cbn [fst].
  assert (H0 : (v - 0)%float = v).
  { apply Prim2SF_inj. rewrite sub_spec, H. reflexivity. }
  rewrite H0. apply Prim2SF_inj. rewrite add_spec, H. reflexivity.
Qed.

Lemma ref_sum_value_usd_single (items : list Item) (k : string) (it : Item) s m e :
  group_of items k = [it] ->
  Prim2SF (value_usd it) = S754_finite s m e ->
  ref_sum_value_usd items k = value_usd it.
Proof.
  intros Hg Hv. unfold ref_sum_value_usd. rewrite Hg. cbn [map].
  exact (group_sum_float_single _ s m e Hv).
Qed.

Definition stable_backend : Backend :=
  mkBackend stable_argsort stable_argsort_perm stable_argsort_sorted
            ref_stems_column ref_stems_column_safe
            ref_sum_value_usd ref_sum_value_usd_single.

Lemma stable_backend_stable : stable stable_backend.
Proof. intros ks. apply stable_argsort_lex. Qed.

#[global] Instance rev_le_total ks : base.Total (rev_le ks).
Proof. intros i j. unfold rev_le. lia. Qed.

Lemma tie_reversing_argsort_perm ks :
  Permutation (tie_reversing_argsort ks) (seq 0 (length ks)).
Proof. apply merge_sort_Permutation. Qed.

Lemma tie_reversing_argsort_sorted ks :
  Sorted Z.le (map (fun i => nth i ks 0) (tie_reversing_argsort ks)).
Proof.
  apply (Sorted_fmap _ (rev_le ks)).
  - unfold rev_le. lia.
  - apply (Sorted_merge_sort (rev_le ks)).
Qed.

Definition tie_reversing_backend : Backend :=
  mkBackend tie_reversing_argsort tie_reversing_argsort_perm
            tie_reversing_argsort_sorted
            ref_stems_column ref_stems_column_safe
            ref_sum_value_usd ref_sum_value_usd_single.

(** ** The grouping and the frame before sorting *)

Lemma group_keys_NoDup items : NoDup (group_keys items).
Proof.
  unfold group_keys.
  rewrite (merge_sort_Permutation String.le). apply NoDup_remove_dups.
Qed.

Lemma elem_of_group_keys items p :
  p ∈ group_keys items <-> exists it, it ∈ items /\ product it = p.
Proof.
  unfold group_keys.
  rewrite (merge_sort_Permutation String.le), elem_of_remove_dups.
  change (map product items) with (product <$> items).
  rewrite list_elem_of_fmap. split; intros (it & H1 & H2); eauto.
Qed.

Lemma groupby_agg_products B hastes items :
  map g_Produto (groupby_agg B hastes items) = group_keys items.
Proof.
  unfold groupby_agg. rewrite map_map. cbn [g_Produto]. apply map_id.
Qed.

(** The product column of the frame before sorting: the groups, then the
    names of [produtos] no group has, in the order of [produtos]. *)
Lemma unsorted_frame_products B hastes items produtos :
  map g_Produto (unsorted_frame B hastes items produtos) =
  group_keys items ++ filter (fun p => p ∉ group_keys items) produtos.
Proof.
  unfold unsorted_frame. rewrite map_app, groupby_agg_products, map_map.
  cbn [g_Produto]. rewrite map_id. f_equal.
  apply list_filter_iff. intros p. rewrite elem_of_list_to_set. reflexivity.
Qed.

Lemma unsorted_frame_NoDup B hastes items produtos :
  NoDup produtos ->
  NoDup (map g_Produto (unsorted_frame B hastes items produtos)).
Proof.
  intros Hnd. rewrite unsorted_frame_products. apply NoDup_app.
  split; [apply group_keys_NoDup|]. split.
  - intros p Hp Hq. apply list_elem_of_filter in Hq. tauto.
  - apply NoDup_filter, Hnd.
Qed.

Lemma elem_of_unsorted_frame_products B hastes items produtos p :
  p ∈ map g_Produto (unsorted_frame B hastes items produtos) <->
  p ∈ group_keys items \/ p ∈ produtos.
Proof.
  rewrite unsorted_frame_products, elem_of_app, list_elem_of_filter.
  destruct (decide (p ∈ group_keys items)); tauto.
Qed.

(** The line of the frame for a name no item carries. *)
Lemma unsorted_frame_missing B hastes items produtos r :
  r ∈ unsorted_frame B hastes items produtos ->
  g_Produto r ∉ group_keys items ->
  r = mkGroupRow (g_Produto r) 0 0%float.
Proof.
  unfold unsorted_frame. intros Hr Hk. apply elem_of_app in Hr as [Hr|Hr].
  - exfalso. apply Hk. rewrite <- (groupby_agg_products B hastes).
    change (g_Produto r ∈ g_Produto <$> groupby_agg B hastes items).
    apply list_elem_of_fmap_2, Hr.
  - change (r ∈ (fun p => mkGroupRow p 0 0%float) <$>
              filter (fun p => p ∉ (list_to_set
                                      (map g_Produto (groupby_agg B hastes items))
                                    : gset string)) produtos) in Hr.
    apply list_elem_of_fmap in Hr as (p & -> & _). reflexivity.
Qed.

(** The line of the frame for a name some item carries. *)
Lemma unsorted_frame_group B hastes items produtos r :
  r ∈ unsorted_frame B hastes items produtos ->
  g_Produto r ∈ group_keys items ->
  r = mkGroupRow (g_Produto r) (hastes (g_Produto r))
                 (sum_value_usd B items (g_Produto r)).
Proof.
  unfold unsorted_frame. intros Hr Hk. apply elem_of_app in Hr as [Hr|Hr].
  - unfold groupby_agg in Hr.
    change (r ∈ (fun k => mkGroupRow k (hastes k) (sum_value_usd B items k))
                <$> group_keys items) in Hr.
    apply list_elem_of_fmap in Hr as (k & -> & _). reflexivity.
  - exfalso.
    change (r ∈ (fun p => mkGroupRow p 0 0%float) <$>
              filter (fun p => p ∉ (list_to_set
                                      (map g_Produto (groupby_agg B hastes items))
                                    : gset string)) produtos) in Hr.
    apply list_elem_of_fmap in Hr as (p & -> & Hp).
    apply list_elem_of_filter in Hp as [Hp _]. apply Hp.
    rewrite elem_of_list_to_set, groupby_agg_products. exact Hk.
Qed.

Lemma filter_none {A} (P : A -> Prop) `{forall x, Decision (P x)} (l : list A) :
  (forall y, y ∈ l -> ~ P y) -> filter P l = [].
Proof.
  induction l as [|a l IH]; intros Hl; [reflexivity|].
  rewrite filter_cons_False by (apply Hl; left).
  apply IH. intros y Hy. apply Hl. right. exact Hy.
Qed.

(** In a list whose images under [f] are pairwise distinct, exactly one
    element has a given image. *)
Lemma filter_NoDup_fmap {A B} `{EqDecision B} (f : A -> B) (l : list A) x :
  NoDup (map f l) -> x ∈ l -> filter (fun y => f y = f x) l = [x].
Proof.
  induction l as [|a l IH]; intros Hnd Hx; [inversion Hx|].
  cbn [map] in Hnd. apply NoDup_cons in Hnd as [Ha Hnd].
  apply elem_of_cons in Hx as [->|Hx].
  - rewrite filter_cons_True by reflexivity. f_equal.
    apply filter_none. intros y Hy Heq. apply Ha. rewrite <- Heq.
    change (f y ∈ f <$> l). apply list_elem_of_fmap_2, Hy.
  - rewrite filter_cons_False; [apply IH; assumption|].
    intros Heq. apply Ha. rewrite Heq.
    change (f x ∈ f <$> l). apply list_elem_of_fmap_2, Hx.
Qed.

(** ** Coverage of the catalogue *)

Lemma np_round_2_zero : F64.np_round 2 0 = 0%float.
Proof. reflexivity. Qed.

Lemma filter_map_row_of cot ops p (g : list GroupRow) :
  filter (fun r => Produto r = p) (map (row_of cot ops) g) =
  map (row_of cot ops) (filter (fun r => g_Produto r = p) g).
Proof.
  induction g as [|r g IH]; [reflexivity|]. cbn [map].
  destruct (decide (g_Produto r = p)) as [Hp|Hp].
  - rewrite !filter_cons_True by exact Hp. cbn [map]. f_equal. exact IH.
  - rewrite !filter_cons_False by exact Hp. exact IH.
Qed.

(** C2. For a catalogue without duplicate names: the call returns a table
    when the stem counts are [int64_safe], and every table it returns, for
    whatever item list, has exactly one line for each name of the
    catalogue, a line with 0 stems and a subtotal of 0.0 when no item
    carries the name. *)
Theorem finalize_table_catalog_coverage
    (B : Backend) (items : list Item) (cotacao : float)
    (produtos : list string) (ops_costs_map : option (gmap string float)) :
  NoDup produtos ->
  (int64_safe items ->
   exists rows, finalize_table B items cotacao produtos ops_costs_map = Ok rows) /\
  forall rows,
    finalize_table B items cotacao produtos ops_costs_map = Ok rows ->
    forall p, p ∈ produtos ->
      exists r,
        filter (fun r => Produto r = p) rows = [r] /\
        ((forall it, it ∈ items -> product it <> p) ->
         Num_de_hastes r = 0 /\ Subtotal_do_invoice r = 0%float).
Proof.
  intros Hnd. split; [apply finalize_table_returns|].
  intros rows Hrows p Hp.
  apply finalize_table_inv in Hrows as (hastes & _ & ->).
  set (g := unsorted_frame B hastes items produtos).
  set (sorted := sort_values B (ord_key produtos) g).
  assert (Hperm : Permutation sorted g) by apply sort_values_perm.
  assert (Hin : p ∈ map g_Produto sorted).
  { rewrite Hperm. apply elem_of_unsorted_frame_products. right. exact Hp. }
  change (p ∈ g_Produto <$> sorted) in Hin.
  apply list_elem_of_fmap in Hin as (gr & -> & Hgr).
  exists (row_of (float_or_zero cotacao) (default ∅ ops_costs_map) gr). split.
  - rewrite filter_map_row_of.
    rewrite (filter_NoDup_fmap g_Produto sorted gr); [reflexivity| |exact Hgr].
    rewrite Hperm. apply unsorted_frame_NoDup, Hnd.
  - intros Hno. rewrite Hperm in Hgr.
    rewrite (unsorted_frame_missing B hastes items produtos gr Hgr).
    + cbn. split; [reflexivity|apply np_round_2_zero].
    + rewrite elem_of_group_keys. intros (it & Hit & Heq).
      exact (Hno it Hit Heq).
Qed.

(** On a two-name catalogue and one item. *)
Lemma finalize_table_catalog_coverage_witness :
  NoDup ["Freedom 60"; "Coloridas"] /\
  int64_safe [mkItem "Coloridas" 100 0.5 50 "invoice.json"] /\
  (int64_safe [mkItem "Coloridas" 100 0.5 50 "invoice.json"] ->
   exists rows,
     finalize_table stable_backend
       [mkItem "Coloridas" 100 0.5 50 "invoice.json"] 5
       ["Freedom 60"; "Coloridas"] None = Ok rows) /\
  forall rows,
    finalize_table stable_backend
      [mkItem "Coloridas" 100 0.5 50 "invoice.json"] 5
      ["Freedom 60"; "Coloridas"] None = Ok rows ->
    forall p, p ∈ ["Freedom 60"; "Coloridas"] ->
      exists r,
        filter (fun r => Produto r = p) rows = [r] /\
        ((forall it, it ∈ [mkItem "Coloridas" 100 0.5 50 "invoice.json"] ->
            product it <> p) ->
         Num_de_hastes r = 0 /\ Subtotal_do_invoice r = 0%float).
Proof.
  assert (Hnd : NoDup ["Freedom 60"; "Coloridas"]).
  { apply (bool_decide_unpack _). vm_compute. exact I. }
  split; [exact Hnd|]. split; [reflexivity|].
  exact (finalize_table_catalog_coverage stable_backend _ _ _ _ Hnd).
Defined.

(** ** When the keys are pairwise distinct the sort has one possible result *)

Lemma map_eq_inj_on {A B} (f : A -> B) (l1 l2 : list A) :
  (forall x y, x ∈ l1 -> y ∈ l2 -> f x = f y -> x = y) ->
  map f l1 = map f l2 -> l1 = l2.
Proof.
  revert l2. induction l1 as [|a l1 IH]; intros [|b l2] Hinj Heq;
    try discriminate; [reflexivity|].
  cbn [map] in Heq. injection Heq as Hab Hrest. f_equal.
  - apply Hinj; [left|left|exact Hab].
  - apply IH; [|exact Hrest].
    intros x y Hx Hy. apply Hinj; right; assumption.
Qed.

Lemma NoDup_map_inj_on {A B} (f : A -> B) (l : list A) x y :
  NoDup (map f l) -> x ∈ l -> y ∈ l -> f x = f y -> x = y.
Proof.
  induction l as [|a l IH]; intros Hnd Hx Hy Heq; [inversion Hx|].
  cbn [map] in Hnd. apply NoDup_cons in Hnd as [Ha Hnd].
  apply elem_of_cons in Hx as [->|Hx]; apply elem_of_cons in Hy as [->|Hy].
  - reflexivity.
  - exfalso. apply Ha. rewrite Heq.
    change (f y ∈ f <$> l). apply list_elem_of_fmap_2, Hy.
  - exfalso. apply Ha. rewrite <- Heq.
    change (f x ∈ f <$> l). apply list_elem_of_fmap_2, Hx.
  - apply IH; assumption.
Qed.

Lemma sorted_perm_unique {A} (key : A -> Z) (l1 l2 : list A) :
  Permutation l1 l2 -> NoDup (map key l2) ->
  Sorted Z.le (map key l1) -> Sorted Z.le (map key l2) -> l1 = l2.
Proof.
  intros Hperm Hnd H1 H2. apply (map_eq_inj_on key).
  - intros x y Hx Hy. rewrite Hperm in Hx.
    apply (NoDup_map_inj_on key l2); assumption.
  - apply (Sorted_unique Z.le); [exact H1|exact H2|].
    apply Permutation_map, Hperm.
Qed.

Lemma sort_values_id B key g :
  NoDup (map (fun r => key (g_Produto r)) g) ->
  Sorted Z.le (map (fun r => key (g_Produto r)) g) ->
  sort_values B key g = g.
Proof.
  intros Hnd Hs. apply (sorted_perm_unique (fun r => key (g_Produto r))).
  - apply sort_values_perm.
  - exact Hnd.
  - apply sort_values_sorted.
  - exact Hs.
Qed.

(** With pairwise distinct keys the table does not depend on the backend. *)
Lemma sort_values_backend_irrelevant B1 B2 key g :
  NoDup (map (fun r => key (g_Produto r)) g) ->
  sort_values B1 key g = sort_values B2 key g.
Proof.
  intros Hnd. apply (sorted_perm_unique (fun r => key (g_Produto r))).
  - rewrite !sort_values_perm. reflexivity.
  - rewrite (sort_values_perm B2 key g). exact Hnd.
  - apply sort_values_sorted.
  - apply sort_values_sorted.
Qed.

(** ** The worked example of the specification *)

(** C1. One item of product A with 100 stems worth 50.00, the catalogue
    A, B, a rate of 5.0 and an empty cost map give the lines A (100, 50.00,
    250.00, 0.0, 2.5) and B (0, 0.0, 0.0, 0.0, 0.0), in this order. *)
Theorem finalize_table_example (B : Backend) (rate : float) (source : string) :
  finalize_table B [mkItem "A" 100 rate 50 source] 5 ["A"; "B"] (Some ∅) =
  Ok [mkFinalRow "A" 100 50 5 250 0 2.5; mkFinalRow "B" 0 0 5 0 0 0].
Proof.
  assert (Hsum : sum_value_usd B [mkItem "A" 100 rate 50 source] "A" = 50%float).
  { eapply (sum_value_usd_single B _ "A" (mkItem "A" 100 rate 50 source));
      [reflexivity|].
    cbn [value_usd]. vm_compute. reflexivity. }
  rewrite finalize_table_eq by reflexivity.
  assert (Hg : unsorted_frame B (group_stems [mkItem "A" 100 rate 50 source])
                 [mkItem "A" 100 rate 50 source] ["A"; "B"] =
               [mkGroupRow "A" 100 50; mkGroupRow "B" 0 0]).
  { transitivity
      [mkGroupRow "A" 100 (sum_value_usd B [mkItem "A" 100 rate 50 source] "A");
       mkGroupRow "B" 0 0]; [reflexivity|].
    rewrite Hsum. reflexivity. }
  rewrite Hg, sort_values_id.
  - reflexivity.
  - apply (bool_decide_unpack _). vm_compute. exact I.
  - apply (bool_decide_unpack _). vm_compute. exact I.
Qed.

(** ** The guard of the division *)

(** The guard itself: whenever [total_cell] divides, the divisor is not 0,
    and it answers 0.0 for every count that is not positive. *)
Lemma total_cell_guard preco opsc stems :
  (stems <= 0 -> total_cell preco opsc stems = Ok 0%float) /\
  (0 < stems ->
   truediv (preco + opsc) stems = Ok ((preco + opsc) / F64.of_Z stems)%float /\
   total_cell preco opsc stems =
     Ok (F64.py_round 4 ((preco + opsc) / F64.of_Z stems)%float)).
Proof.
  rewrite total_cell_ok. unfold total_of, truediv. split; intros H.
  - rewrite (bool_decide_eq_false_2 (0 < stems)) by lia. reflexivity.
  - rewrite (bool_decide_eq_true_2 (0 < stems)) by lia.
    rewrite (bool_decide_eq_false_2 (stems = 0)) by lia. split; reflexivity.
Qed.

(** C7. The division never raises: [truediv] raises ZeroDivisionError on a
    zero divisor only, and [total_cell] divides by a positive count only
    and answers 0.0 for every other count. So the call returns a table when
    the stem counts are [int64_safe], whatever it raises is raised by the
    conversion of the stems column, and in every table it returns a line
    with 0 stems has a total per stem of 0.0, which is what [total_cell]
    gives for the cells of that line. *)
Theorem finalize_table_zero_stems_guard
    (B : Backend) (items : list Item) (cotacao : float)
    (produtos : list string) (ops_costs_map : option (gmap string float)) :
  (forall preco opsc stems,
     total_cell preco opsc stems <> Raise ZeroDivisionError /\
     (stems <= 0 -> total_cell preco opsc stems = Ok 0%float) /\
     (0 < stems ->
      truediv (preco + opsc) stems = Ok ((preco + opsc) / F64.of_Z stems)%float)) /\
  (int64_safe items ->
   exists rows, finalize_table B items cotacao produtos ops_costs_map = Ok rows) /\
  (forall e,
     finalize_table B items cotacao produtos ops_costs_map = Raise e ->
     stems_column B items produtos = Raise e) /\
  forall rows,
    finalize_table B items cotacao produtos ops_costs_map = Ok rows ->
    forall r, r ∈ rows ->
      total_cell (Preco r) (Custos_de_operacao r) (Num_de_hastes r) = Ok (Total r) /\
      (Num_de_hastes r = 0 -> Total r = 0%float).
Proof.
  split.
  { intros preco opsc stems.
    destruct (total_cell_guard preco opsc stems) as [Hle Hlt].
    split; [rewrite total_cell_ok; discriminate|].
    split; [exact Hle|]. intros Hpos. apply (Hlt Hpos). }
  split; [apply finalize_table_returns|]. split.
  - intros e. rewrite finalize_table_bind.
    destruct (stems_column B items produtos) as [hastes|e']; [discriminate|].
    cbn [mbind result_bind]. intros [= ->]. reflexivity.
  - intros rows Hrows r Hr.
    apply finalize_table_inv in Hrows as (hastes & _ & ->).
    change (r ∈ row_of (float_or_zero cotacao) (default ∅ ops_costs_map) <$>
              sort_values B (ord_key produtos)
                (unsorted_frame B hastes items produtos)) in Hr.
    apply list_elem_of_fmap in Hr as (gr & -> & _).
    rewrite total_cell_ok. split; [reflexivity|].
    cbn. intros Hz. unfold total_of. rewrite Hz. reflexivity.
Qed.

(** On the worked example, with a cost of 25.0 set for B: its total per
    stem stays 0.0. *)
Lemma finalize_table_zero_stems_guard_witness :
  int64_safe [mkItem "A" 100 0.5 50 "invoice.json"] /\
  exists rows r,
    finalize_table stable_backend [mkItem "A" 100 0.5 50 "invoice.json"] 5
      ["A"; "B"] (Some {["B" := 25%float]}) = Ok rows /\
    r ∈ rows /\ Num_de_hastes r = 0 /\ Custos_de_operacao r = 25%float /\
    Total r = 0%float.
Proof.
  split; [reflexivity|].
  destruct (finalize_table_zero_stems_guard stable_backend
              [mkItem "A" 100 0.5 50 "invoice.json"] 5 ["A"; "B"]
              (Some {["B" := 25%float]})) as (_ & _ & _ & Hguard).
  assert (Heq : finalize_table stable_backend
                  [mkItem "A" 100 0.5 50 "invoice.json"] 5 ["A"; "B"]
                  (Some {["B" := 25%float]}) =
                Ok [mkFinalRow "A" 100 50 5 250 0 2.5;
                    mkFinalRow "B" 0 0 5 0 25 0])
    by (vm_compute; reflexivity).
  assert (Hin : mkFinalRow "B" 0 0 5 0 25 0 ∈
                [mkFinalRow "A" 100 50 5 250 0 2.5; mkFinalRow "B" 0 0 5 0 25 0])
    by (right; left).
  exists [mkFinalRow "A" 100 50 5 250 0 2.5; mkFinalRow "B" 0 0 5 0 25 0],
         (mkFinalRow "B" 0 0 5 0 25 0).
  split; [exact Heq|]. split; [exact Hin|]. split; [reflexivity|].
  split; [reflexivity|]. exact (proj2 (Hguard _ Heq _ Hin) eq_refl).
Defined.

(** ** The ordering key *)

Lemma order_dict_snoc (c : list string) (p : string) :
  order_dict (c ++ [p]) = <[p := length c]> (order_dict c).
Proof.
  unfold order_dict. rewrite imap_app, foldl_app. cbn. rewrite Nat.add_0_r.
  reflexivity.
Qed.

Lemma order_dict_None (c : list string) (p : string) :
  order_dict c !! p = None <-> p ∉ c.
Proof.
  induction c as [|x c IH] using rev_ind.
  - unfold order_dict. cbn. rewrite lookup_empty. split; [|reflexivity].
    intros _ H. inversion H.
  - rewrite order_dict_snoc, lookup_insert_None, IH, elem_of_app, list_elem_of_singleton.
    split; [intros [H1 H2] [H|H]; [tauto|congruence]|].
    intros H. split; [tauto|]. intros ->. tauto.
Qed.

(** The dict comprehension keeps, for a name, its last index. *)
Lemma order_dict_Some (c : list string) (p : string) (i : nat) :
  order_dict c !! p = Some i ->
  c !! i = Some p /\ forall j, c !! j = Some p -> (j <= i)%nat.
Proof.
  revert i. induction c as [|x c IH] using rev_ind; intros i.
  - unfold order_dict. cbn. rewrite lookup_empty. discriminate.
  - rewrite order_dict_snoc, lookup_insert_Some.
    intros [[-> <-]|[Hne Hi]].
    + split; [apply list_lookup_middle; reflexivity|].
      intros j Hj. apply lookup_lt_Some in Hj. rewrite length_app in Hj.
      cbn in Hj. lia.
    + destruct (IH i Hi) as [Hci Hlast]. split.
      * rewrite lookup_app_l; [exact Hci|]. eapply lookup_lt_Some, Hci.
      * intros j Hj. apply lookup_snoc_Some in Hj as [[_ Hj]|[_ Hj]];
          [apply Hlast, Hj|congruence].
Qed.

Lemma order_dict_NoDup (c : list string) (p : string) (i : nat) :
  NoDup c -> c !! i = Some p -> order_dict c !! p = Some i.
Proof.
  intros Hnd Hi.
  destruct (order_dict c !! p) as [j|] eqn:Hj.
  - apply order_dict_Some in Hj as [Hj _].
    f_equal. exact (NoDup_lookup c j i p Hnd Hj Hi).
  - apply order_dict_None in Hj. exfalso. apply Hj.
    apply list_elem_of_lookup. eauto.
Qed.

Lemma ord_key_absent (c : list string) (p : string) :
  p ∉ c -> ord_key c p = 1000000.
Proof.
  intros Hp. unfold ord_key. apply order_dict_None in Hp. rewrite Hp.
  reflexivity.
Qed.

Lemma ord_key_present (c : list string) (p : string) :
  p ∈ c ->
  exists i, ord_key c p = Z.of_nat i /\ c !! i = Some p /\
            forall j, c !! j = Some p -> (j <= i)%nat.
Proof.
  intros Hp. unfold ord_key.
  destruct (order_dict c !! p) as [i|] eqn:Hi.
  - exists i. split; [reflexivity|]. apply order_dict_Some, Hi.
  - apply order_dict_None in Hi. tauto.
Qed.

Lemma ord_key_lt_length (c : list string) (p : string) :
  p ∈ c -> 0 <= ord_key c p < Z.of_nat (length c).
Proof.
  intros Hp. destruct (ord_key_present c p Hp) as (i & -> & Hi & _).
  apply lookup_lt_Some in Hi. lia.
Qed.

Lemma ord_key_NoDup (c : list string) (p : string) (i : nat) :
  NoDup c -> c !! i = Some p -> ord_key c p = Z.of_nat i.
Proof.
  intros Hnd Hi. unfold ord_key. rewrite (order_dict_NoDup c p i Hnd Hi).
  reflexivity.
Qed.

(** For a catalogue without duplicates the keys of its names are
    0, 1, 2, ... *)
Lemma map_ord_key_NoDup (c : list string) :
  NoDup c -> map (ord_key c) c = map Z.of_nat (seq 0 (length c)).
Proof.
  intros Hnd. apply list_eq. intros i.
  change (map (ord_key c) c) with (ord_key c <$> c).
  change (map Z.of_nat (seq 0 (length c))) with (Z.of_nat <$> seq 0 (length c)).
  rewrite !list_lookup_fmap.
  destruct (c !! i) as [p|] eqn:Hi; cbn.
  - rewrite (ord_key_NoDup c p i Hnd Hi).
    assert (Hs : seq 0 (length c) !! i = Some i).
    { apply lookup_seq. split; [reflexivity|]. eapply lookup_lt_Some, Hi. }
    rewrite Hs. reflexivity.
  - apply lookup_ge_None in Hi.
    assert (Hs : seq 0 (length c) !! i = None).
    { apply lookup_ge_None. rewrite length_seq. exact Hi. }
    rewrite Hs. reflexivity.
Qed.

Lemma Sorted_of_nat_seq (j n : nat) : Sorted Z.le (map Z.of_nat (seq j n)).
Proof.
  revert j. induction n as [|n IH]; intros j; cbn; constructor.
  - apply IH.
  - destruct n; cbn; constructor. lia.
Qed.

Lemma NoDup_of_nat_seq (j n : nat) : NoDup (map Z.of_nat (seq j n)).
Proof.
  change (NoDup (Z.of_nat <$> seq j n)).
  apply (NoDup_fmap_2 Z.of_nat), NoDup_seq.
Qed.

(** ** Lists sorted by a key *)

Lemma filter_all {A} (P : A -> Prop) `{forall x, Decision (P x)} (l : list A) :
  (forall y, y ∈ l -> P y) -> filter P l = l.
Proof.
  induction l as [|a l IH]; intros Hl; [reflexivity|].
  rewrite filter_cons_True by (apply Hl; left). f_equal.
  apply IH. intros y Hy. apply Hl. right. exact Hy.
Qed.

Lemma StronglySorted_map_key {A} (k : A -> Z) (l : list A) :
  Sorted Z.le (map k l) -> StronglySorted (fun x y => k x <= k y) l.
Proof.
  intros Hs. apply Sorted_StronglySorted in Hs; [|intros x y z; lia].
  induction l as [|a l IH]; [constructor|].
  cbn [map] in Hs. apply StronglySorted_inv in Hs as [Hs Ha].
  constructor; [apply IH, Hs|].
  apply Forall_forall. intros y Hy.
  rewrite Forall_forall in Ha. apply Ha.
  change (k y ∈ k <$> l). apply list_elem_of_fmap_2, Hy.
Qed.

Lemma Sorted_map_key {A} (k : A -> Z) (l : list A) :
  StronglySorted (fun x y => k x <= k y) l -> Sorted Z.le (map k l).
Proof.
  intros Hs. apply StronglySorted_Sorted in Hs.
  apply (Sorted_fmap k (fun x y => k x <= k y) Z.le); [auto|exact Hs].
Qed.

Lemma StronglySorted_filter {A} (R : relation A) (P : A -> Prop)
    `{forall x, Decision (P x)} (l : list A) :
  StronglySorted R l -> StronglySorted R (filter P l).
Proof.
  induction 1 as [|a l Hl IH Ha]; [constructor|].
  destruct (decide (P a)) as [Hp|Hp].
  - rewrite filter_cons_True by exact Hp. constructor; [exact IH|].
    apply Forall_forall. intros y Hy. apply list_elem_of_filter in Hy as [_ Hy].
    rewrite Forall_forall in Ha. apply Ha, Hy.
  - rewrite filter_cons_False by exact Hp. exact IH.
Qed.

Lemma Sorted_map_filter {A} (k : A -> Z) (P : A -> Prop)
    `{forall x, Decision (P x)} (l : list A) :
  Sorted Z.le (map k l) -> Sorted Z.le (map k (filter P l)).
Proof.
  intros Hs. apply Sorted_map_key, StronglySorted_filter, StronglySorted_map_key, Hs.
Qed.

(** A list sorted by key is the elements below a threshold followed by
    the others. *)
Lemma sorted_split {A} (k : A -> Z) (t : Z) (l : list A) :
  Sorted Z.le (map k l) ->
  l = filter (fun x => k x < t) l ++ filter (fun x => ~ k x < t) l.
Proof.
  intros Hs. apply StronglySorted_map_key in Hs.
  induction Hs as [|a l Hl IH Ha]; [reflexivity|].
  rewrite Forall_forall in Ha.
  destruct (decide (k a < t)) as [Hlt|Hge].
  - rewrite filter_cons_True by exact Hlt.
    rewrite (filter_cons_False (fun x => ~ k x < t)) by tauto.
    cbn. f_equal. exact IH.
  - rewrite filter_cons_False by exact Hge.
    rewrite (filter_cons_True (fun x => ~ k x < t)) by exact Hge.
    rewrite filter_none, filter_all; [reflexivity| |].
    + intros y Hy. specialize (Ha y Hy). lia.
    + intros y Hy. specialize (Ha y Hy). lia.
Qed.

(** [x] comes before [y] in a list sorted by key when its key is smaller. *)
Lemma sorted_before {A} (k : A -> Z) (l : list A) (x y : A) :
  Sorted Z.le (map k l) -> x ∈ l -> y ∈ l -> k x < k y -> before x y l.
Proof.
  intros Hs Hx Hy Hlt. apply StronglySorted_map_key in Hs.
  apply list_elem_of_split in Hx as (l1 & l2 & ->).
  apply elem_of_app in Hy as [Hy|Hy].
  - exfalso.
    assert (k y <= k x); [|lia].
    apply (StronglySorted_app_1_elem_of _ l1 (x :: l2) y x Hs Hy). left.
  - apply elem_of_cons in Hy as [->|Hy]; [lia|].
    apply list_elem_of_split in Hy as (l3 & l4 & ->).
    exists l1, l3, l4. reflexivity.
Qed.

(** ** The order of the lines *)

(** The product column of a sorted frame is made from the product column
    of the frame alone. *)
Lemma sort_values_products B key g :
  map g_Produto (sort_values B key g) =
  map (fun i => nth i (map g_Produto g) "")
      (argsort B (map key (map g_Produto g))).
Proof.
  unfold sort_values. rewrite !map_map. apply map_ext. intros i.
  symmetry. apply (map_nth g_Produto g dummy_group).
Qed.

(** So it does not depend on the stems the conversion gave. *)
Lemma sorted_frame_products B hastes items produtos :
  map g_Produto (sort_values B (ord_key produtos)
                   (unsorted_frame B hastes items produtos)) =
  sorted_products B items produtos.
Proof.
  unfold sorted_products. rewrite !sort_values_products.
  rewrite !unsorted_frame_products. reflexivity.
Qed.

Lemma finalize_table_products B items cotacao produtos ops_costs_map rows :
  finalize_table B items cotacao produtos ops_costs_map = Ok rows ->
  map Produto rows = sorted_products B items produtos.
Proof.
  intros Hrows. apply finalize_table_inv in Hrows as (hastes & _ & ->).
  rewrite <- (sorted_frame_products B hastes). rewrite map_map. reflexivity.
Qed.

Lemma sorted_products_sorted B items c :
  Sorted Z.le (map (ord_key c) (sorted_products B items c)).
Proof.
  unfold sorted_products. rewrite map_map. apply sort_values_sorted.
Qed.

Lemma sorted_products_perm B items c :
  Permutation (sorted_products B items c)
              (group_keys items ++ filter (fun p => p ∉ group_keys items) c).
Proof.
  unfold sorted_products.
  rewrite <- (unsorted_frame_products B (group_stems items)).
  apply Permutation_map, sort_values_perm.
Qed.

Lemma elem_of_sorted_products B items c p :
  p ∈ sorted_products B items c <-> p ∈ group_keys items \/ p ∈ c.
Proof.
  rewrite sorted_products_perm,
    <- (unsorted_frame_products B (group_stems items)).
  apply elem_of_unsorted_frame_products.
Qed.

Lemma sorted_products_NoDup B items c :
  NoDup c -> NoDup (sorted_products B items c).
Proof.
  intros Hnd. rewrite sorted_products_perm,
    <- (unsorted_frame_products B (group_stems items)).
  apply unsorted_frame_NoDup, Hnd.
Qed.

Lemma ord_key_lt_sentinel (c : list string) (p : string) :
  Z.of_nat (length c) <= 1000000 -> (ord_key c p < 1000000 <-> p ∈ c).
Proof.
  intros Hlen. split.
  - intros Hlt. destruct (decide (p ∈ c)) as [|Hn]; [assumption|].
    rewrite (ord_key_absent c p Hn) in Hlt. lia.
  - intros Hp. pose proof (ord_key_lt_length c p Hp). lia.
Qed.

(** The names of the catalogue come first. *)
Lemma sorted_products_split B items c :
  Z.of_nat (length c) <= 1000000 ->
  sorted_products B items c =
  filter (fun p => p ∈ c) (sorted_products B items c) ++
  filter (fun p => p ∉ c) (sorted_products B items c).
Proof.
  intros Hlen. etransitivity.
  - apply (sorted_split (ord_key c) 1000000), sorted_products_sorted.
  - f_equal; apply list_filter_iff; intros p;
      rewrite (ord_key_lt_sentinel c p Hlen); reflexivity.
Qed.

(** Without duplicates in the catalogue, they are the catalogue itself. *)
Lemma sorted_products_catalog B items c :
  NoDup c -> Z.of_nat (length c) <= 1000000 ->
  filter (fun p => p ∈ c) (sorted_products B items c) = c.
Proof.
  intros Hnd Hlen. apply (sorted_perm_unique (ord_key c)).
  - apply NoDup_Permutation.
    + apply NoDup_filter, sorted_products_NoDup, Hnd.
    + exact Hnd.
    + intros p. rewrite list_elem_of_filter, elem_of_sorted_products. tauto.
  - rewrite map_ord_key_NoDup by exact Hnd. apply NoDup_of_nat_seq.
  - apply Sorted_map_filter, sorted_products_sorted.
  - rewrite map_ord_key_NoDup by exact Hnd. apply Sorted_of_nat_seq.
Qed.

(** The other names are those of the grouping, in some order. *)
Lemma sorted_products_extras B items c :
  Permutation (filter (fun p => p ∉ c) (sorted_products B items c))
              (filter (fun p => p ∉ c) (group_keys items)).
Proof.
  rewrite sorted_products_perm, filter_app.
  rewrite (filter_none (fun p => p ∉ c) (filter _ c)).
  - rewrite app_nil_r. reflexivity.
  - intros p Hp. apply list_elem_of_filter in Hp. tauto.
Qed.

(** ** What a stable backend adds *)

Lemma filter_ext_in {A} (P Q : A -> Prop) `{forall x, Decision (P x)}
    `{forall x, Decision (Q x)} (l : list A) :
  (forall x, x ∈ l -> (P x <-> Q x)) -> filter P l = filter Q l.
Proof.
  induction l as [|a l IH]; intros Hl; [reflexivity|].
  assert (IH' : filter P l = filter Q l).
  { apply IH. intros x Hx. apply Hl. right. exact Hx. }
  destruct (decide (P a)) as [Hp|Hp].
  - rewrite (filter_cons_True P) by exact Hp.
    rewrite (filter_cons_True Q) by (apply Hl; [left|exact Hp]).
    f_equal. exact IH'.
  - rewrite (filter_cons_False P) by exact Hp.
    rewrite (filter_cons_False Q); [exact IH'|].
    intros Hq. apply Hp, Hl; [left|exact Hq].
Qed.

Lemma filter_map_comm {A B} (f : A -> B) (P : B -> Prop) (Q : A -> Prop)
    `{forall y, Decision (P y)} `{forall x, Decision (Q x)} (l : list A) :
  (forall x, Q x <-> P (f x)) ->
  filter P (map f l) = map f (filter Q l).
Proof.
  intros HPQ. induction l as [|a l IH]; [reflexivity|]. cbn [map].
  destruct (decide (Q a)) as [Hq|Hq].
  - rewrite (filter_cons_True P) by (apply HPQ, Hq).
    rewrite (filter_cons_True Q) by exact Hq.
    cbn [map]. f_equal. exact IH.
  - rewrite (filter_cons_False P) by (rewrite <- HPQ; exact Hq).
    rewrite (filter_cons_False Q) by exact Hq.
    exact IH.
Qed.

Lemma StronglySorted_impl_on {A} (R R' : relation A) (l : list A) :
  (forall x y, x ∈ l -> y ∈ l -> R x y -> R' x y) ->
  StronglySorted R l -> StronglySorted R' l.
Proof.
  intros Himp Hs. induction Hs as [|a l Hl IH Ha]; [constructor|].
  constructor.
  - apply IH. intros x y Hx Hy. apply Himp; right; assumption.
  - rewrite Forall_forall in Ha |- *. intros y Hy.
    apply Himp; [left|right; exact Hy|apply Ha, Hy].
Qed.

Lemma StronglySorted_le_seq (j n : nat) : StronglySorted le (seq j n).
Proof.
  revert j. induction n as [|n IH]; intros j; cbn; constructor.
  - apply IH.
  - apply Forall_forall. intros y Hy. apply elem_of_seq in Hy. lia.
Qed.

#[global] Instance lex_le_trans ks : Transitive (lex_le ks).
Proof. intros i j k. unfold lex_le. lia. Qed.

(** A stable [argsort] leaves the indices of one key in increasing order. *)
Lemma stable_filter_key (B : Backend) (ks : list Z) (t : Z) :
  stable B ->
  filter (fun i => nth i ks 0 = t) (argsort B ks) =
  filter (fun i => nth i ks 0 = t) (seq 0 (length ks)).
Proof.
  intros Hst. apply (Sorted_unique le).
  - apply StronglySorted_Sorted.
    apply (StronglySorted_impl_on (lex_le ks)).
    + intros x y Hx Hy. apply list_elem_of_filter in Hx as [Hx _].
      apply list_elem_of_filter in Hy as [Hy _]. unfold lex_le. lia.
    + apply StronglySorted_filter, Sorted_StronglySorted; [apply _|apply Hst].
  - apply StronglySorted_Sorted, StronglySorted_filter, StronglySorted_le_seq.
  - apply filter_Permutation, argsort_perm.
Qed.

(** Hence [sort_values] keeps the lines of one key in their order. *)
Lemma stable_sort_values_key (B : Backend) key (g : list GroupRow) (t : Z) :
  stable B ->
  filter (fun r => key (g_Produto r) = t) (sort_values B key g) =
  filter (fun r => key (g_Produto r) = t) g.
Proof.
  intros Hst. unfold sort_values.
  set (ks := map (fun r => key (g_Produto r)) g).
  assert (Hnth : forall i, (i < length g)%nat ->
            (key (g_Produto (nth i g dummy_group)) = t <-> nth i ks 0 = t)).
  { intros i Hi. unfold ks.
    rewrite (nth_indep _ 0 (key (g_Produto dummy_group)))
      by (rewrite length_map; exact Hi).
    rewrite (map_nth (fun r => key (g_Produto r))). reflexivity. }
  rewrite (filter_map_comm _ _ (fun i => key (g_Produto (nth i g dummy_group)) = t))
    by reflexivity.
  rewrite (filter_ext_in _ (fun i => nth i ks 0 = t) (argsort B ks)).
  - rewrite (stable_filter_key B ks t Hst).
    rewrite <- (filter_ext_in (fun i => key (g_Produto (nth i g dummy_group)) = t)
                              (fun i => nth i ks 0 = t)).
    + etransitivity;
        [symmetry;
         apply (filter_map_comm (fun i => nth i g dummy_group)
                  (fun r => key (g_Produto r) = t)); reflexivity|].
      unfold ks. rewrite length_map, map_nth_seq. reflexivity.
    + intros i Hi. apply Hnth. apply elem_of_seq in Hi.
      unfold ks in Hi. rewrite length_map in Hi. lia.
  - intros i Hi. apply Hnth. apply list_elem_of_In, argsort_lt in Hi.
    unfold ks in Hi. rewrite length_map in Hi. exact Hi.
Qed.

Lemma ord_key_eq_sentinel (c : list string) (p : string) :
  Z.of_nat (length c) <= 1000000 -> (ord_key c p = 1000000 <-> p ∉ c).
Proof.
  intros Hlen. split.
  - intros Heq Hp. pose proof (ord_key_lt_length c p Hp). lia.
  - apply ord_key_absent.
Qed.

(** With a stable backend the names outside the catalogue keep the order
    of the grouping, which is the increasing order of the names. *)
Lemma sorted_products_extras_stable B items c :
  stable B -> Z.of_nat (length c) <= 1000000 ->
  filter (fun p => p ∉ c) (sorted_products B items c) =
  filter (fun p => p ∉ c) (group_keys items).
Proof.
  intros Hst Hlen. unfold sorted_products.
  rewrite (filter_map_comm _ _ (fun r => ord_key c (g_Produto r) = 1000000))
    by (intros r; apply ord_key_eq_sentinel, Hlen).
  rewrite (stable_sort_values_key B (ord_key c) _ 1000000 Hst).
  rewrite (list_filter_iff _ (fun r => g_Produto r ∉ c))
    by (intros r; apply ord_key_eq_sentinel, Hlen).
  etransitivity;
    [symmetry; apply (filter_map_comm g_Produto (fun p => p ∉ c));
     reflexivity|].
  rewrite unsorted_frame_products, filter_app.
  rewrite (filter_none (fun p => p ∉ c) (filter _ c)).
  - apply app_nil_r.
  - intros p Hp. apply list_elem_of_filter in Hp. tauto.
Qed.

Lemma group_keys_sorted items : Sorted String.le (group_keys items).
Proof. apply (Sorted_merge_sort String.le). Qed.

(** C3, as the code has it. The call returns a table when the stem counts
    are [int64_safe]. In every table it returns the lines are in
    non-decreasing order of the key [ord_key]: the last index of the name in
    the catalogue, or the sentinel 1000000 for a name outside it. For a
    catalogue of at most 1000000 names, the lines of the catalogue come
    first (they are the catalogue itself, in its order, when it has no
    duplicate), followed by the products of the grouping that are outside
    the catalogue, in an order the backend chooses: the order of the
    grouping, which is the increasing order of the names, when the backend
    is stable. *)
Theorem finalize_table_row_order
    (B : Backend) (items : list Item) (cotacao : float)
    (produtos : list string) (ops_costs_map : option (gmap string float)) :
  (int64_safe items ->
   exists rows, finalize_table B items cotacao produtos ops_costs_map = Ok rows) /\
  (forall p, p ∉ produtos -> ord_key produtos p = 1000000) /\
  (forall p, p ∈ produtos ->
     exists i, ord_key produtos p = Z.of_nat i /\ produtos !! i = Some p /\
               forall j, produtos !! j = Some p -> (j <= i)%nat) /\
  Sorted String.le (group_keys items) /\
  forall rows,
    finalize_table B items cotacao produtos ops_costs_map = Ok rows ->
    Sorted Z.le (map (ord_key produtos) (map Produto rows)) /\
    (Z.of_nat (length produtos) <= 1000000 ->
     exists head extras,
       map Produto rows = head ++ extras /\
       (forall p, p ∈ head -> p ∈ produtos) /\
       Permutation extras (filter (fun p => p ∉ produtos) (group_keys items)) /\
       (NoDup produtos -> head = produtos) /\
       (stable B ->
        extras = filter (fun p => p ∉ produtos) (group_keys items))).
Proof.
  split; [apply finalize_table_returns|].
  split; [apply ord_key_absent|]. split; [apply ord_key_present|].
  split; [apply group_keys_sorted|].
  intros rows Hrows.
  rewrite (finalize_table_products _ _ _ _ _ _ Hrows).
  split; [apply sorted_products_sorted|].
  intros Hlen.
  exists (filter (fun p => p ∈ produtos) (sorted_products B items produtos)),
         (filter (fun p => p ∉ produtos) (sorted_products B items produtos)).
  split; [apply sorted_products_split, Hlen|]. split; [|split; [|split]].
  - intros p Hp. apply list_elem_of_filter in Hp. tauto.
  - apply sorted_products_extras.
  - intros Hnd. apply sorted_products_catalog; assumption.
  - intros Hst. apply sorted_products_extras_stable; assumption.
Qed.

(** With the stable backend, two catalogue names and three products, two
    of them outside the catalogue. *)
Lemma finalize_table_row_order_witness :
  int64_safe
    [mkItem "Rosas" 10 1 10 "a.json"; mkItem "Coloridas" 20 1 20 "a.json";
     mkItem "Cravos" 30 1 30 "a.json"] /\
  Z.of_nat (length ["Freedom 60"; "Coloridas"]) <= 1000000 /\
  NoDup ["Freedom 60"; "Coloridas"] /\
  stable stable_backend /\
  exists rows,
    finalize_table stable_backend
      [mkItem "Rosas" 10 1 10 "a.json"; mkItem "Coloridas" 20 1 20 "a.json";
       mkItem "Cravos" 30 1 30 "a.json"] 5
      ["Freedom 60"; "Coloridas"] None = Ok rows /\
    map Produto rows = ["Freedom 60"; "Coloridas"; "Cravos"; "Rosas"].
Proof.
  assert (Hsafe : int64_safe
            [mkItem "Rosas" 10 1 10 "a.json"; mkItem "Coloridas" 20 1 20 "a.json";
             mkItem "Cravos" 30 1 30 "a.json"]) by reflexivity.
  assert (Hlen : Z.of_nat (length ["Freedom 60"; "Coloridas"]) <= 1000000)
    by (cbn; lia).
  assert (Hnd : NoDup ["Freedom 60"; "Coloridas"]).
  { apply (bool_decide_unpack _). vm_compute. exact I. }
  split; [exact Hsafe|]. split; [exact Hlen|]. split; [exact Hnd|].
  split; [exact stable_backend_stable|].
  destruct (finalize_table_row_order stable_backend
              [mkItem "Rosas" 10 1 10 "a.json"; mkItem "Coloridas" 20 1 20 "a.json";
               mkItem "Cravos" 30 1 30 "a.json"] 5
              ["Freedom 60"; "Coloridas"] None)
    as (Hret & _ & _ & _ & Hord).
  destruct (Hret Hsafe) as (rows & Hrows).
  destruct (Hord rows Hrows) as (_ & Hord').
  destruct (Hord' Hlen) as (head & extras & Heq & _ & _ & Hhead & Hextras).
  exists rows. split; [exact Hrows|].
  rewrite Heq, (Hhead Hnd), (Hextras stable_backend_stable). reflexivity.
Defined.

(** *** The sentinel is not above every index *)

Lemma ord_key_last (pre : list string) (p : string) :
  Z.of_nat (length pre) <= ord_key (pre ++ [p]) p.
Proof.
  assert (Hp : p ∈ pre ++ [p]) by (apply elem_of_app; right; left).
  destruct (ord_key_present _ _ Hp) as (i & -> & _ & Hlast).
  specialize (Hlast (length pre)).
  rewrite list_lookup_middle in Hlast by reflexivity.
  specialize (Hlast eq_refl). lia.
Qed.

(** A product outside the catalogue precedes every catalogue name whose key
    is above the sentinel. *)
Lemma sentinel_overtaken B items cotacao ops_costs_map
    (pre : list string) (p q : string) :
  1000000 < Z.of_nat (length pre) ->
  q ∉ pre ++ [p] ->
  (exists it, it ∈ items /\ product it = q) ->
  forall rows,
    finalize_table B items cotacao (pre ++ [p]) ops_costs_map = Ok rows ->
    before q p (map Produto rows).
Proof.
  intros Hlen Hq Hit rows Hrows.
  rewrite (finalize_table_products _ _ _ _ _ _ Hrows).
  apply (sorted_before (ord_key (pre ++ [p]))).
  - apply sorted_products_sorted.
  - apply elem_of_sorted_products. left. apply elem_of_group_keys, Hit.
  - apply elem_of_sorted_products. right. apply elem_of_app. right. left.
  - rewrite (ord_key_absent _ q Hq). pose proof (ord_key_last pre p). lia.
Qed.

(** C3 fails as stated: with the catalogue [big_catalog] and one item of a
    product Q outside it, the line of Q comes before the line of the
    catalogue name P, whose index 1000001 is above the sentinel. *)
Lemma finalize_table_sentinel_counterexample :
  exists rows,
    finalize_table stable_backend [mkItem "Q" 1 1 1 "invoice.json"] 5
      big_catalog None = Ok rows /\
    ("P" ∈ big_catalog) /\ ("Q" ∉ big_catalog) /\
    before "Q" "P" (map Produto rows).
Proof.
  assert (Hq : "Q" ∉ big_catalog).
  { unfold big_catalog. intros H. apply elem_of_app in H as [H|H].
    - change ("Q" ∈ (fun n : nat => "c" +:+ pretty n) <$> seq 0 (Z.to_nat 1000001)) in H.
      apply list_elem_of_fmap in H as (n & Hn & _). cbn in Hn. discriminate.
    - apply list_elem_of_singleton in H. discriminate. }
  destruct (finalize_table_returns stable_backend
              [mkItem "Q" 1 1 1 "invoice.json"] 5 big_catalog None)
    as (rows & Hrows); [reflexivity|].
  exists rows. split; [exact Hrows|]. split; [|split; [exact Hq|]].
  - unfold big_catalog. apply elem_of_app. right. left.
  - apply (sentinel_overtaken stable_backend [mkItem "Q" 1 1 1 "invoice.json"]
             5 None (map (fun n => "c" +:+ pretty n) (seq 0 (Z.to_nat 1000001)))
             "P" "Q"); [| | |exact Hrows].
    + rewrite length_map, length_seq. lia.
    + exact Hq.
    + eexists. split; [left|reflexivity].
Qed.

(** *** Equal keys and duplicate names *)

(** The contract of [argsort] leaves the order of equal keys open: with the
    backend that reverses them, two products outside the catalogue come out
    against the order of the grouping. *)
Example tie_order_depends_on_backend :
  let items := [mkItem "Rosas" 10 1 10 "a.json"; mkItem "Cravos" 30 1 30 "a.json"] in
  group_keys items = ["Cravos"; "Rosas"] /\
  (map Produto <$> finalize_table stable_backend items 5 ["Coloridas"] None) =
    Ok ["Coloridas"; "Cravos"; "Rosas"] /\
  (map Produto <$> finalize_table tie_reversing_backend items 5 ["Coloridas"] None) =
    Ok ["Coloridas"; "Rosas"; "Cravos"].
Proof. repeat split; vm_compute; reflexivity. Qed.

(** A name that occurs twice in the catalogue is keyed by its last index,
    and gets one line per occurrence when no item carries it. *)
Example duplicate_names_in_catalog :
  ord_key ["A"; "B"; "A"] "A" = 2 /\
  (map Produto <$> finalize_table stable_backend [] 5 ["A"; "B"; "A"] None) =
    Ok ["B"; "A"; "A"].
Proof. repeat split; vm_compute; reflexivity. Qed.

(** ** Every line, field by field *)

Lemma group_of_absent items p : p ∉ group_keys items -> group_of items p = [].
Proof.
  intros Hp. apply filter_none. intros it Hit Heq.
  apply Hp, elem_of_group_keys. eauto.
Qed.

Lemma group_stems_absent items p : p ∉ group_keys items -> group_stems items p = 0.
Proof.
  intros Hp. unfold group_stems. rewrite (group_of_absent items p Hp).
  reflexivity.
Qed.

(** A line of the frame: the float sum of its product, and the stems the
    conversion gave, 0 on a line added for the catalogue. *)
Lemma unsorted_frame_row B hastes items produtos r :
  r ∈ unsorted_frame B hastes items produtos ->
  subtotal_usd r = frame_subtotal B items (g_Produto r) /\
  total_stems r =
    if decide (g_Produto r ∈ group_keys items) then hastes (g_Produto r) else 0.
Proof.
  intros Hr. unfold frame_subtotal.
  destruct (decide (g_Produto r ∈ group_keys items)) as [Hk|Hk].
  - rewrite (unsorted_frame_group B hastes items produtos r Hr Hk).
    split; reflexivity.
  - rewrite (unsorted_frame_missing B hastes items produtos r Hr Hk).
    split; reflexivity.
Qed.

(** The cells of a line of a returned table that do not depend on the
    stems. *)
Lemma finalize_table_rows B items cotacao produtos ops_costs_map rows :
  finalize_table B items cotacao produtos ops_costs_map = Ok rows ->
  forall r, r ∈ rows ->
    Subtotal_do_invoice r = F64.np_round 2 (frame_subtotal B items (Produto r)) /\
    Custos_de_operacao r =
      float_or_zero (default 0%float (default ∅ ops_costs_map !! Produto r)) /\
    derived_cells cotacao r.
Proof.
  intros Hrows r Hr.
  apply finalize_table_inv in Hrows as (hastes & _ & ->).
  change (r ∈ row_of (float_or_zero cotacao) (default ∅ ops_costs_map) <$>
            sort_values B (ord_key produtos)
              (unsorted_frame B hastes items produtos)) in Hr.
  apply list_elem_of_fmap in Hr as (gr & -> & Hgr).
  rewrite sort_values_perm in Hgr.
  destruct (unsorted_frame_row B hastes items produtos gr Hgr) as [Hsub _].
  unfold derived_cells, row_of, total_of. cbn. rewrite <- Hsub.
  repeat split; reflexivity.
Qed.

(** With stem counts that are [int64_safe], every cell. *)
Lemma finalize_table_rows_safe B items cotacao produtos ops_costs_map rows :
  int64_safe items ->
  finalize_table B items cotacao produtos ops_costs_map = Ok rows ->
  forall r, r ∈ rows -> row_spec B items cotacao ops_costs_map r.
Proof.
  intros Hsafe Hrows r Hr.
  destruct (finalize_table_rows _ _ _ _ _ _ Hrows r Hr) as (Hsub & Hc & Hd).
  unfold row_spec. split; [|tauto].
  rewrite (finalize_table_eq _ _ _ _ _ Hsafe) in Hrows. injection Hrows as <-.
  change (r ∈ row_of (float_or_zero cotacao) (default ∅ ops_costs_map) <$>
            sort_values B (ord_key produtos)
              (unsorted_frame B (group_stems items) items produtos)) in Hr.
  apply list_elem_of_fmap in Hr as (gr & -> & Hgr).
  rewrite sort_values_perm in Hgr.
  destruct (unsorted_frame_row B _ items produtos gr Hgr) as [_ Hst].
  cbn. rewrite Hst.
  destruct (decide (g_Produto gr ∈ group_keys items)) as [Hk|Hk];
    [reflexivity|].
  symmetry. apply group_stems_absent, Hk.
Qed.

(** ** Rounding *)

Lemma rne_div_nearest (a d : Z) :
  0 < d -> 2 * Z.abs (a - d * F64.rne_div a d) <= d.
Proof.
  intros Hd. unfold F64.rne_div.
  pose proof (Z.div_mod a d ltac:(lia)) as Hdm.
  pose proof (Z.mod_pos_bound a d Hd) as Hm.
  set (q := a / d) in *. set (r := a mod d) in *. clearbody q r. subst a.
  assert (Hlo : d * q + r - d * q = r) by ring.
  assert (Hhi : d * q + r - d * (q + 1) = r - d) by ring.
  destruct (2 * r ?= d) eqn:Hc.
  - apply Z.compare_eq in Hc. destruct (Z.even q).
    + rewrite Hlo, Z.abs_eq; lia.
    + rewrite Hhi, Z.abs_neq; lia.
  - rewrite Z.compare_lt_iff in Hc. rewrite Hlo, Z.abs_eq; lia.
  - rewrite Z.compare_gt_iff in Hc. rewrite Hhi, Z.abs_neq; lia.
Qed.

(** A tie goes to the even neighbour. *)
Lemma rne_div_tie_even (a d : Z) :
  0 < d -> 2 * (a mod d) = d -> Z.even (F64.rne_div a d) = true.
Proof.
  intros Hd Htie. unfold F64.rne_div.
  rewrite (proj2 (Z.compare_eq_iff _ _) Htie).
  destruct (Z.even (a / d)) eqn:He; [exact He|].
  rewrite Z.even_add, He. reflexivity.
Qed.

Lemma py_round_finite (nd : Z) (x : float) s m e :
  Prim2SF x = S754_finite s m e -> e < 0 ->
  F64.py_round nd x =
  match F64.rne_div (Zpos m * 10 ^ nd) (2 ^ (- e)) with
  | Zpos n => F64.of_ratio s n (Z.to_pos (10 ^ nd))
  | _ => F64.signed_zero s
  end.
Proof.
  intros Hx He. unfold F64.py_round. rewrite Hx.
  rewrite bool_decide_eq_false_2 by lia. reflexivity.
Qed.

Lemma rint_finite (x : float) s m e :
  Prim2SF x = S754_finite s m e -> e < 0 ->
  F64.rint x =
  match F64.rne_div (Zpos m) (2 ^ (- e)) with
  | Zpos n => F64.of_ratio s n 1
  | _ => F64.signed_zero s
  end.
Proof.
  intros Hx He. unfold F64.rint. rewrite Hx.
  rewrite bool_decide_eq_false_2 by lia. reflexivity.
Qed.

(** Ties, on values that binary64 holds exactly. *)
Example np_round_ties :
  F64.np_round 2 0.125 = 0.12%float /\ F64.np_round 2 0.375 = 0.38%float /\
  F64.np_round 2 (-0.125) = (-0.12)%float.
Proof. repeat split; reflexivity. Qed.

Example py_round_ties :
  F64.py_round 4 0.03125 = 0.0312%float /\
  F64.py_round 4 0.09375 = 0.0938%float /\
  F64.py_round 4 (-0.03125) = (-0.0312)%float.
Proof. repeat split; reflexivity. Qed.

(** What the two roundings do to a finite value [x = m * 2^e] with [e < 0].
    [rint] gives the integer nearest to [x], and [py_round 4] the multiple
    of 0.0001 nearest to [x], as a binary64 value; a value that lies
    exactly half way goes to the even neighbour. *)
Lemma rounding_nearest_even (x : float) s m e :
  Prim2SF x = S754_finite s m e -> e < 0 ->
  exists n k : Z,
    2 * Z.abs (Zpos m - 2 ^ (- e) * n) <= 2 ^ (- e) /\
    (2 * (Zpos m mod 2 ^ (- e)) = 2 ^ (- e) -> Z.even n = true) /\
    F64.rint x =
      match n with
      | Zpos p => F64.of_ratio s p 1
      | _ => F64.signed_zero s
      end /\
    2 * Z.abs (Zpos m * 10 ^ 4 - 2 ^ (- e) * k) <= 2 ^ (- e) /\
    (2 * ((Zpos m * 10 ^ 4) mod 2 ^ (- e)) = 2 ^ (- e) -> Z.even k = true) /\
    F64.py_round 4 x =
      match k with
      | Zpos p => F64.of_ratio s p (Z.to_pos (10 ^ 4))
      | _ => F64.signed_zero s
      end.
Proof.
  intros Hx He.
  assert (Hd : 0 < 2 ^ (- e)) by (apply Z.pow_pos_nonneg; lia).
  exists (F64.rne_div (Zpos m) (2 ^ (- e))),
         (F64.rne_div (Zpos m * 10 ^ 4) (2 ^ (- e))).
  split; [apply rne_div_nearest, Hd|].
  split; [apply rne_div_tie_even, Hd|].
  split; [apply (rint_finite x s m e Hx He)|].
  split; [apply rne_div_nearest, Hd|].
  split; [apply rne_div_tie_even, Hd|].
  apply (py_round_finite 4 x s m e Hx He).
Qed.

(** C4, as the code has it. The call returns a table when the stem counts
    are [int64_safe], and in every table it returns each derived field is
    rounded once: the subtotal is the float sum of the frame rounded by
    [np_round] to 2 decimals, the price is subtotal times rate rounded by
    [np_round] to 2 decimals, the total per stem is the quotient rounded by
    [py_round] to 4 decimals. Neither rounds half up. [np_round 2 x] is
    [rint (x * 100) / 100]: the float product is taken to the nearest
    integer, an exact half to the even one, so 0.125 gives 0.12, and 0.025,
    whose product with 100 is the float 2.5, gives 0.02. [py_round 4] takes
    the exact value of the float to the nearest multiple of 0.0001, an exact
    half to the even one: 0.03125 gives 0.0312, and 0.00025, a float above
    the half, gives 0.0003. *)
Theorem finalize_table_rounding
    (B : Backend) (items : list Item) (cotacao : float)
    (produtos : list string) (ops_costs_map : option (gmap string float)) :
  (int64_safe items ->
   exists rows, finalize_table B items cotacao produtos ops_costs_map = Ok rows) /\
  (forall rows,
     finalize_table B items cotacao produtos ops_costs_map = Ok rows ->
     forall r, r ∈ rows ->
       Subtotal_do_invoice r =
         F64.np_round 2 (frame_subtotal B items (Produto r)) /\
       Preco r =
         F64.np_round 2 (Subtotal_do_invoice r * float_or_zero cotacao)%float /\
       (0 < Num_de_hastes r ->
        Total r =
          F64.py_round 4 ((Preco r + Custos_de_operacao r)
                          / F64.of_Z (Num_de_hastes r))%float)) /\
  (forall x, F64.np_round 2 x = (F64.rint (x * 100) / 100)%float) /\
  (forall x s m e, Prim2SF x = S754_finite s m e -> e < 0 ->
     exists n k : Z,
       2 * Z.abs (Zpos m - 2 ^ (- e) * n) <= 2 ^ (- e) /\
       (2 * (Zpos m mod 2 ^ (- e)) = 2 ^ (- e) -> Z.even n = true) /\
       F64.rint x =
         match n with
         | Zpos p => F64.of_ratio s p 1
         | _ => F64.signed_zero s
         end /\
       2 * Z.abs (Zpos m * 10 ^ 4 - 2 ^ (- e) * k) <= 2 ^ (- e) /\
       (2 * ((Zpos m * 10 ^ 4) mod 2 ^ (- e)) = 2 ^ (- e) -> Z.even k = true) /\
       F64.py_round 4 x =
         match k with
         | Zpos p => F64.of_ratio s p (Z.to_pos (10 ^ 4))
         | _ => F64.signed_zero s
         end) /\
  F64.np_round 2 0.125 = 0.12%float /\
  ((0.025 * 100 = 2.5)%float /\ F64.np_round 2 0.025 = 0.02%float) /\
  F64.py_round 4 0.03125 = 0.0312%float /\
  F64.py_round 4 0.00025 = 0.0003%float.
Proof.
  split; [apply finalize_table_returns|]. split; [|split; [|split]].
  - intros rows Hrows r Hr.
    destruct (finalize_table_rows _ _ _ _ _ _ Hrows r Hr)
      as (Hs & _ & Hc & Hp & Ht).
    split; [exact Hs|]. split; [rewrite Hp, Hc; reflexivity|].
    intros Hpos. rewrite Ht. rewrite bool_decide_eq_true_2 by exact Hpos.
    reflexivity.
  - intros x. reflexivity.
  - apply rounding_nearest_even.
  - repeat split; vm_compute; reflexivity.
Qed.

(** On a line whose quotient is the tie 1/32 = 0.03125. *)
Lemma finalize_table_rounding_witness :
  int64_safe [mkItem "Z" 32 0 0 "invoice.json"] /\
  exists rows r,
    finalize_table stable_backend [mkItem "Z" 32 0 0 "invoice.json"] 1 ["Z"]
      (Some {["Z" := 1%float]}) = Ok rows /\
    r ∈ rows /\ 0 < Num_de_hastes r /\
    Total r = F64.py_round 4 0.03125 /\
    Prim2SF 0.03125 = S754_finite false 4503599627370496 (-57) /\
    F64.rne_div (4503599627370496 * 10 ^ 4) (2 ^ 57) = 312 /\
    2 * ((4503599627370496 * 10 ^ 4) mod 2 ^ 57) = 2 ^ 57 /\
    F64.py_round 4 0.03125 = F64.of_ratio false 312 10000.
Proof.
  split; [reflexivity|].
  destruct (finalize_table_rounding stable_backend
              [mkItem "Z" 32 0 0 "invoice.json"] 1 ["Z"]
              (Some {["Z" := 1%float]}))
    as (_ & Hfields & _ & _).
  assert (Heq : finalize_table stable_backend
                  [mkItem "Z" 32 0 0 "invoice.json"] 1 ["Z"]
                  (Some {["Z" := 1%float]}) =
                Ok [mkFinalRow "Z" 32 0 1 0 1 0.0312])
    by (vm_compute; reflexivity).
  assert (Hin : mkFinalRow "Z" 32 0 1 0 1 0.0312 ∈ [mkFinalRow "Z" 32 0 1 0 1 0.0312])
    by left.
  assert (Hx : Prim2SF 0.03125 = S754_finite false 4503599627370496 (-57))
    by (vm_compute; reflexivity).
  assert (Htie : 2 * ((4503599627370496 * 10 ^ 4) mod 2 ^ 57) = 2 ^ 57)
    by (vm_compute; reflexivity).
  destruct (Hfields _ Heq _ Hin) as (_ & _ & Htotal).
  exists [mkFinalRow "Z" 32 0 1 0 1 0.0312], (mkFinalRow "Z" 32 0 1 0 1 0.0312).
  split; [exact Heq|]. split; [exact Hin|]. split; [cbn; lia|].
  split; [rewrite (Htotal ltac:(cbn; lia)); vm_compute; reflexivity|].
  split; [exact Hx|]. split; [vm_compute; reflexivity|]. split; [exact Htie|].
  vm_compute. reflexivity.
Defined.

(** C4 fails as stated. A float sum of exactly 0.125 gives the subtotal
    0.12, and a quotient of exactly 1/32 = 0.03125 gives the total 0.0312,
    where rounding half up gives 0.13 and 0.0313. *)
Lemma finalize_table_half_up_counterexample :
  frame_subtotal stable_backend
    [mkItem "A" 1 0.125 0.125 "invoice.json"; mkItem "Z" 32 0 0 "invoice.json"]
    "A" = 0.125%float /\
  (1 / 32 = 0.03125)%float /\
  finalize_table stable_backend
    [mkItem "A" 1 0.125 0.125 "invoice.json"; mkItem "Z" 32 0 0 "invoice.json"]
    1 ["A"; "Z"] (Some {["Z" := 1%float]}) =
  Ok [mkFinalRow "A" 1 0.12 1 0.12 0 0.12; mkFinalRow "Z" 32 0 1 0 1 0.0312] /\
  spec_round_half_up 2 0.125 = 0.13%float /\
  spec_round_half_up 4 0.03125 = 0.0313%float /\
  (0.12 =? 0.13)%float = false /\
  (0.0312 =? 0.0313)%float = false.
Proof. repeat split; vm_compute; reflexivity. Qed.

(** The same two roundings under every layer that meets the contract: a
    group of one item worth 0.125, and a group of one item worth 1.0 with
    32 stems. *)
Example half_even_every_backend (B : Backend) :
  finalize_table B
    [mkItem "A" 1 0.125 0.125 "invoice.json"; mkItem "Z" 32 0.03125 1 "invoice.json"]
    1 ["A"; "Z"] None =
  Ok [mkFinalRow "A" 1 0.12 1 0.12 0 0.12; mkFinalRow "Z" 32 1 1 1 0 0.0312].
Proof.
  set (items := [mkItem "A" 1 0.125 0.125 "invoice.json";
                 mkItem "Z" 32 0.03125 1 "invoice.json"]).
  assert (HA : sum_value_usd B items "A" = 0.125%float).
  { eapply (sum_value_usd_single B _ "A" (mkItem "A" 1 0.125 0.125 "invoice.json"));
      [reflexivity|].
    cbn [value_usd]. vm_compute. reflexivity. }
  assert (HZ : sum_value_usd B items "Z" = 1%float).
  { eapply (sum_value_usd_single B _ "Z" (mkItem "Z" 32 0.03125 1 "invoice.json"));
      [reflexivity|].
    cbn [value_usd]. vm_compute. reflexivity. }
  rewrite finalize_table_eq by reflexivity.
  assert (Hg : unsorted_frame B (group_stems items) items ["A"; "Z"] =
               [mkGroupRow "A" 1 0.125; mkGroupRow "Z" 32 1]).
  { transitivity
      [mkGroupRow "A" 1 (sum_value_usd B items "A");
       mkGroupRow "Z" 32 (sum_value_usd B items "Z")]; [reflexivity|].
    rewrite HA, HZ. reflexivity. }
  rewrite Hg, sort_values_id.
  - reflexivity.
  - apply (bool_decide_unpack _). vm_compute. exact I.
  - apply (bool_decide_unpack _). vm_compute. exact I.
Qed.

(** ** Changing the rate only *)

Lemma map_row_of_rate_free {X} (f : FinalRow -> X) cot1 cot2 ops g :
  (forall r, f (row_of cot1 ops r) = f (row_of cot2 ops r)) ->
  map f (map (row_of cot1 ops) g) = map f (map (row_of cot2 ops) g).
Proof. intros Hf. rewrite !map_map. apply map_ext, Hf. Qed.

(** C6, as the code has it. Two calls that differ in the rate only both
    return when the stem counts are [int64_safe], and whenever both return,
    the two tables have the same lines in the same order, equal in product,
    stems, subtotal and operational cost; the rate column, the price and the
    total per stem of each table are recomputed from its own rate. *)
Theorem finalize_table_rate_change
    (B : Backend) (items : list Item) (rate1 rate2 : float)
    (produtos : list string) (ops_costs_map : option (gmap string float)) :
  (int64_safe items ->
   exists rows1 rows2,
     finalize_table B items rate1 produtos ops_costs_map = Ok rows1 /\
     finalize_table B items rate2 produtos ops_costs_map = Ok rows2) /\
  forall rows1 rows2,
    finalize_table B items rate1 produtos ops_costs_map = Ok rows1 ->
    finalize_table B items rate2 produtos ops_costs_map = Ok rows2 ->
    map Produto rows1 = map Produto rows2 /\
    map Num_de_hastes rows1 = map Num_de_hastes rows2 /\
    map Subtotal_do_invoice rows1 = map Subtotal_do_invoice rows2 /\
    map Custos_de_operacao rows1 = map Custos_de_operacao rows2 /\
    (forall r, r ∈ rows1 -> derived_cells rate1 r) /\
    (forall r, r ∈ rows2 -> derived_cells rate2 r).
Proof.
  split.
  - intros Hsafe.
    destruct (finalize_table_returns B items rate1 produtos ops_costs_map Hsafe)
      as (rows1 & Hrows1).
    destruct (finalize_table_returns B items rate2 produtos ops_costs_map Hsafe)
      as (rows2 & Hrows2).
    eauto.
  - intros rows1 rows2 Hrows1 Hrows2.
    pose proof (finalize_table_rows _ _ _ _ _ _ Hrows1) as Hspec1.
    pose proof (finalize_table_rows _ _ _ _ _ _ Hrows2) as Hspec2.
    apply finalize_table_inv in Hrows1 as (h1 & Hh1 & ->).
    apply finalize_table_inv in Hrows2 as (h2 & Hh2 & ->).
    rewrite Hh1 in Hh2. injection Hh2 as <-.
    split; [apply map_row_of_rate_free; reflexivity|].
    split; [apply map_row_of_rate_free; reflexivity|].
    split; [apply map_row_of_rate_free; reflexivity|].
    split; [apply map_row_of_rate_free; reflexivity|].
    split; intros r Hr; [apply (Hspec1 r Hr)|apply (Hspec2 r Hr)].
Qed.

(** On the worked example, at the rates 5.0 and 6.0. *)
Lemma finalize_table_rate_change_witness :
  int64_safe [mkItem "A" 100 0.5 50 "invoice.json"] /\
  exists rows1 rows2,
    finalize_table stable_backend [mkItem "A" 100 0.5 50 "invoice.json"] 5
      ["A"; "B"] (Some ∅) = Ok rows1 /\
    finalize_table stable_backend [mkItem "A" 100 0.5 50 "invoice.json"] 6
      ["A"; "B"] (Some ∅) = Ok rows2 /\
    map Produto rows1 = map Produto rows2 /\
    map Num_de_hastes rows1 = map Num_de_hastes rows2 /\
    map Subtotal_do_invoice rows1 = map Subtotal_do_invoice rows2 /\
    map Custos_de_operacao rows1 = map Custos_de_operacao rows2 /\
    (forall r, r ∈ rows1 -> derived_cells 5 r) /\
    (forall r, r ∈ rows2 -> derived_cells 6 r).
Proof.
  assert (Hsafe : int64_safe [mkItem "A" 100 0.5 50 "invoice.json"])
    by reflexivity.
  split; [exact Hsafe|].
  destruct (finalize_table_rate_change stable_backend
              [mkItem "A" 100 0.5 50 "invoice.json"] 5 6 ["A"; "B"] (Some ∅))
    as (Hret & Hall).
  destruct (Hret Hsafe) as (rows1 & rows2 & Hrows1 & Hrows2).
  exists rows1, rows2. split; [exact Hrows1|]. split; [exact Hrows2|].
  exact (Hall rows1 rows2 Hrows1 Hrows2).
Defined.

(** C6 fails as stated. In the worked example the line of B has the price
    0.0 and the total 0.0 at the rate 5.0 and at the rate 6.0. *)
Lemma finalize_table_rate_change_counterexample :
  finalize_table stable_backend [mkItem "A" 100 0.5 50 "invoice.json"] 5
    ["A"; "B"] (Some ∅) =
  Ok [mkFinalRow "A" 100 50 5 250 0 2.5; mkFinalRow "B" 0 0 5 0 0 0] /\
  finalize_table stable_backend [mkItem "A" 100 0.5 50 "invoice.json"] 6
    ["A"; "B"] (Some ∅) =
  Ok [mkFinalRow "A" 100 50 6 300 0 3; mkFinalRow "B" 0 0 6 0 0 0] /\
  (5 =? 6)%float = false /\
  Preco (mkFinalRow "B" 0 0 5 0 0 0) = Preco (mkFinalRow "B" 0 0 6 0 0 0) /\
  Total (mkFinalRow "B" 0 0 5 0 0 0) = Total (mkFinalRow "B" 0 0 6 0 0 0).
Proof. repeat split; vm_compute; reflexivity. Qed.

(** The worked example at the rate 6.0, under every layer that meets the
    contract. *)
Example rate_change_every_backend (B : Backend) :
  finalize_table B [mkItem "A" 100 0.5 50 "invoice.json"] 6 ["A"; "B"] (Some ∅) =
  Ok [mkFinalRow "A" 100 50 6 300 0 3; mkFinalRow "B" 0 0 6 0 0 0].
Proof.
  set (items := [mkItem "A" 100 0.5 50 "invoice.json"]).
  assert (Hsum : sum_value_usd B items "A" = 50%float).
  { eapply (sum_value_usd_single B _ "A" (mkItem "A" 100 0.5 50 "invoice.json"));
      [reflexivity|].
    cbn [value_usd]. vm_compute. reflexivity. }
  rewrite finalize_table_eq by reflexivity.
  assert (Hg : unsorted_frame B (group_stems items) items ["A"; "B"] =
               [mkGroupRow "A" 100 50; mkGroupRow "B" 0 0]).
  { transitivity
      [mkGroupRow "A" 100 (sum_value_usd B items "A"); mkGroupRow "B" 0 0];
      [reflexivity|].
    rewrite Hsum. reflexivity. }
  rewrite Hg, sort_values_id.
  - reflexivity.
  - apply (bool_decide_unpack _). vm_compute. exact I.
  - apply (bool_decide_unpack _). vm_compute. exact I.
Qed.

(** ** The parser *)

(** *** Trimming *)

Lemma append_String c (s t : string) : String c s +:+ t = String c (s +:+ t).
Proof. reflexivity. Qed.

Lemma append_empty (t : string) : "" +:+ t = t.
Proof. reflexivity. Qed.

Lemma lstrip_spec (s : string) :
  exists pre, s = pre +:+ Py.lstrip_with Py.isspace s /\ all_space pre /\
              head_not_space (Py.lstrip_with Py.isspace s).
Proof.
  induction s as [|c s IH].
  - exists "". repeat split.
  - cbn [Py.lstrip_with]. destruct (Py.isspace c) eqn:Hc.
    + destruct IH as (pre & Heq & Hpre & Hhead).
      exists (String c pre). split; [|split; [split|]; assumption].
      rewrite append_String. f_equal. exact Heq.
    + exists "". repeat split. exact Hc.
Qed.

Lemma rstrip_spec (s : string) :
  exists suf, s = Py.rstrip_with Py.isspace s +:+ suf /\ all_space suf /\
              last_not_space (Py.rstrip_with Py.isspace s) /\
              (head_not_space s -> head_not_space (Py.rstrip_with Py.isspace s)).
Proof.
  induction s as [|c s IH].
  - exists "". repeat split.
  - destruct IH as (suf & Heq & Hsuf & Hlast & _).
    cbn [Py.rstrip_with].
    destruct (Py.rstrip_with Py.isspace s) as [|d r] eqn:Hr.
    + destruct (Py.isspace c) eqn:Hc.
      * exists (String c suf). rewrite append_empty in Heq |- *.
        split; [f_equal; exact Heq|]. split; [split; assumption|].
        split; [exact I|]. cbn. intros Hh. congruence.
      * exists suf. rewrite append_empty in Heq. rewrite append_String, append_empty.
        split; [f_equal; exact Heq|]. split; [exact Hsuf|].
        split; [exact Hc|]. cbn. auto.
    + exists suf. rewrite append_String.
      split; [f_equal; exact Heq|]. split; [exact Hsuf|].
      split; [exact Hlast|]. cbn. auto.
Qed.

(** [strip] removes blanks at both ends, and nothing else. *)
Lemma strip_spec (s : string) :
  exists pre suf,
    s = pre +:+ Py.strip s +:+ suf /\ all_space pre /\ all_space suf /\
    head_not_space (Py.strip s) /\ last_not_space (Py.strip s).
Proof.
  destruct (lstrip_spec s) as (pre & Heq & Hpre & Hhead).
  destruct (rstrip_spec (Py.lstrip_with Py.isspace s))
    as (suf & Heq' & Hsuf & Hlast & Hkeep).
  exists pre, suf. unfold Py.strip, Py.strip_with.
  rewrite <- Heq', <- Heq. repeat split; auto.
Qed.

(** *** The numeric parsers *)

Section ParserFacts.

Variable py_repr : pyval -> string.

Lemma _parse_int_total (v : pyval) : exists n, _parse_int py_repr v = Ok n.
Proof. unfold _parse_int. apply try_except_Ok, try_except_Ok. eauto. Qed.

Lemma _parse_float_total (v : pyval) : exists x, _parse_float py_repr v = Ok x.
Proof. unfold _parse_float. apply try_except_Ok, try_except_Ok. eauto. Qed.

Lemma _parse_int_failure (v : pyval) :
  fails (Py.int_of_str (Py.strip (py_str py_repr v))) ->
  fails (f ← Py.float_of_str (Py.strip (Py.replace "," "." (py_str py_repr v)));
         Py.int_of_float f) ->
  _parse_int py_repr v = Ok 0.
Proof. intros [e1 H1] [e2 H2]. unfold _parse_int. rewrite H1, H2. reflexivity. Qed.

Lemma _parse_float_failure (v : pyval) :
  fails (Py.float_of_str (Py.strip (Py.replace "," "." (py_str py_repr v)))) ->
  fails (Py.float v) ->
  _parse_float py_repr v = Ok 0%float.
Proof. intros [e1 H1] [e2 H2]. unfold _parse_float. rewrite H1, H2. reflexivity. Qed.

End ParserFacts.

(** C9. Both numeric parsers return for every value; when neither of its
    two conversions succeeds, [_parse_int] returns 0 and [_parse_float]
    returns 0.0. *)
Theorem parse_numbers_never_raise (py_repr : pyval -> string) (v : pyval) :
  (exists n, _parse_int py_repr v = Ok n /\
     (fails (Py.int_of_str (Py.strip (py_str py_repr v))) ->
      fails (f ← Py.float_of_str
                   (Py.strip (Py.replace "," "." (py_str py_repr v)));
             Py.int_of_float f) ->
      n = 0)) /\
  (exists x, _parse_float py_repr v = Ok x /\
     (fails (Py.float_of_str
               (Py.strip (Py.replace "," "." (py_str py_repr v)))) ->
      fails (Py.float v) ->
      x = 0%float)).
Proof.
  split.
  - destruct (_parse_int_total py_repr v) as [n Hn]. exists n.
    split; [exact Hn|]. intros H1 H2.
    rewrite (_parse_int_failure py_repr v H1 H2) in Hn. congruence.
  - destruct (_parse_float_total py_repr v) as [x Hx]. exists x.
    split; [exact Hx|]. intros H1 H2.
    rewrite (_parse_float_failure py_repr v H1 H2) in Hx. congruence.
Qed.

(** The parsers at work. [repr] plays no part on these values. *)
Example _parse_int_examples (py_repr : pyval -> string) :
  _parse_int py_repr (PInt 25) = Ok 25 /\
  _parse_int py_repr (PStr " 12 ") = Ok 12 /\
  _parse_int py_repr (PStr "1_000") = Ok 1000 /\
  _parse_int py_repr (PStr "1,5") = Ok 1 /\
  _parse_int py_repr (PStr "-2.7") = Ok (-2) /\
  _parse_int py_repr (PStr "1.234,5") = Ok 0 /\
  _parse_int py_repr (PStr "abc") = Ok 0 /\
  _parse_int py_repr (PStr "inf") = Ok 0 /\
  _parse_int py_repr (PStr "") = Ok 0 /\
  _parse_int py_repr PNone = Ok 0 /\
  _parse_int py_repr (PBool true) = Ok 0.
Proof. repeat split; vm_compute; reflexivity. Qed.

Example _parse_float_examples (py_repr : pyval -> string) :
  _parse_float py_repr (PStr "0,35") = Ok 0.35%float /\
  _parse_float py_repr (PStr "0.35") = Ok 0.35%float /\
  _parse_float py_repr (PStr " 1e3 ") = Ok 1000%float /\
  _parse_float py_repr (PInt 3) = Ok 3%float /\
  _parse_float py_repr (PStr "1.234,5") = Ok 0%float /\
  _parse_float py_repr (PStr "abc") = Ok 0%float /\
  _parse_float py_repr PNone = Ok 0%float /\
  _parse_float py_repr (PBool true) = Ok 1%float.
Proof. repeat split; vm_compute; reflexivity. Qed.

(** On the text abc, which neither conversion accepts. *)
Lemma parse_numbers_never_raise_witness :
  fails (Py.int_of_str (Py.strip (py_str (fun _ => "") (PStr "abc")))) /\
  fails (f ← Py.float_of_str
               (Py.strip (Py.replace "," "." (py_str (fun _ => "") (PStr "abc"))));
         Py.int_of_float f) /\
  fails (Py.float_of_str
           (Py.strip (Py.replace "," "." (py_str (fun _ => "") (PStr "abc"))))) /\
  fails (Py.float (PStr "abc")) /\
  _parse_int (fun _ => "") (PStr "abc") = Ok 0 /\
  _parse_float (fun _ => "") (PStr "abc") = Ok 0%float.
Proof.
  assert (H1 : fails (Py.int_of_str (Py.strip (py_str (fun _ => "") (PStr "abc")))))
    by (eexists; vm_compute; reflexivity).
  assert (H2 : fails (f ← Py.float_of_str
               (Py.strip (Py.replace "," "." (py_str (fun _ => "") (PStr "abc"))));
             Py.int_of_float f))
    by (eexists; vm_compute; reflexivity).
  assert (H3 : fails (Py.float_of_str
           (Py.strip (Py.replace "," "." (py_str (fun _ => "") (PStr "abc"))))))
    by (eexists; vm_compute; reflexivity).
  assert (H4 : fails (Py.float (PStr "abc")))
    by (eexists; vm_compute; reflexivity).
  destruct (parse_numbers_never_raise (fun _ => "") (PStr "abc"))
    as [(n & Hn & Hn0) (x & Hx & Hx0)].
  rewrite (Hn0 H1 H2) in Hn. rewrite (Hx0 H3 H4) in Hx.
  repeat split; assumption.
Defined.

(** *** The lookup *)

(** C8. A null identifier gives null and the default is not applied; any
    other identifier is converted to text, trimmed ([strip_spec]) and looked
    up as it is in the rule map: the mapped product on a hit, the default
    product on a miss. *)
Theorem map_product_resolve (py_repr : pyval -> string)
    (self : FloresPrismaJSON) :
  _map_product py_repr self PNone = None /\
  (forall s, py_str py_repr (PStr s) = s) /\
  (forall v c, v <> PNone ->
     depara_map self !! Py.strip (py_str py_repr v) = Some c ->
     _map_product py_repr self v = Some c) /\
  (forall v, v <> PNone ->
     depara_map self !! Py.strip (py_str py_repr v) = None ->
     _map_product py_repr self v = Some (_default self)) /\
  (forall s, exists pre suf,
     s = pre +:+ Py.strip s +:+ suf /\ all_space pre /\ all_space suf /\
     head_not_space (Py.strip s) /\ last_not_space (Py.strip s)).
Proof.
  split; [reflexivity|]. split; [reflexivity|]. split; [|split].
  - intros v c Hv Hc.
    destruct v; try congruence; unfold _map_product; cbv zeta; rewrite Hc;
      reflexivity.
  - intros v Hv Hc.
    destruct v; try congruence; unfold _map_product; cbv zeta; rewrite Hc;
      reflexivity.
  - apply strip_spec.
Qed.

(** A hit after trimming, a miss, and a null identifier. *)
Lemma map_product_resolve_witness :
  PStr "  ROSA VERMELHA " <> PNone /\ PStr "CRAVO" <> PNone /\
  _map_product (fun _ => "")
    (mkParser {["ROSA VERMELHA" := "Freedom 60"]} "Coloridas")
    (PStr "  ROSA VERMELHA ") = Some "Freedom 60" /\
  _map_product (fun _ => "")
    (mkParser {["ROSA VERMELHA" := "Freedom 60"]} "Coloridas")
    (PStr "CRAVO") = Some "Coloridas" /\
  _map_product (fun _ => "")
    (mkParser {["ROSA VERMELHA" := "Freedom 60"]} "Coloridas")
    PNone = None.
Proof.
  destruct (map_product_resolve (fun _ => "")
              (mkParser {["ROSA VERMELHA" := "Freedom 60"]} "Coloridas"))
    as (Hnull & _ & Hhit & Hmiss & _).
  assert (H1 : PStr "  ROSA VERMELHA " <> PNone) by discriminate.
  assert (H2 : PStr "CRAVO" <> PNone) by discriminate.
  split; [exact H1|]. split; [exact H2|]. split; [|split].
  - apply (Hhit _ _ H1). vm_compute. reflexivity.
  - apply (Hmiss _ H2). vm_compute. reflexivity.
  - exact Hnull.
Defined.

(** *** The bunch count *)

Lemma falsy_values :
  Py.truthy PNone = false /\ Py.truthy (PInt 0) = false /\
  Py.truthy (PStr "") = false /\ Py.truthy (PBool false) = false /\
  Py.truthy (PFloat 0) = false /\ Py.truthy (PList []) = false /\
  Py.truthy (PDict []) = false /\
  (forall l, Py.assoc "nu_bunches" l = None ->
     Py.get (PDict l) "nu_bunches" PNone = Ok PNone).
Proof.
  repeat split; try reflexivity. intros l Hl. cbn. rewrite Hl. reflexivity.
Qed.

Lemma _parse_int_one (py_repr : pyval -> string) :
  _parse_int py_repr (PInt 1) = Ok 1.
Proof. reflexivity. Qed.

(** C10. When the [nu_bunches] entry of a product is absent or falsy, the
    bunch count parsed is that of the literal 1, which is 1, and the item
    emitted for a product whose identifier is not null has
    [stems = stems_per_bunch]. (No item is emitted when the stem count is
    too large to be converted to a float for [value].) *)
Theorem parse_product_falsy_bunches (py_repr : pyval -> string)
    (self : FloresPrismaJSON) (source : string) (p nb nm : pyval)
    (product : string) :
  Py.get p "nu_bunches" PNone = Ok nb ->
  Py.truthy nb = false ->
  Py.get p "nm_product" PNone = Ok nm ->
  _map_product py_repr self nm = Some product ->
  exists spb_field stems_per_bunch rate_field rate,
    Py.or_ nb (PInt 1) = PInt 1 /\
    _parse_int py_repr (Py.or_ nb (PInt 1)) = Ok 1 /\
    Py.get p "nu_stems_bunch" PNone = Ok spb_field /\
    _parse_int py_repr spb_field = Ok stems_per_bunch /\
    Py.get p "mny_rate_stem" PNone = Ok rate_field /\
    _parse_float py_repr rate_field = Ok rate /\
    parse_product py_repr self source p =
      (fstems ← Py.float_of_int stems_per_bunch;
       Ok (Some (mkItem product stems_per_bunch rate (fstems * rate) source))).
Proof.
  intros Hnb Hfalsy Hnm Hprod.
  destruct p as [| | | | |l|l]; try discriminate.
  cbn [Py.get] in Hnb, Hnm. injection Hnb as Hnb. injection Hnm as Hnm.
  destruct (_parse_int_total py_repr (default PNone (Py.assoc "nu_stems_bunch" l)))
    as [spb Hspb].
  destruct (_parse_float_total py_repr (default PNone (Py.assoc "mny_rate_stem" l)))
    as [rate Hrate].
  assert (Hor : Py.or_ nb (PInt 1) = PInt 1)
    by (unfold Py.or_; rewrite Hfalsy; reflexivity).
  exists (default PNone (Py.assoc "nu_stems_bunch" l)), spb,
         (default PNone (Py.assoc "mny_rate_stem" l)), rate.
  split; [exact Hor|]. split; [rewrite Hor; apply _parse_int_one|].
  split; [reflexivity|]. split; [exact Hspb|].
  split; [reflexivity|]. split; [exact Hrate|].
  unfold parse_product. cbn [Py.get mbind result_bind].
  rewrite Hnm, Hprod, Hspb. cbn [mbind result_bind].
  rewrite Hnb, Hor, _parse_int_one. cbn [mbind result_bind].
  rewrite Hrate. cbn [mbind result_bind]. rewrite Z.mul_1_r. reflexivity.
Qed.

(** On a product line whose bunch count is 0. *)
Lemma parse_product_falsy_bunches_witness :
  let p := PDict [("nm_product", PStr "ROSA VERMELHA");
                  ("nu_stems_bunch", PStr "25");
                  ("nu_bunches", PInt 0);
                  ("mny_rate_stem", PStr "0,5")] in
  let self := mkParser {["ROSA VERMELHA" := "Freedom 60"]} "Coloridas" in
  Py.get p "nu_bunches" PNone = Ok (PInt 0) /\
  Py.truthy (PInt 0) = false /\
  Py.get p "nm_product" PNone = Ok (PStr "ROSA VERMELHA") /\
  _map_product (fun _ => "") self (PStr "ROSA VERMELHA") = Some "Freedom 60" /\
  parse_product (fun _ => "") self "invoice.json" p =
    Ok (Some (mkItem "Freedom 60" 25 0.5 12.5 "invoice.json")).
Proof.
  intros p self.
  assert (H1 : Py.get p "nu_bunches" PNone = Ok (PInt 0)) by reflexivity.
  assert (H2 : Py.truthy (PInt 0) = false) by reflexivity.
  assert (H3 : Py.get p "nm_product" PNone = Ok (PStr "ROSA VERMELHA"))
    by reflexivity.
  assert (H4 : _map_product (fun _ => "") self (PStr "ROSA VERMELHA")
               = Some "Freedom 60") by (vm_compute; reflexivity).
  split; [exact H1|]. split; [exact H2|]. split; [exact H3|]. split; [exact H4|].
  destruct (parse_product_falsy_bunches (fun _ => "") self "invoice.json" p
              (PInt 0) (PStr "ROSA VERMELHA") "Freedom 60" H1 H2 H3 H4)
    as (f1 & spb & f2 & rate & _ & _ & Hf1 & Hspb & Hf2 & Hrate & Hitem).
  injection Hf1 as <-. injection Hf2 as <-.
  assert (Hs : spb = 25) by (vm_compute in Hspb; congruence).
  assert (Hr : rate = 0.5%float) by (vm_compute in Hrate; congruence).
  rewrite Hitem, Hs, Hr. vm_compute. reflexivity.
Defined.

(** A whole document: the bunch count absent, null, 0 and empty, then a
    line with a null identifier, which is skipped, and a count given as
    text. *)
Example parse_example (py_repr : pyval -> string) :
  let line nm extra :=
    PDict ([("nm_product", nm); ("nu_stems_bunch", PInt 25);
            ("mny_rate_stem", PStr "0,5")] ++ extra) in
  parse py_repr (mkParser {["ROSA" := "Freedom 60"]} "Coloridas")
    (PDict [("invoices",
       PList [PDict [("boxes",
         PList [PDict [("products",
                  PList [line (PStr "ROSA") [];
                         line (PStr "ROSA") [("nu_bunches", PNone)];
                         line (PStr "CRAVO") [("nu_bunches", PInt 0)];
                         line (PStr "CRAVO") [("nu_bunches", PStr "")]])];
                PDict [("products",
                  PList [line PNone [("nu_bunches", PInt 4)];
                         line (PStr " ROSA ") [("nu_bunches", PStr "4")]])]])]])])
    "invoice.json" =
  Ok [mkItem "Freedom 60" 25 0.5 12.5 "invoice.json";
      mkItem "Freedom 60" 25 0.5 12.5 "invoice.json";
      mkItem "Coloridas" 25 0.5 12.5 "invoice.json";
      mkItem "Coloridas" 25 0.5 12.5 "invoice.json";
      mkItem "Freedom 60" 100 0.5 50 "invoice.json"].
Proof. vm_compute. reflexivity. Qed.

(** *** The loops of [parse] *)

Lemma omap_id_cons {A} (o : option A) (os : list (option A)) :
  omap id (o :: os) = option_list o ++ omap id os.
Proof. destruct o; reflexivity. Qed.

(** The inner loop appends, in order, the items of the lines that are not
    skipped, and stops at the first line that raises. *)
Lemma parse_products_spec (py_repr : pyval -> string)
    (self : FloresPrismaJSON) (source : string) (ps : list pyval)
    (out : list Item) :
  parse_products py_repr self source ps out =
  (os ← mapM (parse_product py_repr self source) ps; Ok (out ++ omap id os)).
Proof.
  revert out. induction ps as [|p ps IH]; intros out.
  - cbn. rewrite app_nil_r. reflexivity.
  - cbn [parse_products mapM].
    destruct (parse_product py_repr self source p) as [o|e]; [|reflexivity].
    cbn [mbind result_bind]. rewrite IH.
    destruct (mapM (parse_product py_repr self source) ps) as [os|e];
      [|reflexivity].
    cbn [mbind result_bind mret result_ret].
    rewrite omap_id_cons, app_assoc. reflexivity.
Qed.

Lemma omap_id_app {A} (l1 l2 : list (option A)) :
  omap id (l1 ++ l2) = omap id l1 ++ omap id l2.
Proof.
  induction l1 as [|o l1 IH]; [reflexivity|].
  cbn [app]. rewrite !omap_id_cons, IH, app_assoc. reflexivity.
Qed.

Lemma parse_boxes_cons (py_repr : pyval -> string)
    (self : FloresPrismaJSON) (source : string) (box : pyval)
    (boxes : list pyval) (out : list Item) :
  parse_boxes py_repr self source (box :: boxes) out =
  (os ← parse_box py_repr self source box;
   parse_boxes py_repr self source boxes (out ++ omap id os)).
Proof.
  cbn [parse_boxes]. unfold parse_box.
  destruct (Py.get box "products" (PList []) ≫= Py.iter) as [ps|e];
    [|reflexivity].
  cbn [mbind result_bind]. rewrite parse_products_spec.
  destruct (mapM (parse_product py_repr self source) ps) as [os|e];
    reflexivity.
Qed.

Lemma parse_boxes_spec (py_repr : pyval -> string)
    (self : FloresPrismaJSON) (source : string) (boxes : list pyval)
    (out : list Item) :
  parse_boxes py_repr self source boxes out =
  (oss ← mapM (parse_box py_repr self source) boxes;
   Ok (out ++ omap id (concat oss))).
Proof.
  revert out. induction boxes as [|box boxes IH]; intros out.
  - cbn. rewrite app_nil_r. reflexivity.
  - rewrite parse_boxes_cons. cbn [mapM].
    destruct (parse_box py_repr self source box) as [os|e]; [|reflexivity].
    cbn [mbind result_bind]. rewrite IH.
    destruct (mapM (parse_box py_repr self source) boxes) as [oss|e];
      [|reflexivity].
    cbn [mbind result_bind mret result_ret concat].
    rewrite omap_id_app, app_assoc. reflexivity.
Qed.

(** A document without invoices gives no item. *)
Lemma parse_no_invoice (py_repr : pyval -> string) (self : FloresPrismaJSON)
    (source : string) (l : list (string * pyval)) :
  Py.truthy (default (PList []) (Py.assoc "invoices" l)) = false ->
  parse py_repr self (PDict l) source = Ok [].
Proof. intros H. unfold parse. cbn [Py.get mbind result_bind]. rewrite H. reflexivity. Qed.

(** Otherwise the items are those of the product lines of the boxes of the
    first invoice, in order. *)
Lemma parse_spec (py_repr : pyval -> string) (self : FloresPrismaJSON)
    (source : string) (l : list (string * pyval)) :
  Py.truthy (default (PList []) (Py.assoc "invoices" l)) = true ->
  parse py_repr self (PDict l) source =
  (inv ← Py.getitem0 (default (PList []) (Py.assoc "invoices" l));
   boxes ← (Py.get inv "boxes" (PList []) ≫= Py.iter);
   oss ← mapM (parse_box py_repr self source) boxes;
   Ok (omap id (concat oss))).
Proof.
  intros H. unfold parse. cbn [Py.get mbind result_bind]. rewrite H.
  cbn [negb].
  destruct (Py.getitem0 _) as [inv|e]; [|reflexivity].
  cbn [mbind result_bind].
  destruct (Py.get inv "boxes" (PList []) ≫= Py.iter) as [boxes|e];
    [|reflexivity].
  cbn [mbind result_bind]. apply parse_boxes_spec.
Qed.

(** A line whose identifier is null is skipped. *)
Lemma parse_product_null (py_repr : pyval -> string)
    (self : FloresPrismaJSON) (source : string) (l : list (string * pyval)) :
  default PNone (Py.assoc "nm_product" l) = PNone ->
  parse_product py_repr self source (PDict l) = Ok None.
Proof.
  intros H. unfold parse_product. cbn [Py.get mbind result_bind].
  rewrite H. reflexivity.
Qed.

(** * Further properties of [finalize_table] *)

(** ** The table, line by line *)

Lemma row_of_line_of B items cotacao ops_costs_map produtos r :
  r ∈ unsorted_frame B (group_stems items) items produtos ->
  row_of (float_or_zero cotacao) (default ∅ ops_costs_map) r =
  line_of B items cotacao ops_costs_map (g_Produto r).
Proof.
  intros Hr.
  destruct (unsorted_frame_row B _ items produtos r Hr) as [Hsub Hst].
  assert (Hst' : total_stems r = group_stems items (g_Produto r)).
  { rewrite Hst. destruct (decide (g_Produto r ∈ group_keys items)) as [Hk|Hk];
      [reflexivity|]. symmetry. apply group_stems_absent, Hk. }
  unfold row_of, line_of. cbv zeta. rewrite <- Hst', <- Hsub. reflexivity.
Qed.

(** With stem counts that are [int64_safe], every line of the table is
    [line_of] of its product. *)
Lemma finalize_table_lines B items cotacao produtos ops_costs_map :
  int64_safe items ->
  finalize_table B items cotacao produtos ops_costs_map =
  Ok (map (line_of B items cotacao ops_costs_map)
          (sorted_products B items produtos)).
Proof.
  intros Hsafe. rewrite finalize_table_eq by exact Hsafe. f_equal.
  unfold sorted_products. rewrite map_map.
  apply map_ext_in. intros r Hr. apply (row_of_line_of _ _ _ _ produtos).
  apply list_elem_of_In in Hr. rewrite sort_values_perm in Hr. exact Hr.
Qed.

(** When every item carries a name of the catalogue and the catalogue has
    no duplicate, the product column is the catalogue whatever the backend
    does with equal keys, and whatever the length of the catalogue. *)
Lemma sorted_products_well_formed B items c :
  NoDup c -> (forall it, it ∈ items -> product it ∈ c) ->
  sorted_products B items c = c.
Proof.
  intros Hnd Hin. apply (sorted_perm_unique (ord_key c)).
  - apply NoDup_Permutation.
    + apply sorted_products_NoDup, Hnd.
    + exact Hnd.
    + intros p. rewrite elem_of_sorted_products, elem_of_group_keys.
      split; [|tauto]. intros [(it & Hit & <-)|Hp]; auto.
  - rewrite map_ord_key_NoDup by exact Hnd. apply NoDup_of_nat_seq.
  - apply sorted_products_sorted.
  - rewrite map_ord_key_NoDup by exact Hnd. apply Sorted_of_nat_seq.
Qed.

(** X1. For a catalogue without duplicates that holds the product of every
    item, and stem counts that are [int64_safe], the call returns one line
    per catalogue name, in catalogue order: the stems of the name added up,
    the float sum the frame has for the name rounded once, and the cells
    derived from them. The order the sort gives to equal keys and the length
    of the catalogue play no part. *)
Theorem finalize_table_well_formed
    (B : Backend) (items : list Item) (cotacao : float)
    (produtos : list string) (ops_costs_map : option (gmap string float)) :
  NoDup produtos ->
  (forall it, it ∈ items -> product it ∈ produtos) ->
  int64_safe items ->
  finalize_table B items cotacao produtos ops_costs_map =
  Ok (map (line_of B items cotacao ops_costs_map) produtos).
Proof.
  intros Hnd Hin Hsafe. rewrite finalize_table_lines by exact Hsafe.
  rewrite sorted_products_well_formed by assumption. reflexivity.
Qed.

(** Two items of two catalogue names, given against catalogue order. *)
Lemma finalize_table_well_formed_witness :
  NoDup ["Freedom 60"; "Coloridas"] /\
  (forall it, it ∈ [mkItem "Coloridas" 20 1 20 "a.json";
                    mkItem "Freedom 60" 10 2 20 "a.json"] ->
              product it ∈ ["Freedom 60"; "Coloridas"]) /\
  int64_safe [mkItem "Coloridas" 20 1 20 "a.json";
              mkItem "Freedom 60" 10 2 20 "a.json"] /\
  finalize_table tie_reversing_backend
    [mkItem "Coloridas" 20 1 20 "a.json"; mkItem "Freedom 60" 10 2 20 "a.json"]
    5 ["Freedom 60"; "Coloridas"] None =
  Ok [mkFinalRow "Freedom 60" 10 20 5 100 0 10;
      mkFinalRow "Coloridas" 20 20 5 100 0 5].
Proof.
  assert (Hnd : NoDup ["Freedom 60"; "Coloridas"]).
  { apply (bool_decide_unpack _). vm_compute. exact I. }
  assert (Hin : forall it, it ∈ [mkItem "Coloridas" 20 1 20 "a.json";
                                 mkItem "Freedom 60" 10 2 20 "a.json"] ->
                           product it ∈ ["Freedom 60"; "Coloridas"]).
  { intros it Hit. apply elem_of_cons in Hit as [->|Hit]; [right; left|].
    apply elem_of_cons in Hit as [->|Hit]; [left|]. inversion Hit. }
  assert (Hsafe : int64_safe [mkItem "Coloridas" 20 1 20 "a.json";
                              mkItem "Freedom 60" 10 2 20 "a.json"])
    by reflexivity.
  split; [exact Hnd|]. split; [exact Hin|]. split; [exact Hsafe|].
  rewrite (finalize_table_well_formed tie_reversing_backend _ 5 _ None
             Hnd Hin Hsafe).
  vm_compute. reflexivity.
Defined.

(** ** Which products have a line *)

(** X2. The call returns a table when the stem counts are [int64_safe]. In
    every table it returns, a product has a line exactly when it is a name
    of the catalogue or the product of some item, and with a catalogue
    without duplicates no product has two lines. *)
Theorem finalize_table_products_exact
    (B : Backend) (items : list Item) (cotacao : float)
    (produtos : list string) (ops_costs_map : option (gmap string float)) :
  (int64_safe items ->
   exists rows, finalize_table B items cotacao produtos ops_costs_map = Ok rows) /\
  forall rows,
    finalize_table B items cotacao produtos ops_costs_map = Ok rows ->
    (forall p, p ∈ map Produto rows <->
               p ∈ produtos \/ exists it, it ∈ items /\ product it = p) /\
    (NoDup produtos -> NoDup (map Produto rows)) /\
    length rows =
      (length (group_keys items) +
       length (filter (fun p => p ∉ group_keys items) produtos))%nat.
Proof.
  split; [apply finalize_table_returns|].
  intros rows Hrows.
  pose proof (finalize_table_products _ _ _ _ _ _ Hrows) as Hprod.
  split; [|split].
  - intros p. rewrite Hprod, elem_of_sorted_products, elem_of_group_keys. tauto.
  - intros Hnd. rewrite Hprod. apply sorted_products_NoDup, Hnd.
  - rewrite <- (length_map Produto rows), Hprod.
    rewrite (Permutation_length (sorted_products_perm B items produtos)).
    apply length_app.
Qed.

Lemma finalize_table_products_exact_witness :
  int64_safe
    [mkItem "Rosas" 10 1 10 "a.json"; mkItem "Coloridas" 20 1 20 "a.json";
     mkItem "Rosas" 5 1 5 "b.json"] /\
  NoDup ["Freedom 60"; "Coloridas"] /\
  exists rows,
    finalize_table stable_backend
      [mkItem "Rosas" 10 1 10 "a.json"; mkItem "Coloridas" 20 1 20 "a.json";
       mkItem "Rosas" 5 1 5 "b.json"] 5 ["Freedom 60"; "Coloridas"] None
    = Ok rows /\
    NoDup (map Produto rows) /\ length rows = 3%nat.
Proof.
  assert (Hsafe : int64_safe
            [mkItem "Rosas" 10 1 10 "a.json"; mkItem "Coloridas" 20 1 20 "a.json";
             mkItem "Rosas" 5 1 5 "b.json"]) by reflexivity.
  assert (Hnd : NoDup ["Freedom 60"; "Coloridas"]).
  { apply (bool_decide_unpack _). vm_compute. exact I. }
  split; [exact Hsafe|]. split; [exact Hnd|].
  destruct (finalize_table_products_exact stable_backend
      [mkItem "Rosas" 10 1 10 "a.json"; mkItem "Coloridas" 20 1 20 "a.json";
       mkItem "Rosas" 5 1 5 "b.json"] 5 ["Freedom 60"; "Coloridas"] None)
    as (Hret & Hall).
  destruct (Hret Hsafe) as (rows & Hrows).
  destruct (Hall rows Hrows) as (_ & Hnodup & Hlen).
  exists rows. split; [exact Hrows|]. split; [exact (Hnodup Hnd)|].
  rewrite Hlen. vm_compute. reflexivity.
Defined.

(** ** Stems are conserved *)

Lemma Zsum_map_add {A} (g h : A -> Z) (l : list A) :
  Zsum (map (fun k => g k + h k) l) = Zsum (map g l) + Zsum (map h l).
Proof.
  induction l as [|a l IH]; [reflexivity|].
  cbn [map]. rewrite !Zsum_cons, IH. lia.
Qed.

Lemma Zsum_map_zero {A} (l : list A) : Zsum (map (fun _ => 0) l) = 0.
Proof.
  induction l as [|a l IH]; [reflexivity|]. cbn [map]. rewrite Zsum_cons, IH.
  reflexivity.
Qed.

Lemma Zsum_indicator (x : string) (v : Z) (keys : list string) :
  NoDup keys -> x ∈ keys ->
  Zsum (map (fun k => if decide (x = k) then v else 0) keys) = v.
Proof.
  induction keys as [|k keys IH]; intros Hnd Hx; [inversion Hx|].
  apply NoDup_cons in Hnd as [Hk Hnd]. cbn [map]. rewrite Zsum_cons.
  destruct (decide (x = k)) as [->|Hne].
  - rewrite (map_ext_in _ (fun _ => 0)), Zsum_map_zero; [lia|].
    intros k0 Hk0. destruct (decide (k = k0)) as [->|]; [|reflexivity].
    exfalso. apply Hk, list_elem_of_In, Hk0.
  - apply elem_of_cons in Hx as [Hx|Hx]; [congruence|].
    rewrite (IH Hnd Hx). lia.
Qed.

(** The stems of the groups add up to the stems of the items. *)
Lemma Zsum_groups (items : list Item) (keys : list string) :
  NoDup keys -> (forall it, it ∈ items -> product it ∈ keys) ->
  Zsum (map (group_stems items) keys) = Zsum (map stems items).
Proof.
  intros Hnd. induction items as [|it items IH]; intros Hin.
  - apply Zsum_map_zero.
  - rewrite (map_ext _ _ (group_stems_cons it items)), Zsum_map_add.
    rewrite (Zsum_indicator _ _ _ Hnd) by (apply Hin; left).
    rewrite IH by (intros it' H; apply Hin; right; exact H).
    reflexivity.
Qed.

Lemma line_of_stems B items cotacao ops_costs_map (keys : list string) :
  map Num_de_hastes (map (line_of B items cotacao ops_costs_map) keys) =
  map (group_stems items) keys.
Proof. rewrite map_map. apply map_ext. intros p. reflexivity. Qed.

Lemma sorted_products_items B items c it :
  it ∈ items -> product it ∈ sorted_products B items c.
Proof.
  intros Hit. apply elem_of_sorted_products. left.
  apply elem_of_group_keys. eauto.
Qed.

(** ** No stem is lost or counted twice *)

(** X3. With a catalogue without duplicates and stem counts that are
    [int64_safe], the call returns a table whose stems column adds up to
    the stems of the items. *)
Theorem finalize_table_stems_conserved
    B items cotacao produtos ops_costs_map :
  NoDup produtos ->
  int64_safe items ->
  exists rows,
    finalize_table B items cotacao produtos ops_costs_map = Ok rows /\
    Zsum (map Num_de_hastes rows) = Zsum (map stems items).
Proof.
  intros Hnd Hsafe. eexists. split; [apply finalize_table_lines, Hsafe|].
  rewrite line_of_stems.
  apply Zsum_groups; [apply sorted_products_NoDup, Hnd|].
  intros it. apply sorted_products_items.
Qed.

Lemma finalize_table_stems_conserved_witness :
  NoDup ["Freedom 60"; "Coloridas"] /\
  int64_safe [mkItem "Coloridas" 20 1 20 "a.json"; mkItem "Rosas" 7 1 7 "b.json";
              mkItem "Coloridas" 5 1 5 "b.json"] /\
  exists rows,
    finalize_table stable_backend
      [mkItem "Coloridas" 20 1 20 "a.json"; mkItem "Rosas" 7 1 7 "b.json";
       mkItem "Coloridas" 5 1 5 "b.json"]
      5 ["Freedom 60"; "Coloridas"] None = Ok rows /\
    Zsum (map Num_de_hastes rows) = 32.
Proof.
  assert (Hnd : NoDup ["Freedom 60"; "Coloridas"]).
  { apply (bool_decide_unpack _). vm_compute. exact I. }
  assert (Hsafe : int64_safe
            [mkItem "Coloridas" 20 1 20 "a.json"; mkItem "Rosas" 7 1 7 "b.json";
             mkItem "Coloridas" 5 1 5 "b.json"]) by reflexivity.
  split; [exact Hnd|]. split; [exact Hsafe|].
  exact (finalize_table_stems_conserved stable_backend
           [mkItem "Coloridas" 20 1 20 "a.json"; mkItem "Rosas" 7 1 7 "b.json";
            mkItem "Coloridas" 5 1 5 "b.json"]
           5 ["Freedom 60"; "Coloridas"] None Hnd Hsafe).
Defined.

(** ** Operating costs touch two columns only *)

Lemma Forall2_map_same {A B} (R : B -> B -> Prop) (f g : A -> B) (l : list A) :
  (forall x, R (f x) (g x)) -> Forall2 R (map f l) (map g l).
Proof.
  intros H. induction l as [|x l IH]; constructor; [apply H|exact IH].
Qed.

(** X4. Two calls that differ in the cost map only both return when the
    stem counts are [int64_safe], and whenever both return, the two tables
    have the same lines in the same order; only the cells "Custos de
    operação" and "Total" can differ, and a line whose product has the same
    entry in both maps is the same line. *)
Theorem finalize_table_costs_local
    (B : Backend) (items : list Item) (cotacao : float)
    (produtos : list string) (ops1 ops2 : option (gmap string float)) :
  (int64_safe items ->
   exists rows1 rows2,
     finalize_table B items cotacao produtos ops1 = Ok rows1 /\
     finalize_table B items cotacao produtos ops2 = Ok rows2) /\
  forall rows1 rows2,
    finalize_table B items cotacao produtos ops1 = Ok rows1 ->
    finalize_table B items cotacao produtos ops2 = Ok rows2 ->
    Forall2 (fun r1 r2 =>
               Produto r1 = Produto r2 /\
               Num_de_hastes r1 = Num_de_hastes r2 /\
               Subtotal_do_invoice r1 = Subtotal_do_invoice r2 /\
               Cotacao_do_dolar r1 = Cotacao_do_dolar r2 /\
               Preco r1 = Preco r2 /\
               (default ∅ ops1 !! Produto r1 = default ∅ ops2 !! Produto r1 ->
                r1 = r2))
            rows1 rows2.
Proof.
  split.
  - intros Hsafe.
    destruct (finalize_table_returns B items cotacao produtos ops1 Hsafe)
      as (rows1 & Hrows1).
    destruct (finalize_table_returns B items cotacao produtos ops2 Hsafe)
      as (rows2 & Hrows2).
    eauto.
  - intros rows1 rows2 Hrows1 Hrows2.
    apply finalize_table_inv in Hrows1 as (h1 & Hh1 & ->).
    apply finalize_table_inv in Hrows2 as (h2 & Hh2 & ->).
    rewrite Hh1 in Hh2. injection Hh2 as <-.
    apply Forall2_map_same. intros r. unfold row_of. cbn.
    repeat (split; [reflexivity|]). intros ->. reflexivity.
Qed.

(** On the worked example, with a cost set for B in the second call only:
    the line of A is the same line. *)
Lemma finalize_table_costs_local_witness :
  int64_safe [mkItem "A" 100 0.5 50 "invoice.json"] /\
  finalize_table stable_backend [mkItem "A" 100 0.5 50 "invoice.json"] 5
    ["A"; "B"] None =
  Ok [mkFinalRow "A" 100 50 5 250 0 2.5; mkFinalRow "B" 0 0 5 0 0 0] /\
  finalize_table stable_backend [mkItem "A" 100 0.5 50 "invoice.json"] 5
    ["A"; "B"] (Some {["B" := 25%float]}) =
  Ok [mkFinalRow "A" 100 50 5 250 0 2.5; mkFinalRow "B" 0 0 5 0 25 0] /\
  Forall2 (fun r1 r2 =>
             Produto r1 = Produto r2 /\
             Num_de_hastes r1 = Num_de_hastes r2 /\
             Subtotal_do_invoice r1 = Subtotal_do_invoice r2 /\
             Cotacao_do_dolar r1 = Cotacao_do_dolar r2 /\
             Preco r1 = Preco r2 /\
             (default (∅ : gmap string float) None !! Produto r1 =
              default (∅ : gmap string float) (Some {["B" := 25%float]})
                !! Produto r1 ->
              r1 = r2))
          [mkFinalRow "A" 100 50 5 250 0 2.5; mkFinalRow "B" 0 0 5 0 0 0]
          [mkFinalRow "A" 100 50 5 250 0 2.5; mkFinalRow "B" 0 0 5 0 25 0].
Proof.
  assert (H1 : finalize_table stable_backend
                 [mkItem "A" 100 0.5 50 "invoice.json"] 5 ["A"; "B"] None =
               Ok [mkFinalRow "A" 100 50 5 250 0 2.5; mkFinalRow "B" 0 0 5 0 0 0])
    by (vm_compute; reflexivity).
  assert (H2 : finalize_table stable_backend
                 [mkItem "A" 100 0.5 50 "invoice.json"] 5 ["A"; "B"]
                 (Some {["B" := 25%float]}) =
               Ok [mkFinalRow "A" 100 50 5 250 0 2.5; mkFinalRow "B" 0 0 5 0 25 0])
    by (vm_compute; reflexivity).
  split; [reflexivity|]. split; [exact H1|]. split; [exact H2|].
  exact (proj2 (finalize_table_costs_local stable_backend
                  [mkItem "A" 100 0.5 50 "invoice.json"] 5 ["A"; "B"]
                  None (Some {["B" := 25%float]})) _ _ H1 H2).
Defined.

(** ** The order of the items *)

Lemma Zsum_Permutation (l1 l2 : list Z) : Permutation l1 l2 -> Zsum l1 = Zsum l2.
Proof.
  induction 1 as [|x l1 l2 _ IH|x y l|l1 l2 l3 _ IH1 _ IH2];
    rewrite ?Zsum_cons; [reflexivity|lia|lia|congruence].
Qed.

Lemma group_stems_Permutation items1 items2 k :
  Permutation items1 items2 -> group_stems items1 k = group_stems items2 k.
Proof.
  intros H. unfold group_stems, group_of.
  apply Zsum_Permutation, Permutation_map, filter_Permutation, H.
Qed.

Lemma int64_safe_Permutation items1 items2 :
  Permutation items1 items2 -> int64_safe items1 -> int64_safe items2.
Proof.
  unfold int64_safe. intros H.
  rewrite (Zsum_Permutation _ _ (Permutation_map _ H)). tauto.
Qed.

Lemma group_keys_Permutation items1 items2 :
  Permutation items1 items2 -> group_keys items1 = group_keys items2.
Proof.
  intros H. apply (Sorted_unique String.le); try apply group_keys_sorted.
  apply NoDup_Permutation; try apply group_keys_NoDup.
  intros p. rewrite !elem_of_group_keys.
  split; intros (it & Hit & Hp); exists it; split; try exact Hp.
  - rewrite <- H. exact Hit.
  - rewrite H. exact Hit.
Qed.

Lemma sorted_products_Permutation B items1 items2 produtos :
  Permutation items1 items2 ->
  sorted_products B items1 produtos = sorted_products B items2 produtos.
Proof.
  intros H. unfold sorted_products. rewrite !sort_values_products.
  rewrite !unsorted_frame_products, (group_keys_Permutation _ _ H).
  reflexivity.
Qed.

(** X5. The order of the items reaches the table through the float sums
    only. For two lists of the same items in two orders, with stem counts
    that are [int64_safe], both calls return, and the two tables have the
    same products in the same order with the same stems, rate and
    operational costs. Nothing is said of the subtotal and of the price and
    total made from it: floating-point addition depends on the order. *)
Theorem finalize_table_item_order
    (B : Backend) (items1 items2 : list Item) (cotacao : float)
    (produtos : list string) (ops_costs_map : option (gmap string float)) :
  Permutation items1 items2 ->
  int64_safe items1 ->
  exists rows1 rows2,
    finalize_table B items1 cotacao produtos ops_costs_map = Ok rows1 /\
    finalize_table B items2 cotacao produtos ops_costs_map = Ok rows2 /\
    Forall2 (fun r1 r2 =>
               Produto r1 = Produto r2 /\
               Num_de_hastes r1 = Num_de_hastes r2 /\
               Cotacao_do_dolar r1 = Cotacao_do_dolar r2 /\
               Custos_de_operacao r1 = Custos_de_operacao r2)
            rows1 rows2.
Proof.
  intros Hperm Hsafe1.
  pose proof (int64_safe_Permutation _ _ Hperm Hsafe1) as Hsafe2.
  eexists. eexists.
  split; [apply finalize_table_lines, Hsafe1|].
  split; [apply finalize_table_lines, Hsafe2|].
  rewrite (sorted_products_Permutation B items1 items2 produtos Hperm).
  apply Forall2_map_same. intros p. unfold line_of. cbn.
  rewrite (group_stems_Permutation items1 items2 p Hperm).
  repeat split; reflexivity.
Qed.

(** Two orders of the lines of two products. *)
Lemma finalize_table_item_order_witness :
  Permutation
    [mkItem "Rosas" 10 1 10 "a.json"; mkItem "Cravos" 7 2 14 "a.json";
     mkItem "Rosas" 5 1 5 "b.json"]
    [mkItem "Rosas" 5 1 5 "b.json"; mkItem "Cravos" 7 2 14 "a.json";
     mkItem "Rosas" 10 1 10 "a.json"] /\
  int64_safe
    [mkItem "Rosas" 10 1 10 "a.json"; mkItem "Cravos" 7 2 14 "a.json";
     mkItem "Rosas" 5 1 5 "b.json"] /\
  exists rows1 rows2,
    finalize_table stable_backend
      [mkItem "Rosas" 10 1 10 "a.json"; mkItem "Cravos" 7 2 14 "a.json";
       mkItem "Rosas" 5 1 5 "b.json"] 5 ["Rosas"] None = Ok rows1 /\
    finalize_table stable_backend
      [mkItem "Rosas" 5 1 5 "b.json"; mkItem "Cravos" 7 2 14 "a.json";
       mkItem "Rosas" 10 1 10 "a.json"] 5 ["Rosas"] None = Ok rows2 /\
    Forall2 (fun r1 r2 =>
               Produto r1 = Produto r2 /\
               Num_de_hastes r1 = Num_de_hastes r2 /\
               Cotacao_do_dolar r1 = Cotacao_do_dolar r2 /\
               Custos_de_operacao r1 = Custos_de_operacao r2)
            rows1 rows2.
Proof.
  assert (Hperm : Permutation
    [mkItem "Rosas" 10 1 10 "a.json"; mkItem "Cravos" 7 2 14 "a.json";
     mkItem "Rosas" 5 1 5 "b.json"]
    [mkItem "Rosas" 5 1 5 "b.json"; mkItem "Cravos" 7 2 14 "a.json";
     mkItem "Rosas" 10 1 10 "a.json"]).
  { exact (Permutation_rev
             [mkItem "Rosas" 10 1 10 "a.json"; mkItem "Cravos" 7 2 14 "a.json";
              mkItem "Rosas" 5 1 5 "b.json"]). }
  assert (Hsafe : int64_safe
    [mkItem "Rosas" 10 1 10 "a.json"; mkItem "Cravos" 7 2 14 "a.json";
     mkItem "Rosas" 5 1 5 "b.json"]) by reflexivity.
  split; [exact Hperm|]. split; [exact Hsafe|].
  exact (finalize_table_item_order stable_backend _ _ 5 ["Rosas"] None
           Hperm Hsafe).
Defined.

(** * Further properties of the parser *)

(** ** What every emitted item satisfies *)

Lemma mapM_Ok_elem {A B} (f : A -> result B) (l : list A) (l' : list B) (y : B) :
  mapM f l = Ok l' -> y ∈ l' -> exists x, x ∈ l /\ f x = Ok y.
Proof.
  revert l'. induction l as [|x l IH]; intros l' Hl Hy.
  - cbn in Hl. injection Hl as <-. inversion Hy.
  - cbn [mapM] in Hl. destruct (f x) as [b|e] eqn:Hx; [|discriminate].
    cbn [mbind result_bind] in Hl.
    destruct (mapM f l) as [k|e]; [|discriminate].
    cbn [mbind result_bind mret result_ret] in Hl. injection Hl as <-.
    apply elem_of_cons in Hy as [->|Hy].
    + exists x. split; [left|exact Hx].
    + destruct (IH k eq_refl Hy) as (x' & Hx' & Hfx').
      exists x'. split; [right; exact Hx'|exact Hfx'].
Qed.

Lemma elem_of_omap_id {A} (os : list (option A)) (a : A) :
  a ∈ omap id os <-> Some a ∈ os.
Proof.
  rewrite list_elem_of_omap. split.
  - intros (o & Ho & Hid). cbn in Hid. subst o. exact Ho.
  - intros H. exists (Some a). split; [exact H|reflexivity].
Qed.

Section ParserItems.

Variable py_repr : pyval -> string.
Variable self : FloresPrismaJSON.
Variable source : string.

Lemma _map_product_range (nm : pyval) (prod : string) :
  _map_product py_repr self nm = Some prod ->
  prod = _default self \/ exists k, depara_map self !! k = Some prod.
Proof.
  unfold _map_product. intros H.
  assert (G : forall k, Some (default (_default self) (depara_map self !! k))
                        = Some prod ->
              prod = _default self \/
              exists k, depara_map self !! k = Some prod).
  { intros k G. injection G as <-.
    destruct (depara_map self !! k) as [c|] eqn:Hc; [right; eauto|left].
    reflexivity. }
  destruct nm; try discriminate; exact (G _ H).
Qed.

Lemma parse_product_canonical (p : pyval) (it : Item) :
  parse_product py_repr self source p = Ok (Some it) -> canonical self source it.
Proof.
  unfold parse_product. intros H.
  destruct (Py.get p "nm_product" PNone) as [nm|e]; [|discriminate].
  cbn [mbind result_bind] in H.
  destruct (_map_product py_repr self nm) as [prod|] eqn:Hprod;
    [|discriminate].
  destruct (Py.get p "nu_stems_bunch" PNone) as [f1|e]; [|discriminate].
  cbn [mbind result_bind] in H.
  destruct (_parse_int py_repr f1) as [spb|e]; [|discriminate].
  cbn [mbind result_bind] in H.
  destruct (Py.get p "nu_bunches" PNone) as [f2|e]; [|discriminate].
  cbn [mbind result_bind] in H.
  destruct (_parse_int py_repr (Py.or_ f2 (PInt 1))) as [bunches|e];
    [|discriminate].
  cbn [mbind result_bind] in H.
  destruct (Py.get p "mny_rate_stem" PNone) as [f3|e]; [|discriminate].
  cbn [mbind result_bind] in H.
  destruct (_parse_float py_repr f3) as [rate|e]; [|discriminate].
  cbn [mbind result_bind] in H.
  unfold Py.float_of_int in H.
  destruct (is_infinity (F64.of_Z (spb * bunches))) eqn:Hinf; [discriminate|].
  cbn [mbind result_bind] in H. injection H as <-.
  unfold canonical. cbn [source_file product stems value_usd rate_usd].
  split; [reflexivity|]. split; [exact (_map_product_range nm prod Hprod)|].
  split; [exact Hinf|reflexivity].
Qed.

Lemma parse_box_canonical (box : pyval) (os : list (option Item)) (it : Item) :
  parse_box py_repr self source box = Ok os -> Some it ∈ os ->
  canonical self source it.
Proof.
  unfold parse_box. intros H Hit.
  destruct (Py.get box "products" (PList []) ≫= Py.iter) as [ps|e];
    [|discriminate].
  cbn [mbind result_bind] in H.
  destruct (mapM_Ok_elem _ _ _ _ H Hit) as (p & _ & Hp).
  exact (parse_product_canonical p it Hp).
Qed.

End ParserItems.

Lemma parse_item_canonical (py_repr : pyval -> string)
    (self : FloresPrismaJSON) (source : string) (data : pyval)
    (items : list Item) (it : Item) :
  parse py_repr self data source = Ok items -> it ∈ items ->
  canonical self source it.
Proof.
  intros H Hit. destruct data as [| | | | | |l]; try discriminate.
  destruct (Py.truthy (default (PList []) (Py.assoc "invoices" l))) eqn:Ht.
  - rewrite (parse_spec _ _ _ _ Ht) in H.
    destruct (Py.getitem0 _) as [inv|e]; [|discriminate].
    cbn [mbind result_bind] in H.
    destruct (Py.get inv "boxes" (PList []) ≫= Py.iter) as [boxes|e];
      [|discriminate].
    cbn [mbind result_bind] in H.
    destruct (mapM (parse_box py_repr self source) boxes) as [oss|e] eqn:Hoss;
      [|discriminate].
    cbn [mbind result_bind] in H. injection H as <-.
    apply elem_of_omap_id, list_elem_of_In, in_concat in Hit
      as (os & Hos & Hit).
    apply list_elem_of_In in Hos, Hit.
    destruct (mapM_Ok_elem _ _ _ _ Hoss Hos) as (box & _ & Hbox).
    exact (parse_box_canonical py_repr self source box os it Hbox Hit).
  - rewrite (parse_no_invoice _ _ _ _ Ht) in H. injection H as <-.
    inversion Hit.
Qed.

(** X6. Every item [parse] returns is in the canonical form: its
    [source_file] is the name of the file read, its product is the default
    product or a product of the rule map, its stem count converts to a finite
    float, and its [value_usd] is that float times [rate_usd]. *)
Theorem parse_items_canonical (py_repr : pyval -> string)
    (self : FloresPrismaJSON) (source : string) (data : pyval)
    (items : list Item) :
  parse py_repr self data source = Ok items ->
  Forall (canonical self source) items.
Proof.
  intros H. apply Forall_forall. intros it Hit.
  exact (parse_item_canonical py_repr self source data items it H Hit).
Qed.

(** On a document of one box with a mapped line, an unmapped line and a
    skipped line. *)
Lemma parse_items_canonical_witness :
  let self := mkParser {["ROSA" := "Freedom 60"]} "Coloridas" in
  let data :=
    PDict [("invoices",
      PList [PDict [("boxes",
        PList [PDict [("products",
          PList [PDict [("nm_product", PStr " ROSA "); ("nu_stems_bunch", PInt 25);
                        ("nu_bunches", PStr "4"); ("mny_rate_stem", PStr "0,5")];
                 PDict [("nm_product", PStr "CRAVO"); ("nu_stems_bunch", PInt 20);
                        ("mny_rate_stem", PFloat 0.25)];
                 PDict [("nu_stems_bunch", PInt 20)]])]])]])] in
  let items := [mkItem "Freedom 60" 100 0.5 50 "invoice.json";
                mkItem "Coloridas" 20 0.25 5 "invoice.json"] in
  parse (fun _ => "0.25") self data "invoice.json" = Ok items /\
  Forall (canonical self "invoice.json") items.
Proof.
  intros self data items.
  assert (H : parse (fun _ => "0.25") self data "invoice.json" = Ok items)
    by (vm_compute; reflexivity).
  split; [exact H|].
  exact (parse_items_canonical (fun _ => "0.25") self "invoice.json" data items H).
Defined.


(** ** Boxes are read one after the other, from the first invoice *)

Lemma assoc_head (k : string) (v : pyval) (l : list (string * pyval)) :
  Py.assoc k ((k, v) :: l) = Some v.
Proof. cbn [Py.assoc]. rewrite bool_decide_eq_true_2 by reflexivity. reflexivity. Qed.

Lemma mapM_app_result {A B} (f : A -> result B) (l1 l2 : list A) :
  mapM f (l1 ++ l2) = (x ← mapM f l1; y ← mapM f l2; Ok (x ++ y)).
Proof.
  induction l1 as [|a l1 IH].
  - cbn. destruct (mapM f l2); reflexivity.
  - cbn [app mapM]. destruct (f a) as [b|e]; [|reflexivity].
    cbn [mbind result_bind]. rewrite IH.
    destruct (mapM f l1) as [x|e]; [|reflexivity].
    cbn [mbind result_bind].
    destruct (mapM f l2) as [y|e]; reflexivity.
Qed.

Lemma parse_first_invoice (py_repr : pyval -> string) (self : FloresPrismaJSON)
    (source : string) (boxes more : list pyval) (l0 l1 : list (string * pyval)) :
  parse py_repr self
    (PDict (("invoices", PList (PDict (("boxes", PList boxes) :: l1) :: more)) :: l0))
    source =
  (oss ← mapM (parse_box py_repr self source) boxes; Ok (omap id (concat oss))).
Proof.
  rewrite parse_spec; rewrite assoc_head; [|reflexivity].
  cbn [default id Py.getitem0 mbind result_bind Py.get]. rewrite assoc_head.
  reflexivity.
Qed.

(** X7. Only the first invoice of a document is read, and its boxes are read
    independently: the items of a document whose first invoice has the boxes
    [b1 ++ b2] are the items of the boxes [b1] followed by those of the boxes
    [b2], and the first error met is raised. *)
Theorem parse_boxes_additive (py_repr : pyval -> string)
    (self : FloresPrismaJSON) (source : string) (b1 b2 more : list pyval)
    (l0 l1 : list (string * pyval)) :
  let doc invs boxes :=
    PDict (("invoices", PList (PDict (("boxes", PList boxes) :: l1) :: invs)) :: l0) in
  parse py_repr self (doc more (b1 ++ b2)) source =
    parse py_repr self (doc [] (b1 ++ b2)) source /\
  parse py_repr self (doc more (b1 ++ b2)) source =
    (x ← parse py_repr self (doc more b1) source;
     y ← parse py_repr self (doc more b2) source;
     Ok (x ++ y)).
Proof.
  cbv beta zeta. rewrite !parse_first_invoice. split; [reflexivity|].
  rewrite mapM_app_result.
  destruct (mapM (parse_box py_repr self source) b1) as [x|e]; [|reflexivity].
  cbn [mbind result_bind].
  destruct (mapM (parse_box py_repr self source) b2) as [y|e]; [|reflexivity].
  cbn [mbind result_bind]. rewrite concat_app, omap_id_app. reflexivity.
Qed.

(** ** Integers pass through the numeric parsers *)

Lemma is_digit_not_space (c : ascii) :
  Py.is_digit c = true -> Py.isspace c = false /\ Py.num_space c = false.
Proof.
  destruct c as [[] [] [] [] [] [] [] []]; vm_compute; intros H;
    first [discriminate H | split; reflexivity].
Qed.

Lemma lstrip_with_head (sp : ascii -> bool) (c : ascii) (s : string) :
  sp c = false -> Py.lstrip_with sp (String c s) = String c s.
Proof. intros H. cbn [Py.lstrip_with]. rewrite H. reflexivity. Qed.

Lemma rstrip_with_none (sp : ascii -> bool) (s : string) :
  string_forall (fun c => negb (sp c)) s = true -> Py.rstrip_with sp s = s.
Proof.
  induction s as [|c s IH]; [reflexivity|]. cbn [string_forall Py.rstrip_with].
  intros H. apply andb_prop in H as [Hc Hs]. rewrite (IH Hs).
  apply negb_true_iff in Hc. rewrite Hc. destruct s; reflexivity.
Qed.

Lemma strip_with_none (sp : ascii -> bool) (s : string) :
  string_forall (fun c => negb (sp c)) s = true -> Py.strip_with sp s = s.
Proof.
  intros H. unfold Py.strip_with.
  assert (Hl : Py.lstrip_with sp s = s).
  { destruct s as [|c s]; [reflexivity|]. apply lstrip_with_head.
    cbn [string_forall] in H. apply andb_prop in H as [Hc _].
    apply negb_true_iff in Hc. exact Hc. }
  rewrite Hl. apply rstrip_with_none, H.
Qed.

Lemma string_forall_impl (P Q : ascii -> bool) (s : string) :
  (forall c, P c = true -> Q c = true) ->
  string_forall P s = true -> string_forall Q s = true.
Proof.
  intros HPQ. induction s as [|c s IH]; [reflexivity|]. cbn [string_forall].
  intros H. apply andb_prop in H as [Hc Hs].
  rewrite (HPQ c Hc), (IH Hs). reflexivity.
Qed.

Lemma digitpart_digits (acc n : Z) (s : string) :
  string_forall Py.is_digit s = true ->
  exists k, Py.digitpart acc n true s = Some (digits_value acc s, k, "").
Proof.
  revert acc n. induction s as [|c s IH]; intros acc n H.
  - exists n. reflexivity.
  - cbn [string_forall] in H. apply andb_prop in H as [Hc Hs].
    cbn [Py.digitpart digits_value]. rewrite Hc. apply IH, Hs.
Qed.

Lemma digitpart_numeral (c : ascii) (s : string) :
  string_forall Py.is_digit (String c s) = true ->
  exists k, Py.digitpart 0 0 false (String c s)
            = Some (digits_value 0 (String c s), k, "").
Proof.
  intros H. pose proof H as H'. cbn [string_forall] in H'.
  apply andb_prop in H' as [Hc Hs].
  cbn [Py.digitpart digits_value]. rewrite Hc. apply digitpart_digits, Hs.
Qed.

Lemma pretty_N_char_digit (x : N) :
  (x < 10)%N ->
  Py.is_digit (pretty_N_char x) = true /\
  Py.digit_val (pretty_N_char x) = Z.of_N x.
Proof.
  intros Hx.
  assert (x = 0 \/ x = 1 \/ x = 2 \/ x = 3 \/ x = 4 \/ x = 5 \/ x = 6 \/ x = 7
          \/ x = 8 \/ x = 9)%N as H by lia.
  repeat (destruct H as [->|H]; [split; reflexivity|]). subst x.
  split; reflexivity.
Qed.

Lemma pretty_N_go_digits (x : N) (s : string) :
  string_forall Py.is_digit s = true ->
  string_forall Py.is_digit (pretty_N_go x s) = true /\
  digits_value 0 (pretty_N_go x s) = digits_value (Z.of_N x) s /\
  (s <> "" -> pretty_N_go x s <> "").
Proof.
  revert s. induction (N.lt_wf_0 x) as [x _ IH]. intros s Hs.
  assert (x = 0 \/ 0 < x)%N as [->|Hx] by lia.
  - rewrite pretty_N_go_0. auto.
  - rewrite pretty_N_go_step by exact Hx.
    destruct (pretty_N_char_digit (x mod 10)%N) as [Hd Hv].
    { apply N.mod_lt. lia. }
    destruct (IH (x / 10)%N (N.div_lt x 10 Hx eq_refl)
                 (String (pretty_N_char (x mod 10)%N) s)) as (H1 & H2 & H3).
    { cbn [string_forall]. rewrite Hd, Hs. reflexivity. }
    split; [exact H1|]. split; [|intros _; apply H3; discriminate].
    rewrite H2. cbn [digits_value]. rewrite Hv. f_equal.
    pose proof (N.div_mod x 10). lia.
Qed.

Lemma pretty_positive_digits (p : positive) :
  exists c s, pretty p = String c s /\
              string_forall Py.is_digit (String c s) = true /\
              digits_value 0 (String c s) = Zpos p.
Proof.
  unfold pretty, pretty_positive, pretty, pretty_N.
  destruct (decide (N.pos p = 0%N)) as [H|_]; [discriminate H|].
  rewrite pretty_N_go_step by lia.
  destruct (pretty_N_char_digit (N.pos p mod 10)%N) as [Hd Hv].
  { apply N.mod_lt. lia. }
  destruct (pretty_N_go_digits (N.pos p / 10)%N
              (String (pretty_N_char (N.pos p mod 10)%N) ""))
    as (H1 & H2 & H3).
  { cbn [string_forall]. rewrite Hd. reflexivity. }
  destruct (pretty_N_go _ _) as [|c s] eqn:Hp.
  - exfalso. apply H3; [discriminate|reflexivity].
  - exists c, s. split; [reflexivity|]. split; [exact H1|].
    rewrite H2. cbn [digits_value]. rewrite Hv.
    pose proof (N.div_mod (N.pos p) 10). lia.
Qed.

Lemma digit_char_facts (c : ascii) :
  Py.is_digit c = true ->
  Py.lower c = c /\ Ascii.eqb c "," = false /\
  (forall s, Py.split_sign (String c s) = (false, String c s)) /\
  (forall s, Py.mantissa (String c s) =
             match Py.digitpart 0 0 false (String c s) with
             | Some (d, _, String "." rest) =>
                 match Py.digitpart d 0 false rest with
                 | Some (d', k, rest') => Some (d', k, rest')
                 | None =>
                     match rest with
                     | String "_" _ => None
                     | _ => Some (d, 0, rest)
                     end
                 end
             | Some (d, _, rest) => Some (d, 0, rest)
             | None => None
             end).
Proof.
  destruct c as [[] [] [] [] [] [] [] []]; intros H;
    first [discriminate H | repeat split; reflexivity].
Qed.

Lemma digits_fixed (s : string) :
  string_forall Py.is_digit s = true ->
  Py.lower_str s = s /\ Py.replace "," "." s = s /\
  string_forall (fun c => negb (Py.isspace c)) s = true /\
  string_forall (fun c => negb (Py.num_space c)) s = true.
Proof.
  induction s as [|c s IH]; [repeat split; reflexivity|].
  cbn [string_forall]. intros H. apply andb_prop in H as [Hc Hs].
  destruct (IH Hs) as (H1 & H2 & H3 & H4).
  destruct (digit_char_facts c Hc) as (Hl & Hr & _).
  destruct (is_digit_not_space c Hc) as [Hi Hn].
  cbn [Py.lower_str Py.replace]. rewrite Hl, Hr, H1, H2, H3, H4, Hi, Hn.
  repeat split; reflexivity.
Qed.

Lemma string_forall_cons (P : ascii -> bool) (c : ascii) (s : string) :
  string_forall P (String c s) = P c && string_forall P s.
Proof. reflexivity. Qed.

Lemma of_decimal_int (neg : bool) (p : positive) :
  Py.of_decimal neg (Zpos p) 0 = F64.of_Z (if neg then Zneg p else Zpos p).
Proof.
  unfold Py.of_decimal, F64.of_Z.
  rewrite (bool_decide_eq_false_2 (400 < 0)) by lia.
  rewrite (bool_decide_eq_true_2 (0 <= 0)) by lia.
  rewrite Z.pow_0_r, Z.mul_1_r. destruct neg; reflexivity.
Qed.

(** The numeral [s], with a minus sign in front when [neg], read by [int]
    and by [float], trimmed or not. *)
Lemma numeral_conversions (neg : bool) (c : ascii) (s : string) (p : positive) :
  string_forall Py.is_digit (String c s) = true ->
  digits_value 0 (String c s) = Zpos p ->
  let t := if neg then String "-" (String c s) else String c s in
  let z := if neg then Zneg p else Zpos p in
  Py.strip t = t /\ Py.replace "," "." t = t /\
  Py.int_of_str t = Ok z /\ Py.float_of_str t = Ok (F64.of_Z z).
Proof.
  intros Hd Hv t z.
  destruct (digits_fixed _ Hd) as (Hlow & Hrep & Hsp & Hns).
  pose proof Hd as Hc. cbn [string_forall] in Hc. apply andb_prop in Hc as [Hc _].
  destruct (digit_char_facts c Hc) as (_ & _ & Hsign & Hman).
  destruct (digitpart_numeral c s Hd) as [k Hk]. rewrite Hv in Hk.
  assert (Hstrip : Py.strip t = t).
  { apply strip_with_none. subst t. destruct neg; [|exact Hsp].
    rewrite string_forall_cons, Hsp. reflexivity. }
  assert (Hnum : Py.strip_with Py.num_space t = t).
  { apply strip_with_none. subst t. destruct neg; [|exact Hns].
    rewrite string_forall_cons, Hns. reflexivity. }
  assert (Hsplit : Py.split_sign t = (neg, String c s)).
  { subst t. destruct neg; [reflexivity|apply Hsign]. }
  assert (Hword : ~ (String c s = "inf" \/ String c s = "infinity")).
  { intros [H|H]; rewrite H in Hd; discriminate Hd. }
  assert (Hnan : String c s <> "nan").
  { intros H; rewrite H in Hd; discriminate Hd. }
  split; [exact Hstrip|]. split.
  { subst t. destruct neg; [|exact Hrep].
    change (Py.replace "," "." (String "-" (String c s)))
      with (String "-" (Py.replace "," "." (String c s))).
    rewrite Hrep. reflexivity. }
  split.
  - unfold Py.int_of_str. rewrite Hnum, Hsplit, Hk. subst z.
    destruct neg; reflexivity.
  - unfold Py.float_of_str. rewrite Hnum, Hsplit, Hlow.
    rewrite (bool_decide_eq_false_2 _ Hword), (bool_decide_eq_false_2 _ Hnan).
    rewrite Hman, Hk. cbn [Py.exponent]. change (0 - 0) with 0.
    rewrite of_decimal_int. reflexivity.
Qed.

(** X8. An integer passes unchanged through [_parse_int], and
    [_parse_float] gives the float nearest to it (infinity when it is out of
    range): neither falls back to 0. The integer has less than 4300 digits,
    the most [str] converts. *)
Theorem parse_numbers_of_int (py_repr : pyval -> string) (z : Z) :
  Z.abs z < 10 ^ 4300 ->
  _parse_int py_repr (PInt z) = Ok z /\
  _parse_float py_repr (PInt z) = Ok (F64.of_Z z).
Proof.
  intros _. unfold _parse_int, _parse_float. cbn [py_str].
  destruct z as [|p|p].
  - split; reflexivity.
  - change (pretty (Z.pos p)) with (pretty p).
    destruct (pretty_positive_digits p) as (c & s & -> & Hd & Hv).
    destruct (numeral_conversions false c s p Hd Hv) as (H1 & H2 & H3 & H4).
    cbv zeta in H1, H2, H3, H4. rewrite H2, H1, H3, H4. split; reflexivity.
  - change (pretty (Z.neg p)) with ("-" +:+ pretty p).
    destruct (pretty_positive_digits p) as (c & s & -> & Hd & Hv).
    rewrite append_String, append_empty.
    destruct (numeral_conversions true c s p Hd Hv) as (H1 & H2 & H3 & H4).
    cbv zeta in H1, H2, H3, H4. rewrite H2, H1, H3, H4. split; reflexivity.
Qed.

Lemma parse_numbers_of_int_witness :
  Z.abs (-1250) < 10 ^ 4300 /\
  _parse_int (fun _ => "") (PInt (-1250)) = Ok (-1250) /\
  _parse_float (fun _ => "") (PInt (-1250)) = Ok (-1250)%float.
Proof.
  assert (H : Z.abs (-1250) < 10 ^ 4300) by (vm_compute; reflexivity).
  split; [exact H|].
  exact (parse_numbers_of_int (fun _ => "") (-1250) H).
Defined.

(** ** The decimal comma *)

Lemma string_forall_app (P : ascii -> bool) (a b : string) :
  string_forall P (a +:+ b) = string_forall P a && string_forall P b.
Proof.
  induction a as [|c a IH]; [reflexivity|].
  rewrite append_String, !string_forall_cons, IH, andb_assoc. reflexivity.
Qed.

Lemma lstrip_with_decomp (sp : ascii -> bool) (s : string) :
  exists pre, s = pre +:+ Py.lstrip_with sp s /\ string_forall sp pre = true.
Proof.
  induction s as [|c s IH]; [exists ""; split; reflexivity|].
  cbn [Py.lstrip_with]. destruct (sp c) eqn:Hc.
  - destruct IH as (pre & Heq & Hpre). exists (String c pre).
    rewrite append_String, <- Heq, string_forall_cons, Hc, Hpre.
    split; reflexivity.
  - exists "". split; reflexivity.
Qed.

Lemma rstrip_with_decomp (sp : ascii -> bool) (s : string) :
  exists suf, s = Py.rstrip_with sp s +:+ suf /\ string_forall sp suf = true.
Proof.
  induction s as [|c s IH]; [exists ""; split; reflexivity|].
  destruct IH as (suf & Heq & Hsuf). cbn [Py.rstrip_with].
  destruct (Py.rstrip_with sp s) as [|c' r].
  - rewrite append_empty in Heq. subst s. destruct (sp c) eqn:Hc.
    + exists (String c suf). rewrite string_forall_cons, Hc, Hsuf.
      split; reflexivity.
    + exists suf. split; [reflexivity|exact Hsuf].
  - exists suf. rewrite append_String, <- Heq. split; [reflexivity|exact Hsuf].
Qed.

Lemma strip_with_decomp (sp : ascii -> bool) (s : string) :
  exists pre suf, s = pre +:+ Py.strip_with sp s +:+ suf /\
                  string_forall sp pre = true /\ string_forall sp suf = true.
Proof.
  destruct (lstrip_with_decomp sp s) as (pre & Heq & Hpre).
  destruct (rstrip_with_decomp sp (Py.lstrip_with sp s)) as (suf & Heq' & Hsuf).
  exists pre, suf. unfold Py.strip_with. rewrite <- Heq', <- Heq. auto.
Qed.

Lemma lstrip_with_app (sp : ascii -> bool) (pre s : string) :
  string_forall sp pre = true ->
  Py.lstrip_with sp (pre +:+ s) = Py.lstrip_with sp s.
Proof.
  induction pre as [|c pre IH]; [reflexivity|].
  rewrite string_forall_cons, append_String. intros H.
  apply andb_prop in H as [Hc Hpre]. cbn [Py.lstrip_with]. rewrite Hc.
  apply IH, Hpre.
Qed.

Lemma rstrip_with_all (sp : ascii -> bool) (suf : string) :
  string_forall sp suf = true -> Py.rstrip_with sp suf = "".
Proof.
  induction suf as [|c suf IH]; [reflexivity|]. rewrite string_forall_cons.
  intros H. apply andb_prop in H as [Hc Hs]. cbn [Py.rstrip_with].
  rewrite (IH Hs), Hc. reflexivity.
Qed.

Lemma rstrip_with_app (sp : ascii -> bool) (core suf : string) :
  string_forall (fun c => negb (sp c)) core = true ->
  string_forall sp suf = true ->
  Py.rstrip_with sp (core +:+ suf) = core.
Proof.
  intros Hcore Hsuf. induction core as [|c core IH].
  - rewrite append_empty. apply rstrip_with_all, Hsuf.
  - rewrite string_forall_cons in Hcore. apply andb_prop in Hcore as [Hc Hcore].
    apply negb_true_iff in Hc. rewrite append_String. cbn [Py.rstrip_with].
    rewrite (IH Hcore), Hc. destruct core; reflexivity.
Qed.

(** Blanks around a text without blanks are what [strip] removes. *)
Lemma strip_with_unique (sp : ascii -> bool) (pre core suf : string) :
  string_forall sp pre = true -> string_forall sp suf = true ->
  string_forall (fun c => negb (sp c)) core = true ->
  Py.strip_with sp (pre +:+ core +:+ suf) = core.
Proof.
  intros Hpre Hsuf Hcore. unfold Py.strip_with.
  rewrite (lstrip_with_app sp pre _ Hpre).
  destruct core as [|c core].
  - rewrite append_empty.
    destruct (lstrip_with_decomp sp suf) as (p & Heq & _).
    apply rstrip_with_all.
    rewrite Heq, string_forall_app in Hsuf. apply andb_prop in Hsuf as [_ H].
    exact H.
  - pose proof Hcore as Hc. rewrite string_forall_cons in Hc.
    apply andb_prop in Hc as [Hc _]. apply negb_true_iff in Hc.
    rewrite append_String, (lstrip_with_head sp c _ Hc), <- append_String.
    apply rstrip_with_app; assumption.
Qed.

Lemma char_classes (c : ascii) :
  (Py.num_space c = true -> Py.isspace c = true) /\
  (Py.isspace c = true ->
   Ascii.eqb c "," = false /\ Ascii.eqb c "." = false) /\
  (Py.is_digit c || Ascii.eqb c "_" = true -> plain_int c = true) /\
  plain (Py.lower c) = plain c /\
  (Ascii.eqb (Py.lower c) "e" = true -> plain c = true).
Proof.
  destruct c as [[] [] [] [] [] [] [] []];
    (split; [|split; [|split; [|split]]]); vm_compute; intros;
    first [reflexivity | discriminate | split; reflexivity].
Qed.

Lemma plain_int_plain (s : string) :
  string_forall plain_int s = true -> string_forall plain s = true.
Proof.
  apply string_forall_impl. unfold plain_int. intros c H.
  apply andb_prop in H as [H _]. exact H.
Qed.

Lemma plain_not_space (s : string) :
  string_forall plain s = true ->
  string_forall (fun c => negb (Py.isspace c)) s = true /\
  string_forall (fun c => negb (Py.num_space c)) s = true.
Proof.
  intros H. split; revert H; apply string_forall_impl; unfold plain; intros c H;
    apply andb_prop in H as [H _]; [exact H|].
  destruct (Py.num_space c) eqn:Hn; [|reflexivity].
  rewrite (proj1 (char_classes c) Hn) in H. discriminate H.
Qed.

Lemma plain_lower_str (s : string) :
  string_forall plain (Py.lower_str s) = string_forall plain s.
Proof.
  induction s as [|c s IH]; [reflexivity|]. cbn [Py.lower_str].
  rewrite !string_forall_cons, IH.
  destruct (char_classes c) as (_ & _ & _ & -> & _). reflexivity.
Qed.

(** What [digitpart] consumes are digits and underscores. *)
Lemma digitpart_prefix (s : string) :
  forall acc n b v k rest,
    Py.digitpart acc n b s = Some (v, k, rest) ->
    exists pre, s = pre +:+ rest /\ string_forall plain_int pre = true.
Proof.
  induction s as [|c s IH]; intros acc n b v k rest H; cbn [Py.digitpart] in H.
  - destruct b; [|discriminate]. injection H as <- <- <-.
    exists "". split; reflexivity.
  - destruct (char_classes c) as (_ & _ & Hc & _).
    destruct (Py.is_digit c) eqn:Hd.
    + apply IH in H as (pre & -> & Hpre). exists (String c pre).
      rewrite string_forall_cons, Hpre, (Hc eq_refl). split; reflexivity.
    + destruct (Ascii.eqb c "_") eqn:Hu.
      * destruct b; [|discriminate]. destruct s as [|c' s']; [discriminate|].
        destruct (Py.is_digit c'); [|discriminate].
        apply IH in H as (pre & Heq & Hpre). exists (String c pre).
        rewrite append_String, <- Heq, string_forall_cons, Hpre, (Hc eq_refl).
        split; reflexivity.
      * destruct b; [|discriminate]. injection H as <- <- <-.
        exists "". split; reflexivity.
Qed.

Lemma split_sign_spec (t : string) :
  exists sg, Py.split_sign t = (sg, t) \/
             exists c body, t = String c body /\ plain_int c = true /\
                            Py.split_sign t = (sg, body).
Proof.
  destruct t as [|c body]; [exists false; left; reflexivity|].
  destruct c as [[] [] [] [] [] [] [] []];
    first [ exists false; left; reflexivity
          | exists true; right; eexists; eexists;
            split; [reflexivity|split; reflexivity]
          | exists false; right; eexists; eexists;
            split; [reflexivity|split; reflexivity] ].
Qed.

(** A text [int] accepts has, between the blanks around it, neither blank
    nor comma nor point. *)
Lemma int_of_str_plain (t : string) (z : Z) :
  Py.int_of_str t = Ok z ->
  string_forall plain_int (Py.strip_with Py.num_space t) = true.
Proof.
  unfold Py.int_of_str. intros H.
  destruct (split_sign_spec (Py.strip_with Py.num_space t)) as [sg Hs].
  destruct Hs as [Hs|(c & body & Heq & Hc & Hs)]; rewrite Hs in H.
  - destruct (Py.digitpart 0 0 false _) as [[[v k] rest]|] eqn:Hd;
      [|discriminate].
    destruct rest; [|discriminate].
    apply digitpart_prefix in Hd as (pre & Heq & Hpre).
    rewrite Heq, string_forall_app, Hpre. reflexivity.
  - destruct (Py.digitpart 0 0 false body) as [[[v k] rest]|] eqn:Hd;
      [|discriminate].
    destruct rest; [|discriminate].
    apply digitpart_prefix in Hd as (pre & Hb & Hpre).
    rewrite Heq, string_forall_cons, Hc, Hb, string_forall_app, Hpre.
    reflexivity.
Qed.

Lemma mantissa_other (c : ascii) (s : string) :
  c <> "."%char ->
  Py.mantissa (String c s) =
  match Py.digitpart 0 0 false (String c s) with
  | Some (d, _, String "." rest) =>
      match Py.digitpart d 0 false rest with
      | Some (d', k, rest') => Some (d', k, rest')
      | None =>
          match rest with
          | String "_" _ => None
          | _ => Some (d, 0, rest)
          end
      end
  | Some (d, _, rest) => Some (d, 0, rest)
  | None => None
  end.
Proof.
  destruct c as [[] [] [] [] [] [] [] []]; intros H;
    first [reflexivity | exfalso; apply H; reflexivity].
Qed.

Lemma mantissa_no_digit (d d' k' : Z) (r rest' : string) :
  match r with
  | String "_" _ => None
  | _ => Some (d, 0, r)
  end = Some (d', k', rest') -> r = rest'.
Proof.
  destruct r as [|c r]; [intros H; injection H as <- <- <-; reflexivity|].
  destruct c as [[] [] [] [] [] [] [] []]; intros H;
    first [discriminate H | injection H as <- <- <-; reflexivity].
Qed.

Lemma mantissa_tail (p : option (Z * Z * string)) (d' k' : Z) (rest' : string) :
  match p with
  | Some (d, _, String "." rest) =>
      match Py.digitpart d 0 false rest with
      | Some (d', k, rest') => Some (d', k, rest')
      | None =>
          match rest with
          | String "_" _ => None
          | _ => Some (d, 0, rest)
          end
      end
  | Some (d, _, rest) => Some (d, 0, rest)
  | None => None
  end = Some (d', k', rest') ->
  exists d k0 r0 mid,
    p = Some (d, k0, r0) /\ r0 = mid +:+ rest' /\ string_forall plain mid = true.
Proof.
  destruct p as [[[d k0] r0]|]; [|discriminate].
  destruct r0 as [|c r].
  { intros H. injection H as <- <- <-. exists d, k0, "", "". auto. }
  destruct (ascii_dec c ".") as [->|Hne].
  - cbn beta iota.
    destruct (Py.digitpart d 0 false r) as [[[d1 k1] r1]|] eqn:Hd.
    + intros H. injection H as <- <- <-.
      apply digitpart_prefix in Hd as (pre & -> & Hpre).
      exists d, k0, (String "." (pre +:+ r1)), (String "." pre).
      rewrite string_forall_cons, (plain_int_plain _ Hpre). auto.
    + intros H. apply mantissa_no_digit in H. subst rest'.
      exists d, k0, (String "." r), ".". auto.
  - destruct c as [[] [] [] [] [] [] [] []]; intros H;
      first [ exfalso; apply Hne; reflexivity
            | injection H as <- <- <-; eexists d, k0, _, ""; auto ].
Qed.

Lemma mantissa_prefix (body : string) (d k : Z) (rest : string) :
  Py.mantissa body = Some (d, k, rest) ->
  exists pre, body = pre +:+ rest /\ string_forall plain pre = true.
Proof.
  destruct body as [|c s]; [discriminate|].
  destruct (ascii_dec c ".") as [->|Hne].
  - cbn [Py.mantissa].
    destruct (Py.digitpart 0 0 false s) as [[[d0 k0] r0]|] eqn:Hd;
      [|discriminate].
    intros H. injection H as <- <- <-.
    apply digitpart_prefix in Hd as (pre & -> & Hpre).
    exists (String "." pre).
    rewrite string_forall_cons, (plain_int_plain _ Hpre). auto.
  - rewrite (mantissa_other c s Hne). intros H.
    apply mantissa_tail in H as (d0 & k0 & r0 & mid & Hd & -> & Hmid).
    apply digitpart_prefix in Hd as (pre & Heq & Hpre).
    exists (pre +:+ mid). rewrite Heq, string_forall_app, Hmid.
    rewrite (plain_int_plain _ Hpre).
    split; [|reflexivity].
    clear. induction pre as [|a pre IH]; [reflexivity|].
    rewrite !append_String, IH. reflexivity.
Qed.

Lemma exponent_plain (rest : string) (e : Z) :
  Py.exponent rest = Some e -> string_forall plain rest = true.
Proof.
  destruct rest as [|c s]; [reflexivity|]. cbn [Py.exponent].
  destruct (Ascii.eqb (Py.lower c) "e") eqn:He; [|discriminate].
  destruct (char_classes c) as (_ & _ & _ & _ & Hc).
  rewrite string_forall_cons, (Hc He).
  destruct (split_sign_spec s) as [sg [Hs|(c' & body & Heq & Hc' & Hs)]];
    rewrite Hs.
  - destruct (Py.digitpart 0 0 false s) as [[[v k] r]|] eqn:Hd; [|discriminate].
    destruct r; [|discriminate]. intros _.
    apply digitpart_prefix in Hd as (pre & -> & Hpre).
    rewrite string_forall_app, (plain_int_plain _ Hpre). reflexivity.
  - destruct (Py.digitpart 0 0 false body) as [[[v k] r]|] eqn:Hd;
      [|discriminate].
    destruct r; [|discriminate]. intros _.
    apply digitpart_prefix in Hd as (pre & Hb & Hpre).
    rewrite Heq, string_forall_cons, Hb, string_forall_app.
    rewrite (plain_int_plain _ Hpre).
    unfold plain_int in Hc'. apply andb_prop in Hc' as [-> _]. reflexivity.
Qed.

Lemma float_body_plain (neg : bool) (body : string) (x : float) :
  (let word := Py.lower_str body in
   if bool_decide (word = "inf" \/ word = "infinity")
   then Ok (if neg then neg_infinity else infinity)
   else if bool_decide (word = "nan") then Ok nan
   else
     match Py.mantissa body with
     | Some (d, k, rest) =>
         match Py.exponent rest with
         | Some e => Ok (Py.of_decimal neg d (e - k))
         | None => Raise ValueError
         end
     | None => Raise ValueError
     end) = Ok x ->
  string_forall plain body = true.
Proof.
  cbv zeta. intros H. rewrite <- plain_lower_str.
  destruct (bool_decide (Py.lower_str body = "inf" \/
                         Py.lower_str body = "infinity")) eqn:Hw.
  { apply bool_decide_eq_true in Hw as [->| ->]; reflexivity. }
  destruct (bool_decide (Py.lower_str body = "nan")) eqn:Hn.
  { apply bool_decide_eq_true in Hn as ->. reflexivity. }
  rewrite plain_lower_str.
  destruct (Py.mantissa body) as [[[d k] rest]|] eqn:Hm; [|discriminate].
  destruct (Py.exponent rest) as [e|] eqn:He; [|discriminate].
  apply mantissa_prefix in Hm as (pre & -> & Hpre).
  rewrite string_forall_app, Hpre, (exponent_plain _ _ He). reflexivity.
Qed.

(** A text [float] accepts has, between the blanks around it, neither blank
    nor comma. *)
Lemma float_of_str_plain (t : string) (x : float) :
  Py.float_of_str t = Ok x ->
  string_forall plain (Py.strip_with Py.num_space t) = true.
Proof.
  unfold Py.float_of_str. intros H.
  destruct (split_sign_spec (Py.strip_with Py.num_space t)) as [sg Hs].
  destruct Hs as [Hs|(c & body & Heq & Hc & Hs)]; rewrite Hs in H.
  - exact (float_body_plain _ _ _ H).
  - rewrite Heq, string_forall_cons, (float_body_plain _ _ _ H).
    unfold plain_int in Hc. apply andb_prop in Hc as [-> _]. reflexivity.
Qed.

Lemma replace_no_comma (s : string) :
  string_forall (fun c => negb (Ascii.eqb c ",")) s = true ->
  Py.replace "," "." s = s.
Proof.
  induction s as [|c s IH]; [reflexivity|]. rewrite string_forall_cons.
  intros H. apply andb_prop in H as [Hc Hs]. apply negb_true_iff in Hc.
  cbn [Py.replace]. rewrite Hc, (IH Hs). reflexivity.
Qed.

Lemma replace_idem (s : string) :
  Py.replace "," "." (Py.replace "," "." s) = Py.replace "," "." s.
Proof.
  induction s as [|c s IH]; [reflexivity|]. cbn [Py.replace]. rewrite IH.
  destruct (Ascii.eqb c ",") eqn:Hc; [reflexivity|]. rewrite Hc. reflexivity.
Qed.

Lemma replace_no_dot (s : string) :
  string_forall (fun c => negb (Ascii.eqb c ".")) (Py.replace "," "." s) = true ->
  Py.replace "," "." s = s.
Proof.
  induction s as [|c s IH]; [reflexivity|]. cbn [Py.replace].
  rewrite string_forall_cons. intros H. apply andb_prop in H as [Hc Hs].
  rewrite (IH Hs). destruct (Ascii.eqb c ","); [discriminate Hc|reflexivity].
Qed.

Lemma blanks_no_comma_dot (sp : ascii -> bool) (p : string) :
  (forall c, sp c = true -> Py.isspace c = true) ->
  string_forall sp p = true ->
  string_forall (fun c => negb (Ascii.eqb c ",") && negb (Ascii.eqb c ".")) p
  = true.
Proof.
  intros Hsp. apply string_forall_impl. intros c Hc.
  destruct (char_classes c) as (_ & H & _).
  destruct (H (Hsp c Hc)) as [-> ->]. reflexivity.
Qed.

(** A text [int] accepts once trimmed has no comma and no point. *)
Lemma accepted_int (s : string) (z : Z) :
  Py.int_of_str (Py.strip s) = Ok z ->
  string_forall (fun c => negb (Ascii.eqb c ",") && negb (Ascii.eqb c ".")) s
  = true.
Proof.
  intros H. apply int_of_str_plain in H.
  destruct (strip_with_decomp Py.isspace s) as (p0 & q0 & H0 & Hp0 & Hq0).
  destruct (strip_with_decomp Py.num_space (Py.strip s))
    as (p1 & q1 & H1 & Hp1 & Hq1).
  fold (Py.strip s) in H0. rewrite H0, H1, !string_forall_app.
  rewrite (blanks_no_comma_dot Py.isspace p0), (blanks_no_comma_dot Py.isspace q0),
    (blanks_no_comma_dot Py.num_space p1), (blanks_no_comma_dot Py.num_space q1);
    auto; try (intros c; apply char_classes).
  rewrite !andb_true_r. cbn [andb]. revert H. apply string_forall_impl.
  unfold plain_int, plain. intros c Hc.
  apply andb_prop in Hc as [Hc ->]. apply andb_prop in Hc as [_ ->].
  reflexivity.
Qed.

(** A text [float] accepts has no comma, and is accepted with the same
    result once trimmed. *)
Lemma accepted_float (t : string) (x : float) :
  Py.float_of_str t = Ok x ->
  Py.replace "," "." t = t /\ Py.float_of_str (Py.strip t) = Ok x.
Proof.
  intros H. pose proof (float_of_str_plain t x H) as Hcore.
  destruct (plain_not_space _ Hcore) as [Hsp Hns].
  destruct (strip_with_decomp Py.num_space t) as (pre & suf & Heq & Hpre & Hsuf).
  assert (Hstrip : Py.strip t = Py.strip_with Py.num_space t).
  { rewrite Heq at 1. apply strip_with_unique; [| |exact Hsp].
    - revert Hpre. apply string_forall_impl. intros c. apply char_classes.
    - revert Hsuf. apply string_forall_impl. intros c. apply char_classes. }
  split.
  - apply replace_no_comma. rewrite Heq, !string_forall_app.
    assert (Hb : forall p, string_forall Py.num_space p = true ->
                 string_forall (fun c => negb (Ascii.eqb c ",")) p = true).
    { intros p. apply string_forall_impl. intros c Hc.
      destruct (char_classes c) as (Hn & Hi & _).
      destruct (Hi (Hn Hc)) as [-> _]. reflexivity. }
    rewrite (Hb pre Hpre), (Hb suf Hsuf), andb_true_r. cbn [andb].
    revert Hcore. apply string_forall_impl. unfold plain. intros c Hc.
    apply andb_prop in Hc as [_ ->]. reflexivity.
  - rewrite <- H. unfold Py.float_of_str.
    rewrite Hstrip, (strip_with_none Py.num_space _ Hns). reflexivity.
Qed.

Lemma int_first_try (s : string) (h : result Z) :
  try_except (Py.int_of_str (Py.strip (Py.replace "," "." s))) h =
  try_except (Py.int_of_str (Py.strip s)) h.
Proof.
  destruct (Py.int_of_str (Py.strip s)) as [z|e] eqn:H1.
  - apply accepted_int in H1 as Hs.
    rewrite replace_no_comma, H1; [reflexivity|].
    revert Hs. apply string_forall_impl. intros c Hc.
    apply andb_prop in Hc as [-> _]. reflexivity.
  - destruct (Py.int_of_str (Py.strip (Py.replace "," "." s))) as [z|e'] eqn:H2;
      [|reflexivity].
    apply accepted_int in H2 as Hs.
    rewrite replace_no_dot in H2; [congruence|].
    revert Hs. apply string_forall_impl. intros c Hc.
    apply andb_prop in Hc as [_ ->]. reflexivity.
Qed.

Lemma _parse_float_str (py_repr : pyval -> string) (s : string) :
  _parse_float py_repr (PStr s) =
  try_except (Py.float_of_str (Py.strip (Py.replace "," "." s))) (Ok 0%float).
Proof.
  unfold _parse_float. cbn [py_str Py.float].
  destruct (Py.float_of_str (Py.strip (Py.replace "," "." s))) as [x|e] eqn:H1;
    [reflexivity|].
  destruct (Py.float_of_str s) as [x|e'] eqn:H2; [|reflexivity].
  destruct (accepted_float s x H2) as [Hr Hs]. rewrite Hr in H1. congruence.
Qed.

(** X9. In a text the decimal comma is read as a decimal point: both
    numeric parsers give the same result for a text and for the text with
    its commas replaced by points. On a text [_parse_float] is the
    conversion of the trimmed text with points, or 0.0: its second attempt,
    on the text as given, never succeeds where the first has failed. The
    integer parser [parse_int] of the other front end is the same
    function. *)
Theorem parse_numbers_decimal_comma (py_repr : pyval -> string) (s : string) :
  _parse_int py_repr (PStr (Py.replace "," "." s)) = _parse_int py_repr (PStr s) /\
  _parse_float py_repr (PStr (Py.replace "," "." s))
    = _parse_float py_repr (PStr s) /\
  _parse_float py_repr (PStr s) =
    try_except (Py.float_of_str (Py.strip (Py.replace "," "." s)))
               (Ok 0%float) /\
  (forall v, parse_int py_repr v = _parse_int py_repr v).
Proof.
  split; [|split; [|split]].
  - unfold _parse_int. cbn [py_str]. rewrite replace_idem. apply int_first_try.
  - rewrite !_parse_float_str, replace_idem. reflexivity.
  - apply _parse_float_str.
  - reflexivity.
Qed.

(** ** Loading the rule file *)

Lemma load_rules_typed (rules : list pyval) (pairs : list (string * string))
    (tm : gmap string string) :
  Forall2 is_rule rules pairs ->
  load_rules rules (PStr <$> tm) =
  Ok (PStr <$> foldl (fun acc mp => if decide (mp.1 = "") then acc
                                    else <[mp.1 := mp.2]> acc) tm pairs).
Proof.
  intros H. revert tm. induction H as [|r mp rules pairs Hr _ IH]; intros tm.
  - reflexivity.
  - destruct Hr as (l & -> & Hm & Hp). destruct mp as [m p]. cbn [fst snd] in *.
    cbn [load_rules Py.get mbind result_bind]. rewrite Hm, Hp.
    cbn [default id Py.truthy hashable mbind result_bind].
    change (foldl ?f tm ((m, p) :: pairs)) with (foldl f (f tm (m, p)) pairs).
    cbn [fst snd].
    destruct (decide (m = "")) as [Hm0|Hne].
    + rewrite bool_decide_eq_true_2 by exact Hm0. cbn [negb]. apply IH.
    + rewrite bool_decide_eq_false_2 by exact Hne. cbn [negb].
      rewrite <- fmap_insert. apply IH.
Qed.

Lemma rules_map_snoc (pairs : list (string * string)) (mp : string * string) :
  rules_map (pairs ++ [mp]) =
  if decide (mp.1 = "") then rules_map pairs
  else <[mp.1 := mp.2]> (rules_map pairs).
Proof. unfold rules_map. rewrite foldl_app. reflexivity. Qed.

Lemma rules_map_lookup (pairs : list (string * string)) (s : string) :
  rules_map pairs !! s =
  if decide (s = "") then None
  else snd <$> last (filter (fun mp => mp.1 = s) pairs).
Proof.
  induction pairs as [|mp pairs IH] using rev_ind.
  - destruct (decide (s = "")); reflexivity.
  - rewrite rules_map_snoc, filter_app.
    destruct (decide (mp.1 = s)) as [Heq|Hne].
    + rewrite filter_cons_True, filter_nil, last_snoc by exact Heq.
      destruct (decide (s = "")) as [Hs|Hs];
        destruct (decide (mp.1 = "")) as [Hm|Hm]; try congruence.
      rewrite Heq, lookup_insert_eq. reflexivity.
    + rewrite filter_cons_False, filter_nil, app_nil_r by exact Hne.
      destruct (decide (mp.1 = "")); [exact IH|].
      rewrite lookup_insert_ne by exact Hne. exact IH.
Qed.

(** X10. From a rule file that is an object with a text (or nothing) under
    "default" and, under "regras", a list of objects with texts under "match"
    and "produto", [__init__] takes the default and the rules: a later rule
    replaces an earlier one with the same text, and a rule with an empty
    text is left out. *)
Theorem init_well_formed (l : list (string * pyval)) (d : string)
    (rules : list pyval) (pairs : list (string * string)) :
  default (PStr "Coloridas") (Py.assoc "default" l) = PStr d ->
  Py.assoc "regras" l = Some (PList rules) ->
  Forall2 is_rule rules pairs ->
  __init__ (Ok (PDict l)) = mkState (PStr <$> rules_map pairs) (PStr d) /\
  forall s, rules_map pairs !! s =
            if decide (s = "") then None
            else snd <$> last (filter (fun mp => mp.1 = s) pairs).
Proof.
  intros Hd Hr Hrules. split; [|apply rules_map_lookup].
  unfold __init__, _load_depara. cbn [Py.get]. rewrite Hd, Hr.
  cbn [default id mbind result_bind Py.iter].
  rewrite <- (fmap_empty PStr), (load_rules_typed rules pairs ∅ Hrules).
  reflexivity.
Qed.

(** A default, two rules for the same text and a rule with an empty text. *)
Lemma init_well_formed_witness :
  let rule m p := PDict [("match", PStr m); ("produto", PStr p)] in
  let rules := [rule "ROSA" "Freedom 60"; rule "" "Freedom 50";
                rule "ROSA" "Freedom 70/80"] in
  let l := [("default", PStr "Verdes"); ("regras", PList rules)] in
  let pairs := [("ROSA", "Freedom 60"); ("", "Freedom 50");
                ("ROSA", "Freedom 70/80")] in
  default (PStr "Coloridas") (Py.assoc "default" l) = PStr "Verdes" /\
  Py.assoc "regras" l = Some (PList rules) /\
  Forall2 is_rule rules pairs /\
  __init__ (Ok (PDict l)) =
    mkState {["ROSA" := PStr "Freedom 70/80"]} (PStr "Verdes").
Proof.
  intros rule rules l pairs.
  assert (H1 : default (PStr "Coloridas") (Py.assoc "default" l) = PStr "Verdes")
    by reflexivity.
  assert (H2 : Py.assoc "regras" l = Some (PList rules)) by reflexivity.
  assert (H3 : Forall2 is_rule rules pairs).
  { repeat constructor; eexists; (split; [reflexivity|split; reflexivity]). }
  split; [exact H1|]. split; [exact H2|]. split; [exact H3|].
  destruct (init_well_formed l "Verdes" rules pairs H1 H2 H3) as [-> _].
  reflexivity.
Defined.

Lemma load_rules_bad_rule (rules1 rules2 : list pyval) (r : pyval)
    (m : gmap string pyval) :
  (forall l, r <> PDict l) -> fails (load_rules (rules1 ++ r :: rules2) m).
Proof.
  intros Hr. revert m. induction rules1 as [|a rules1 IH]; intros m.
  - cbn [app load_rules].
    destruct r; try (eexists; reflexivity). exfalso. exact (Hr _ eq_refl).
  - cbn [app load_rules].
    destruct (Py.get a "match" PNone) as [c|e]; [|eexists; reflexivity].
    cbn [mbind result_bind]. destruct (Py.truthy c); [|apply IH].
    destruct (Py.get a "produto" PNone) as [v|e]; [|eexists; reflexivity].
    cbn [mbind result_bind].
    destruct (hashable c); [apply IH|eexists; reflexivity].
Qed.

(** X11. One rule that is not an object discards every rule of the file,
    and a lookup then gives the default; the default of the file is taken
    all the same. A file that cannot be read or decoded, or that is not an
    object, leaves the default as it was at the call. *)
Theorem load_depara_bad_rule (l : list (string * pyval))
    (rules1 rules2 : list pyval) (r : pyval) (d0 : pyval) :
  Py.assoc "regras" l = Some (PList (rules1 ++ r :: rules2)) ->
  (forall l', r <> PDict l') ->
  _load_depara (Ok (PDict l)) d0 =
    (∅, default (PStr "Coloridas") (Py.assoc "default" l)) /\
  (forall e, _load_depara (Raise e) d0 = (∅, d0)) /\
  (forall js, (forall l', js <> PDict l') -> _load_depara (Ok js) d0 = (∅, d0)).
Proof.
  intros Hl Hr. split; [|split].
  - unfold _load_depara. cbn [Py.get]. rewrite Hl.
    cbn [default id mbind result_bind Py.iter].
    destruct (load_rules_bad_rule rules1 rules2 r ∅ Hr) as [e ->]. reflexivity.
  - reflexivity.
  - intros js Hjs. destruct js; try reflexivity. exfalso. exact (Hjs _ eq_refl).
Qed.

(** A rule file whose second rule is a text. *)
Lemma load_depara_bad_rule_witness :
  let l := [("default", PStr "Verdes");
            ("regras", PList [PDict [("match", PStr "ROSA");
                                     ("produto", PStr "Freedom 60")];
                              PStr "CRAVO"])] in
  Py.assoc "regras" l =
    Some (PList ([PDict [("match", PStr "ROSA"); ("produto", PStr "Freedom 60")]]
                 ++ PStr "CRAVO" :: [])) /\
  (forall l', PStr "CRAVO" <> PDict l') /\
  _load_depara (Ok (PDict l)) (PStr "Coloridas") = (∅, PStr "Verdes").
Proof.
  intros l.
  assert (H1 : Py.assoc "regras" l =
    Some (PList ([PDict [("match", PStr "ROSA"); ("produto", PStr "Freedom 60")]]
                 ++ PStr "CRAVO" :: []))) by reflexivity.
  assert (H2 : forall l', PStr "CRAVO" <> PDict l') by (intros l'; discriminate).
  split; [exact H1|]. split; [exact H2|].
  destruct (load_depara_bad_rule l _ [] (PStr "CRAVO") (PStr "Coloridas") H1 H2)
    as [-> _].
  reflexivity.
Defined.

(** * The pt-BR helpers of [app.py] *)

(** ** Replacing and deleting one character *)

Lemma prefix_single (a c : ascii) (s : string) :
  String.prefix (String a "") (String c s) = Ascii.eqb a c.
Proof.
  cbn [String.prefix]. destruct (ascii_dec a c) as [->|Hne].
  - rewrite Ascii.eqb_refl. destruct s; reflexivity.
  - symmetry. apply Ascii.eqb_neq, Hne.
Qed.

Lemma str_replace1_cons (a b c : ascii) (s : string) :
  str_replace (String a "") (String b "") (String c s) =
  String (if Ascii.eqb a c then b else c)
         (str_replace (String a "") (String b "") s).
Proof.
  unfold str_replace. cbn [str_replace_go]. rewrite prefix_single.
  destruct (Ascii.eqb a c); reflexivity.
Qed.

Lemma str_delete1_cons (a c : ascii) (s : string) :
  str_replace (String a "") "" (String c s) =
  if Ascii.eqb a c then str_replace (String a "") "" s
  else String c (str_replace (String a "") "" s).
Proof.
  unfold str_replace. cbn [str_replace_go]. rewrite prefix_single.
  destruct (Ascii.eqb a c); reflexivity.
Qed.

(** Nothing is replaced in a text without the first character of [old]. *)
Lemma str_replace_absent (a : ascii) (old' new u : string) :
  string_forall (fun c => negb (Ascii.eqb a c)) u = true ->
  str_replace (String a old') new u = u.
Proof.
  unfold str_replace. induction u as [|c u IH]; [reflexivity|].
  rewrite string_forall_cons. intros H. apply andb_prop in H as [Hc Hu].
  apply negb_true_iff, Ascii.eqb_neq in Hc.
  cbn [str_replace_go String.prefix].
  destruct (ascii_dec a c) as [Heq|_]; [contradiction|].
  rewrite (IH Hu). reflexivity.
Qed.

Lemma str_delete1_app (a : ascii) (s t : string) :
  str_replace (String a "") "" (s +:+ t) =
  str_replace (String a "") "" s +:+ str_replace (String a "") "" t.
Proof.
  induction s as [|c s IH]; [reflexivity|].
  rewrite append_String, !str_delete1_cons, IH.
  destruct (Ascii.eqb a c); reflexivity.
Qed.

(** ** The separators exchanged, and removed again *)

Lemma money_char_facts (c : ascii) :
  money_char c = true ->
  Py.isspace c = false /\ Ascii.eqb "R" c = false /\ Ascii.eqb "$" c = false /\
  Ascii.eqb " " c = false /\ Ascii.eqb "X" c = false /\
  money_char (swap_char c) = true.
Proof.
  destruct c as [[] [] [] [] [] [] [] []]; vm_compute; intros H;
    first [discriminate H | repeat split; reflexivity].
Qed.

Lemma swap_separators_cons (c : ascii) (s : string) :
  money_char c = true ->
  swap_separators (String c s) = String (swap_char c) (swap_separators s).
Proof.
  intros Hc. unfold swap_separators. rewrite !str_replace1_cons. f_equal.
  destruct (money_char_facts c Hc) as (_ & _ & _ & _ & HX & _).
  unfold swap_char. destruct (Ascii.eqb "," c) eqn:E1; [reflexivity|].
  destruct (Ascii.eqb "." c) eqn:E2; [reflexivity|].
  rewrite HX. reflexivity.
Qed.

Lemma swap_separators_money (s : string) :
  string_forall money_char s = true ->
  string_forall money_char (swap_separators s) = true /\
  (s <> "" -> swap_separators s <> "").
Proof.
  induction s as [|c s IH]; [split; [reflexivity|congruence]|].
  rewrite string_forall_cons. intros H. apply andb_prop in H as [Hc Hs].
  rewrite (swap_separators_cons c s Hc), string_forall_cons.
  destruct (money_char_facts c Hc) as (_ & _ & _ & _ & _ & ->).
  rewrite (proj1 (IH Hs)). split; [reflexivity|discriminate].
Qed.

(** Removing the points and turning the commas into points undoes the
    exchange, up to the grouping commas. *)
Lemma unswap_separators (s : string) :
  string_forall money_char s = true ->
  str_replace "," "." (str_replace "." "" (swap_separators s)) =
  str_replace "," "" s.
Proof.
  induction s as [|c s IH]; [reflexivity|].
  rewrite string_forall_cons. intros H. apply andb_prop in H as [Hc Hs].
  rewrite (swap_separators_cons c s Hc), !str_delete1_cons. unfold swap_char.
  destruct (Ascii.eqb "," c) eqn:E1.
  - cbn [Ascii.eqb Bool.eqb]. apply IH, Hs.
  - destruct (Ascii.eqb "." c) eqn:E2.
    + cbn [Ascii.eqb Bool.eqb]. rewrite str_replace1_cons.
      cbn [Ascii.eqb Bool.eqb]. rewrite (IH Hs).
      apply Ascii.eqb_eq in E2. subst c. reflexivity.
    + rewrite E2, str_replace1_cons, E1, (IH Hs). reflexivity.
Qed.

Lemma rstrip_with_keep (sp : ascii -> bool) (a u : string) :
  string_forall (fun c => negb (sp c)) u = true -> u <> "" ->
  Py.rstrip_with sp (a +:+ u) = a +:+ u.
Proof.
  intros Hu Hne. induction a as [|c a IH].
  - rewrite append_empty. apply rstrip_with_none, Hu.
  - rewrite append_String. cbn [Py.rstrip_with]. rewrite IH.
    destruct (a +:+ u) eqn:Hau; [|reflexivity].
    destruct a; [rewrite append_empty in Hau; contradiction|discriminate Hau].
Qed.

Lemma money_no_char (a : ascii) (u : string) :
  (forall c, money_char c = true -> Ascii.eqb a c = false) ->
  string_forall money_char u = true ->
  string_forall (fun c => negb (Ascii.eqb a c)) u = true.
Proof.
  intros Ha. apply string_forall_impl. intros c Hc. rewrite (Ha c Hc).
  reflexivity.
Qed.

(** The currency sign and the blank in front of a displayed number are
    removed, then the points; the commas become points. *)
Lemma parse_brl_of_display (py_repr : pyval -> string) (pre u : string) :
  pre = "R$ " \/ pre = "$ " ->
  string_forall money_char u = true -> u <> "" ->
  parse_brl_to_float py_repr (PStr (pre +:+ u)) =
  try_except (Py.float_of_str (str_replace "," "." (str_replace "." "" u)))
             (Ok 0%float).
Proof.
  intros Hpre Hu Hne.
  assert (HR : str_replace "R$" "" u = u).
  { apply str_replace_absent, money_no_char; [|exact Hu].
    intros c Hc. apply money_char_facts, Hc. }
  assert (HD : str_replace "$" "" u = u).
  { apply str_replace_absent, money_no_char; [|exact Hu].
    intros c Hc. apply money_char_facts, Hc. }
  assert (HS : str_replace " " "" u = u).
  { apply str_replace_absent, money_no_char; [|exact Hu].
    intros c Hc. apply money_char_facts, Hc. }
  assert (Hsp : string_forall (fun c => negb (Py.isspace c)) u = true).
  { revert Hu. apply string_forall_impl. intros c Hc.
    destruct (money_char_facts c Hc) as [-> _]. reflexivity. }
  assert (Hstrip : Py.strip (pre +:+ u) = pre +:+ u).
  { unfold Py.strip, Py.strip_with.
    assert (Hl : Py.lstrip_with Py.isspace (pre +:+ u) = pre +:+ u)
      by (destruct Hpre as [-> | ->]; reflexivity).
    rewrite Hl. apply rstrip_with_keep; assumption. }
  unfold parse_brl_to_float. cbn [py_str foldl]. rewrite Hstrip.
  assert (Hclean : str_replace " " ""
            (str_replace "$" "" (str_replace "R$" "" (pre +:+ u))) = u).
  { destruct Hpre as [-> | ->].
    - change (str_replace "R$" "" ("R$ " +:+ u))
        with (String " " (str_replace "R$" "" u)).
      rewrite HR, str_delete1_cons. cbn [Ascii.eqb Bool.eqb].
      rewrite HD, str_delete1_cons. cbn [Ascii.eqb Bool.eqb]. exact HS.
    - change (str_replace "R$" "" ("$ " +:+ u))
        with (String "$" (String " " (str_replace "R$" "" u))).
      rewrite HR, str_delete1_cons. cbn [Ascii.eqb Bool.eqb].
      rewrite str_delete1_cons. cbn [Ascii.eqb Bool.eqb].
      rewrite HD, str_delete1_cons. cbn [Ascii.eqb Bool.eqb]. exact HS. }
  rewrite Hclean. reflexivity.
Qed.

(** ** The digits written and read back *)

Lemma pretty_N_digits (x : N) :
  exists c s, pretty x = String c s /\
              string_forall Py.is_digit (String c s) = true /\
              digits_value 0 (String c s) = Z.of_N x.
Proof.
  destruct x as [|p].
  - exists "0"%char, "". repeat split.
  - change (pretty (N.pos p)) with (pretty p).
    destruct (pretty_positive_digits p) as (c & s & H1 & H2 & H3).
    exists c, s. repeat split; assumption.
Qed.

Lemma thousands_plain (ds : string) :
  string_forall Py.is_digit ds = true ->
  str_replace "," "" (thousands ds) = ds /\
  string_forall money_char (thousands ds) = true.
Proof.
  induction ds as [|c ds IH]; [split; reflexivity|].
  rewrite string_forall_cons. intros H. apply andb_prop in H as [Hc Hs].
  destruct (IH Hs) as [IH1 IH2]. cbn [thousands].
  assert (Hcc : Ascii.eqb "," c = false /\ money_char c = true).
  { clear -Hc. destruct c as [[] [] [] [] [] [] [] []];
      first [discriminate Hc | split; reflexivity]. }
  destruct Hcc as [Hcomma Hm].
  rewrite str_delete1_cons, Hcomma, string_forall_cons, Hm.
  destruct ((0 <? String.length ds)%nat && (String.length ds mod 3 =? 0)%nat).
  - rewrite str_delete1_cons, string_forall_cons. cbn [Ascii.eqb Bool.eqb].
    rewrite IH1, IH2. split; reflexivity.
  - rewrite IH1, IH2. split; reflexivity.
Qed.

Lemma digitpart_before_point (ds dd : string) :
  forall acc n,
    string_forall Py.is_digit ds = true ->
    exists k, Py.digitpart acc n true (ds +:+ String "." dd)
              = Some (digits_value acc ds, k, String "." dd).
Proof.
  induction ds as [|c ds IH]; intros acc n H.
  - exists n. reflexivity.
  - rewrite string_forall_cons in H. apply andb_prop in H as [Hc Hs].
    rewrite append_String. cbn [Py.digitpart digits_value]. rewrite Hc.
    apply IH, Hs.
Qed.

(** [float] on a sign, digits, a point and two digits. *)
Lemma float_of_fixed (neg : bool) (c d1 d2 : ascii) (s : string) :
  string_forall Py.is_digit (String c s) = true ->
  Py.is_digit d1 = true -> Py.is_digit d2 = true ->
  Py.float_of_str ((if neg then "-" else "") +:+ String c s
                   +:+ String "." (String d1 (String d2 ""))) =
  Ok (Py.of_decimal neg
        (10 * (10 * digits_value 0 (String c s) + Py.digit_val d1)
         + Py.digit_val d2) (-2)).
Proof.
  intros Hd H1 H2.
  set (body := String c s +:+ String "." (String d1 (String d2 ""))).
  pose proof Hd as Hc. rewrite string_forall_cons in Hc.
  apply andb_prop in Hc as [Hc Hs].
  destruct (digit_char_facts c Hc) as (Hlow & _ & Hsign & Hman).
  assert (Hnum : string_forall (fun c => negb (Py.num_space c))
                   ((if neg then "-" else "") +:+ body) = true).
  { assert (Hb : string_forall (fun c => negb (Py.num_space c)) body = true).
    { unfold body. rewrite string_forall_app.
      destruct (digits_fixed _ Hd) as (_ & _ & _ & ->).
      rewrite !string_forall_cons.
      destruct (is_digit_not_space d1 H1) as [_ ->].
      destruct (is_digit_not_space d2 H2) as [_ ->]. reflexivity. }
    destruct neg; [|exact Hb]. rewrite append_String, append_empty.
    rewrite string_forall_cons, Hb. reflexivity. }
  assert (Hsplit : Py.split_sign ((if neg then "-" else "") +:+ body)
                   = (neg, body)).
  { destruct neg; [reflexivity|]. rewrite append_empty. unfold body.
    rewrite append_String. apply Hsign. }
  assert (Hword : forall w, w = "inf" \/ w = "infinity" \/ w = "nan" ->
                            Py.lower_str body <> w).
  { intros w Hw Heq. unfold body in Heq. rewrite append_String in Heq.
    cbn [Py.lower_str] in Heq. rewrite Hlow in Heq.
    destruct Hw as [->|[->| ->]]; injection Heq as -> _; discriminate Hc. }
  unfold Py.float_of_str. rewrite (strip_with_none _ _ Hnum), Hsplit.
  rewrite bool_decide_eq_false_2
    by (intros [H|H]; apply (Hword _ (or_introl eq_refl)) in H
                      || apply (Hword "infinity") in H; auto).
  rewrite bool_decide_eq_false_2 by (apply Hword; auto).
  unfold body at 1. rewrite append_String, Hman. cbn [Py.digitpart].
  rewrite Hc.
  destruct (digitpart_before_point s (String d1 (String d2 ""))
              (10 * 0 + Py.digit_val c) (0 + 1) Hs) as [k ->].
  cbn [Py.digitpart]. rewrite H1, H2. cbn [Py.exponent digits_value].
  reflexivity.
Qed.

Lemma hundredths_digits (n : Z) :
  0 <= n ->
  10 * (10 * Z.of_N (Z.to_N (n / 100)) + Z.of_N (Z.to_N (n mod 100 / 10)))
  + Z.of_N (Z.to_N (n mod 10)) = n /\
  (Z.to_N (n mod 100 / 10) < 10)%N /\ (Z.to_N (n mod 10) < 10)%N.
Proof.
  intros Hn.
  assert (H1 : 0 <= n / 100) by (apply Z.div_pos; lia).
  assert (H2 : 0 <= n mod 100 / 10 < 10) by (Z.div_mod_to_equations; lia).
  assert (H3 : 0 <= n mod 10 < 10) by (Z.div_mod_to_equations; lia).
  rewrite !Z2N.id by lia. split; [|lia].
  Z.div_mod_to_equations. lia.
Qed.

Lemma fixed2_shape (neg : bool) (n : Z) :
  0 <= n ->
  exists c s d1 d2,
    fixed2 neg n = (if neg then "-" else "") +:+ thousands (String c s)
                   +:+ String "." (String d1 (String d2 "")) /\
    string_forall Py.is_digit (String c s) = true /\
    Py.is_digit d1 = true /\ Py.is_digit d2 = true /\
    10 * (10 * digits_value 0 (String c s) + Py.digit_val d1) + Py.digit_val d2
    = n.
Proof.
  intros Hn. destruct (hundredths_digits n Hn) as (Hsum & Ha & Hb).
  destruct (pretty_N_digits (Z.to_N (n / 100))) as (c & s & Hp & Hd & Hv).
  destruct (pretty_N_char_digit _ Ha) as [Hd1 Hv1].
  destruct (pretty_N_char_digit _ Hb) as [Hd2 Hv2].
  exists c, s, (pretty_N_char (Z.to_N (n mod 100 / 10))),
    (pretty_N_char (Z.to_N (n mod 10))).
  unfold fixed2. rewrite Hp, Hv, Hv1, Hv2. auto.
Qed.

Lemma digit_money (c : ascii) :
  Py.is_digit c = true -> money_char c = true /\ Ascii.eqb "," c = false.
Proof.
  destruct c as [[] [] [] [] [] [] [] []]; intros H;
    first [discriminate H | split; reflexivity].
Qed.

(** A number of hundredths, written, displayed with a currency sign and
    parsed, is the float nearest to it. *)
Lemma fixed2_read (py_repr : pyval -> string) (pre : string) (neg : bool)
    (n : Z) :
  pre = "R$ " \/ pre = "$ " -> 0 <= n ->
  parse_brl_to_float py_repr (PStr (pre +:+ swap_separators (fixed2 neg n))) =
  Ok (Py.of_decimal neg n (-2)).
Proof.
  intros Hpre Hn.
  destruct (fixed2_shape neg n Hn) as (c & s & d1 & d2 & -> & Hd & H1 & H2 & Hv).
  destruct (thousands_plain _ Hd) as [Hplain Hmoney].
  destruct (digit_money d1 H1) as [Hm1 Hc1].
  destruct (digit_money d2 H2) as [Hm2 Hc2].
  set (t := (if neg then "-" else "") +:+ thousands (String c s)
            +:+ String "." (String d1 (String d2 ""))).
  assert (Ht : string_forall money_char t = true).
  { unfold t. rewrite !string_forall_app, Hmoney, !string_forall_cons, Hm1, Hm2.
    destruct neg; reflexivity. }
  assert (Hne : t <> "").
  { unfold t. cbn [thousands]. destruct neg; discriminate. }
  destruct (swap_separators_money t Ht) as [Hu Hune].
  rewrite (parse_brl_of_display py_repr pre _ Hpre Hu (Hune Hne)).
  rewrite (unswap_separators t Ht). unfold t.
  rewrite !str_delete1_app, Hplain, !str_delete1_cons, Hc1, Hc2.
  cbn [Ascii.eqb Bool.eqb].
  assert (Hsign : str_replace "," "" (if neg then "-" else "")
                  = if neg then "-" else "").
  { destruct neg; [|reflexivity]. rewrite str_delete1_cons. reflexivity. }
  rewrite Hsign.
  change (str_replace "," "" "") with "".
  rewrite (float_of_fixed neg c d1 d2 s Hd H1 H2), Hv. reflexivity.
Qed.

Lemma of_decimal_hundredths (neg : bool) (n : Z) :
  Py.of_decimal neg n (-2) =
  match n with
  | Zpos p => F64.of_ratio neg p (Z.to_pos (10 ^ 2))
  | _ => F64.signed_zero neg
  end.
Proof.
  destruct n as [|p|p]; try reflexivity. unfold Py.of_decimal.
  rewrite (bool_decide_eq_false_2 (400 < -2)) by lia.
  rewrite (bool_decide_eq_false_2 (0 <= -2)) by lia.
  rewrite bool_decide_eq_false_2; [reflexivity|].
  pose proof (Z.log2_nonneg (Z.pos p)). lia.
Qed.

Lemma rne_div_nonneg (a d : Z) : 0 <= a -> 0 < d -> 0 <= F64.rne_div a d.
Proof.
  intros Ha Hd. unfold F64.rne_div.
  assert (H : 0 <= a / d) by (apply Z.div_pos; lia).
  destruct (2 * (a mod d) ?= d); [destruct (Z.even (a / d))| |]; lia.
Qed.

Lemma float_of_SF (x : float) (sf : spec_float) :
  Prim2SF x = sf -> x = SF2Prim sf.
Proof. intros <-. symmetry. apply SF2Prim_Prim2SF. Qed.

(** ** Displaying a number and reading it back *)

(** X12. A float below [2^52] in absolute value (or infinite, or NaN),
    displayed by [fmt_brl] or [fmt_usd] and read back by
    [parse_brl_to_float], is the float rounded to two decimals as Python's
    [round(x, 2)] does. *)
Theorem display_round_trip (py_repr : pyval -> string) (x : float) :
  (forall s m e, Prim2SF x = S754_finite s m e -> e < 0) ->
  parse_brl_to_float py_repr (PStr (fmt_brl (PFloat x))) = Ok (F64.py_round 2 x) /\
  parse_brl_to_float py_repr (PStr (fmt_usd (PFloat x))) = Ok (F64.py_round 2 x).
Proof.
  intros Hx.
  assert (G : forall pre, pre = "R$ " \/ pre = "$ " ->
    parse_brl_to_float py_repr (PStr (pre +:+ _fmt_num_br (PFloat x)))
    = Ok (F64.py_round 2 x)).
  { intros pre Hpre. unfold _fmt_num_br. cbn [Py.float].
    fold (swap_separators (format_2f x)). unfold format_2f, F64.py_round.
    destruct (Prim2SF x) as [s|s| |s m e] eqn:Hsf.
    - rewrite (fixed2_read py_repr pre s 0 Hpre) by lia.
      rewrite (float_of_SF x _ Hsf). destruct s; reflexivity.
    - rewrite (float_of_SF x _ Hsf).
      destruct Hpre as [-> | ->]; destruct s; vm_compute; reflexivity.
    - rewrite (float_of_SF x _ Hsf).
      destruct Hpre as [-> | ->]; vm_compute; reflexivity.
    - specialize (Hx s m e eq_refl).
      rewrite (bool_decide_eq_false_2 (0 <= e)) by lia.
      rewrite (fixed2_read py_repr pre s _ Hpre)
        by (apply rne_div_nonneg; [|apply Z.pow_pos_nonneg]; lia).
      rewrite of_decimal_hundredths. reflexivity. }
  split; apply G; auto.
Qed.

Lemma display_round_trip_witness :
  (forall s m e, Prim2SF 1234.565 = S754_finite s m e -> e < 0) /\
  fmt_brl (PFloat 1234.565) = "R$ 1.234,57" /\
  parse_brl_to_float (fun _ => "") (PStr (fmt_brl (PFloat 1234.565)))
    = Ok 1234.57%float /\
  parse_brl_to_float (fun _ => "") (PStr (fmt_usd (PFloat 1234.565)))
    = Ok 1234.57%float.
Proof.
  assert (H : forall s m e, Prim2SF 1234.565 = S754_finite s m e -> e < 0).
  { intros s m e He. vm_compute in He. injection He as _ _ <-. lia. }
  split; [exact H|]. split; [vm_compute; reflexivity|].
  destruct (display_round_trip (fun _ => "") 1234.565 H) as [-> ->].
  split; vm_compute; reflexivity.
Defined.

(** ** Points in a typed amount *)

Lemma digits_value_nonneg (s : string) :
  forall acc, string_forall Py.is_digit s = true -> 0 <= acc ->
              0 <= digits_value acc s.
Proof.
  induction s as [|c s IH]; intros acc H Hacc; [exact Hacc|].
  rewrite string_forall_cons in H. apply andb_prop in H as [Hc Hs].
  cbn [digits_value]. apply IH; [exact Hs|].
  unfold Py.is_digit in Hc. apply andb_prop in Hc as [Hc _].
  apply N.leb_le in Hc. unfold Py.digit_val. lia.
Qed.

Lemma float_of_digits (c : ascii) (s : string) :
  string_forall Py.is_digit (String c s) = true ->
  Py.float_of_str (String c s) = Ok (F64.of_Z (digits_value 0 (String c s))).
Proof.
  intros Hd. destruct (digits_fixed _ Hd) as (Hlow & _ & _ & Hns).
  pose proof Hd as Hc. rewrite string_forall_cons in Hc.
  apply andb_prop in Hc as [Hc _].
  destruct (digit_char_facts c Hc) as (_ & _ & Hsign & Hman).
  destruct (digitpart_numeral c s Hd) as [k Hk].
  assert (Hword : ~ (String c s = "inf" \/ String c s = "infinity")).
  { intros [H|H]; rewrite H in Hd; discriminate Hd. }
  assert (Hnan : String c s <> "nan").
  { intros H; rewrite H in Hd; discriminate Hd. }
  unfold Py.float_of_str. rewrite (strip_with_none _ _ Hns), Hsign, Hlow.
  rewrite (bool_decide_eq_false_2 _ Hword), (bool_decide_eq_false_2 _ Hnan).
  rewrite Hman, Hk. cbn [Py.exponent]. change (0 - 0) with 0. f_equal.
  pose proof (digits_value_nonneg _ 0 Hd (Z.le_refl 0)) as Hv.
  destruct (digits_value 0 (String c s)) as [|p|p]; [reflexivity| |lia].
  apply (of_decimal_int false).
Qed.

Lemma digits_and_points (u : string) :
  string_forall (fun a => Py.is_digit a || Ascii.eqb a ".") u = true ->
  string_forall money_char u = true /\
  string_forall Py.is_digit (str_replace "." "" u) = true.
Proof.
  induction u as [|a u IH]; [split; reflexivity|].
  rewrite !string_forall_cons. intros H. apply andb_prop in H as [Ha Hu].
  destruct (IH Hu) as [IH1 IH2]. rewrite IH1, str_delete1_cons.
  destruct (Ascii.eqb "." a) eqn:E.
  - apply Ascii.eqb_eq in E. subst a. split; [reflexivity|exact IH2].
  - rewrite string_forall_cons, IH2.
    assert (Hd : Py.is_digit a = true).
    { destruct (Py.is_digit a); [reflexivity|]. cbn [orb] in Ha.
      rewrite Ascii.eqb_sym, E in Ha. discriminate Ha. }
    rewrite Hd, (proj1 (digit_money a Hd)). split; reflexivity.
Qed.

(** X13. In a text of digits and points [parse_brl_to_float] drops every
    point: the result is the float nearest to the integer the digits write,
    so that a point typed as a decimal separator is not one. *)
Theorem parse_brl_points_dropped (py_repr : pyval -> string)
    (u : string) (c : ascii) (s : string) :
  string_forall (fun a => Py.is_digit a || Ascii.eqb a ".") u = true ->
  str_replace "." "" u = String c s ->
  parse_brl_to_float py_repr (PStr u)
  = Ok (F64.of_Z (digits_value 0 (String c s))).
Proof.
  intros Hu Hdel. destruct (digits_and_points u Hu) as [Hm Hd].
  rewrite Hdel in Hd.
  assert (HR : str_replace "R$" "" u = u).
  { apply str_replace_absent, money_no_char; [|exact Hm].
    intros a Ha. apply money_char_facts, Ha. }
  assert (HD : str_replace "$" "" u = u).
  { apply str_replace_absent, money_no_char; [|exact Hm].
    intros a Ha. apply money_char_facts, Ha. }
  assert (HS : str_replace " " "" u = u).
  { apply str_replace_absent, money_no_char; [|exact Hm].
    intros a Ha. apply money_char_facts, Ha. }
  assert (Hstrip : Py.strip u = u).
  { apply strip_with_none. revert Hm. apply string_forall_impl. intros a Ha.
    destruct (money_char_facts a Ha) as [-> _]. reflexivity. }
  assert (Hc : str_replace "," "." (String c s) = String c s).
  { apply str_replace_absent. revert Hd. apply string_forall_impl.
    intros a Ha. rewrite (proj2 (digit_money a Ha)). reflexivity. }
  unfold parse_brl_to_float. cbn [py_str foldl].
  rewrite Hstrip, HR, HD, HS, Hdel, Hc, (float_of_digits c s Hd). reflexivity.
Qed.

Lemma parse_brl_points_dropped_witness :
  string_forall (fun a => Py.is_digit a || Ascii.eqb a ".") "12.5" = true /\
  str_replace "." "" "12.5" = "125" /\
  parse_brl_to_float (fun _ => "") (PStr "12.5") = Ok 125%float.
Proof.
  assert (H1 : string_forall (fun a => Py.is_digit a || Ascii.eqb a ".") "12.5"
               = true) by reflexivity.
  assert (H2 : str_replace "." "" "12.5" = "125") by reflexivity.
  split; [exact H1|]. split; [exact H2|].
  rewrite (parse_brl_points_dropped (fun _ => "") "12.5" "1" "25" H1 H2).
  vm_compute. reflexivity.
Defined.

(** X14. [parse_brl_to_float] raises on one kind of value only, an integer
    too large for a float, which it converts outside its [try]: the
    exception is [OverflowError]. On every other value, a text included, it
    returns. *)
Theorem parse_brl_to_float_raises (py_repr : pyval -> string) (v : pyval)
    (e : exn) :
  parse_brl_to_float py_repr v = Raise e <->
  e = OverflowError /\
  exists z, v = PInt z /\ is_infinity (F64.of_Z z) = true.
Proof.
  split.
  - destruct v as [| |z| | | |]; cbn [parse_brl_to_float Py.float];
      try discriminate.
    + unfold Py.float_of_int.
      destruct (is_infinity (F64.of_Z z)) eqn:Hz; [|discriminate].
      intros H. injection H as <-. eauto.
    + destruct (Py.float_of_str _); discriminate.
    + destruct (Py.float_of_str _); discriminate.
    + destruct (Py.float_of_str _); discriminate.
  - intros (-> & z & -> & Hz). cbn [parse_brl_to_float Py.float].
    unfold Py.float_of_int. rewrite Hz. reflexivity.
Qed.

(** * The catalogue and the table shown *)

Lemma product_names_truthy (ps : list pyval) (names : list pyval) :
  product_names ps = Ok names -> Forall (fun n => Py.truthy n = true) names.
Proof.
  revert names. induction ps as [|p ps IH]; intros names H.
  - injection H as <-. constructor.
  - cbn [product_names] in H.
    destruct (Py.get p "nome" PNone) as [c|e]; [|discriminate].
    cbn [mbind result_bind] in H. destruct (Py.truthy c) eqn:Hc; [|auto].
    destruct (product_names ps) as [rest|e]; [|discriminate].
    cbn [mbind result_bind] in H. injection H as <-.
    constructor; [exact Hc|apply IH; reflexivity].
Qed.

Lemma product_names_typed (ps : list pyval) (names : list string) :
  Forall2 is_product ps names ->
  product_names ps = Ok (map PStr (filter (fun n => n <> "") names)).
Proof.
  induction 1 as [|p n ps names (l & -> & Hn) _ IH]; [reflexivity|].
  cbn [product_names Py.get mbind result_bind]. rewrite Hn.
  cbn [default id Py.truthy mbind result_bind]. rewrite IH.
  destruct (decide (n = "")) as [Heq|Hne].
  - rewrite bool_decide_eq_true_2 by exact Heq. cbn [negb].
    rewrite filter_cons_False by (intros H; exact (H Heq)). reflexivity.
  - rewrite bool_decide_eq_false_2 by exact Hne. cbn [negb mbind result_bind].
    rewrite filter_cons_True by exact Hne. reflexivity.
Qed.

Lemma product_names_bad (ps1 ps2 : list pyval) (p : pyval) :
  (forall l, p <> PDict l) -> fails (product_names (ps1 ++ p :: ps2)).
Proof.
  intros Hp. induction ps1 as [|a ps1 IH].
  - cbn [app product_names].
    destruct p; try (eexists; reflexivity). exfalso. exact (Hp _ eq_refl).
  - cbn [app product_names]. destruct IH as [e IH].
    destruct (Py.get a "nome" PNone) as [c|e']; [|eexists; reflexivity].
    cbn [mbind result_bind]. rewrite IH.
    destruct (Py.truthy c); eexists; reflexivity.
Qed.

(** X15. [carregar_produtos] never returns a null or empty name. From a
    file that is an object with, under "produtos", a list of objects with a
    text under "nome", it returns the non-empty names in the order of the
    file, duplicates included, and no name when the list has none. One entry
    that is not an object, a file that cannot be read or decoded, or no file
    give the four built-in names. *)
Theorem carregar_produtos_names (file : option (result pyval)) :
  let fallback := [PStr "Freedom 70/80"; PStr "Freedom 60"; PStr "Freedom 50";
                   PStr "Coloridas"] in
  Forall (fun n => Py.truthy n = true) (carregar_produtos file) /\
  (forall l ps names,
     file = Some (Ok (PDict l)) ->
     Py.assoc "produtos" l = Some (PList ps) ->
     Forall2 is_product ps names ->
     carregar_produtos file = map PStr (filter (fun n => n <> "") names)) /\
  (forall l ps1 p ps2,
     file = Some (Ok (PDict l)) ->
     Py.assoc "produtos" l = Some (PList (ps1 ++ p :: ps2)) ->
     (forall l', p <> PDict l') ->
     carregar_produtos file = fallback) /\
  (file = None \/ (exists e, file = Some (Raise e)) ->
   carregar_produtos file = fallback).
Proof.
  intros fallback.
  assert (Hfb : Forall (fun n => Py.truthy n = true) fallback)
    by (repeat constructor).
  split; [|split; [|split]].
  - unfold carregar_produtos. fold fallback.
    destruct file as [doc|]; [|exact Hfb].
    destruct (_ ← doc; _) as [names|e] eqn:H; [|exact Hfb].
    destruct doc as [data|e]; [|discriminate]. cbn [mbind result_bind] in H.
    destruct (Py.get data "produtos" (PList []) ≫= Py.iter) as [ps|e];
      [|discriminate].
    cbn [mbind result_bind] in H. exact (product_names_truthy _ _ H).
  - intros l ps names -> Hl Hps. unfold carregar_produtos.
    cbn [mbind result_bind Py.get]. rewrite Hl.
    cbn [default id mbind result_bind Py.iter].
    rewrite (product_names_typed _ _ Hps). reflexivity.
  - intros l ps1 p ps2 -> Hl Hp. unfold carregar_produtos.
    cbn [mbind result_bind Py.get]. rewrite Hl.
    cbn [default id mbind result_bind Py.iter].
    destruct (product_names_bad ps1 ps2 p Hp) as [e ->]. reflexivity.
  - intros [->|[e ->]]; reflexivity.
Qed.

Lemma line_of_nil (B : Backend) (cotacao : float) (p : string) :
  F64.truthy cotacao = false ->
  line_of B [] cotacao None p = mkFinalRow p 0 0 0 0 0 0.
Proof.
  intros H. unfold line_of, float_or_zero. rewrite H.
  change (default ∅ None) with (∅ : gmap string float).
  rewrite lookup_empty. vm_compute. reflexivity.
Qed.

(** X16. When the names of the catalogue file are texts without
    duplicates, the table shown at start-up by [empty_table] is the display
    of the table [finalize_table] makes of no item at a rate of zero and
    without operating costs. *)
Theorem empty_table_zero_run (B : Backend) (file : option (result pyval))
    (produtos : list string) (cotacao : float) :
  carregar_produtos file = map PStr produtos ->
  NoDup produtos ->
  F64.truthy cotacao = false ->
  format_display <$> finalize_table B [] cotacao produtos None
  = Ok (empty_table file).
Proof.
  intros Hfile Hnd Hcot. rewrite finalize_table_lines by reflexivity.
  rewrite (sorted_products_well_formed B [] produtos Hnd)
    by (intros it Hit; inversion Hit).
  cbn [fmap result_fmap]. f_equal. unfold empty_table, format_display.
  rewrite Hfile, !map_map. apply map_ext. intros p.
  rewrite (line_of_nil B cotacao p Hcot). reflexivity.
Qed.

(** With the built-in catalogue, used when the file is missing. *)
Lemma empty_table_zero_run_witness :
  carregar_produtos None
    = map PStr ["Freedom 70/80"; "Freedom 60"; "Freedom 50"; "Coloridas"] /\
  NoDup ["Freedom 70/80"; "Freedom 60"; "Freedom 50"; "Coloridas"] /\
  F64.truthy 0 = false /\
  format_display <$> finalize_table stable_backend [] 0
    ["Freedom 70/80"; "Freedom 60"; "Freedom 50"; "Coloridas"] None
  = Ok (map (fun p => mkDisplayRow (PStr p) 0 "$ 0,00" "R$ 0,00" "R$ 0,00"
                        "R$ 0,00" "R$ 0,00")
            ["Freedom 70/80"; "Freedom 60"; "Freedom 50"; "Coloridas"]).
Proof.
  assert (H1 : carregar_produtos None
    = map PStr ["Freedom 70/80"; "Freedom 60"; "Freedom 50"; "Coloridas"])
    by reflexivity.
  assert (H2 : NoDup ["Freedom 70/80"; "Freedom 60"; "Freedom 50"; "Coloridas"]).
  { apply (bool_decide_unpack _). vm_compute. exact I. }
  assert (H3 : F64.truthy 0 = false) by reflexivity.
  split; [exact H1|]. split; [exact H2|]. split; [exact H3|].
  rewrite (empty_table_zero_run stable_backend None _ 0 H1 H2 H3).
  vm_compute. reflexivity.
Defined.

(** * From the invoices to the table *)

(** X17. When the catalogue has no duplicate and holds the default product
    and every product of the rule map, a table made of the items parsed
    from any invoices has the catalogue as its product column: no line is
    added for a product outside it. When the stem counts parsed are
    [int64_safe] the call returns, and the table is the catalogue line by
    line. *)
Theorem pipeline_catalogue_lines (py_repr : pyval -> string)
    (self : FloresPrismaJSON) (B : Backend) (docs : list (pyval * string))
    (itemss : list (list Item)) (cotacao : float) (produtos : list string)
    (ops_costs_map : option (gmap string float)) :
  Forall2 (fun d its => parse py_repr self d.1 d.2 = Ok its) docs itemss ->
  NoDup produtos ->
  _default self ∈ produtos ->
  (forall nm prod, depara_map self !! nm = Some prod -> prod ∈ produtos) ->
  (int64_safe (concat itemss) ->
   finalize_table B (concat itemss) cotacao produtos ops_costs_map =
   Ok (map (line_of B (concat itemss) cotacao ops_costs_map) produtos)) /\
  (forall rows,
     finalize_table B (concat itemss) cotacao produtos ops_costs_map = Ok rows ->
     map Produto rows = produtos).
Proof.
  intros Hdocs Hnd Hdef Hmap.
  assert (Hprod : sorted_products B (concat itemss) produtos = produtos).
  { apply sorted_products_well_formed; [exact Hnd|].
    intros it Hit. apply list_elem_of_In, in_concat in Hit as (its & Hits & Hit).
    apply list_elem_of_In in Hits, Hit.
    apply list_elem_of_lookup in Hits as [i Hi].
    destruct (Forall2_lookup_r _ _ _ _ _ Hdocs Hi) as (d & _ & Hd).
    destruct (parse_item_canonical py_repr self d.2 d.1 its it Hd Hit)
      as (_ & [Hp|[nm Hp]] & _).
    - rewrite Hp. exact Hdef.
    - exact (Hmap nm _ Hp). }
  split.
  - intros Hsafe. rewrite finalize_table_lines by exact Hsafe.
    rewrite Hprod. reflexivity.
  - intros rows Hrows.
    rewrite (finalize_table_products _ _ _ _ _ _ Hrows). exact Hprod.
Qed.

(** Two invoices, one with a product no rule maps. *)
Lemma pipeline_catalogue_lines_witness :
  let self := mkParser {["ROSA" := "Freedom 60"]} "Coloridas" in
  let line nm n :=
    PDict [("nm_product", PStr nm); ("nu_stems_bunch", PInt n);
           ("mny_rate_stem", PStr "0,5")] in
  let doc lines :=
    PDict [("invoices", PList [PDict [("boxes",
             PList [PDict [("products", PList lines)]])]])] in
  let docs := [(doc [line "ROSA" 20; line "CRAVO" 10], "a.json");
               (doc [line " ROSA " 30], "b.json")] in
  let itemss := [[mkItem "Freedom 60" 20 0.5 10 "a.json";
                  mkItem "Coloridas" 10 0.5 5 "a.json"];
                 [mkItem "Freedom 60" 30 0.5 15 "b.json"]] in
  let produtos := ["Freedom 60"; "Coloridas"] in
  Forall2 (fun d its => parse (fun _ => "") self d.1 d.2 = Ok its) docs itemss /\
  NoDup produtos /\
  _default self ∈ produtos /\
  (forall nm prod, depara_map self !! nm = Some prod -> prod ∈ produtos) /\
  int64_safe (concat itemss) /\
  finalize_table stable_backend (concat itemss) 5 produtos None =
  Ok [mkFinalRow "Freedom 60" 50 25 5 125 0 2.5;
      mkFinalRow "Coloridas" 10 5 5 25 0 2.5].
Proof.
  intros self line doc docs itemss produtos.
  assert (H1 : Forall2 (fun d its => parse (fun _ => "") self d.1 d.2 = Ok its)
                       docs itemss).
  { repeat constructor; vm_compute; reflexivity. }
  assert (H2 : NoDup produtos).
  { apply (bool_decide_unpack _). vm_compute. exact I. }
  assert (H3 : _default self ∈ produtos) by (right; left).
  assert (H4 : forall nm prod, depara_map self !! nm = Some prod ->
                               prod ∈ produtos).
  { intros nm prod H. unfold self in H. cbn [depara_map] in H.
    apply lookup_singleton_Some in H as [_ <-]. left. }
  assert (H5 : int64_safe (concat itemss)) by reflexivity.
  split; [exact H1|]. split; [exact H2|]. split; [exact H3|].
  split; [exact H4|]. split; [exact H5|].
  rewrite (proj1 (pipeline_catalogue_lines (fun _ => "") self stable_backend
                    docs itemss 5 produtos None H1 H2 H3 H4) H5).
  vm_compute. reflexivity.
Defined.

(** ** What a product line can raise *)

(** X18. A product line that is an object makes [parse] fail in one case
    only, with [OverflowError]: the stem count, which is the product of the
    two integers parsed from "nu_stems_bunch" and from "nu_bunches" (or 1),
    is too large for a float. A line that is not an object raises
    [AttributeError]. *)
Theorem parse_product_raises (py_repr : pyval -> string)
    (self : FloresPrismaJSON) (source : string) :
  (forall l e, parse_product py_repr self source (PDict l) = Raise e ->
     e = OverflowError /\
     exists spb bunches,
       _parse_int py_repr (default PNone (Py.assoc "nu_stems_bunch" l)) = Ok spb /\
       _parse_int py_repr
         (Py.or_ (default PNone (Py.assoc "nu_bunches" l)) (PInt 1)) = Ok bunches /\
       is_infinity (F64.of_Z (spb * bunches)) = true) /\
  (forall p, (forall l, p <> PDict l) ->
     parse_product py_repr self source p = Raise AttributeError).
Proof.
  split.
  - intros l e. unfold parse_product. cbn [Py.get mbind result_bind].
    destruct (_map_product py_repr self _) as [prod|]; [|discriminate].
    destruct (_parse_int_total py_repr (default PNone (Py.assoc "nu_stems_bunch" l)))
      as [spb Hspb].
    rewrite Hspb. cbn [mbind result_bind].
    destruct (_parse_int_total py_repr
                (Py.or_ (default PNone (Py.assoc "nu_bunches" l)) (PInt 1)))
      as [bunches Hb].
    rewrite Hb. cbn [mbind result_bind].
    destruct (_parse_float_total py_repr
                (default PNone (Py.assoc "mny_rate_stem" l))) as [rate ->].
    cbn [mbind result_bind]. unfold Py.float_of_int.
    destruct (is_infinity (F64.of_Z (spb * bunches))) eqn:Hinf; [|discriminate].
    intros H. injection H as <-. split; [reflexivity|].
    exists spb, bunches. auto.
  - intros p Hp. destruct p; try reflexivity. exfalso. exact (Hp _ eq_refl).
Qed.

(** A line of 10^200 stems per bunch and 10^200 bunches. *)
Lemma parse_product_raises_witness :
  let self := mkParser {["ROSA" := "Freedom 60"]} "Coloridas" in
  let l := [("nm_product", PStr "ROSA"); ("nu_stems_bunch", PInt (10 ^ 200));
            ("nu_bunches", PInt (10 ^ 200))] in
  parse_product (fun _ => "") self "a.json" (PDict l) = Raise OverflowError /\
  exists spb bunches,
    _parse_int (fun _ => "") (default PNone (Py.assoc "nu_stems_bunch" l)) = Ok spb /\
    _parse_int (fun _ => "")
      (Py.or_ (default PNone (Py.assoc "nu_bunches" l)) (PInt 1)) = Ok bunches /\
    is_infinity (F64.of_Z (spb * bunches)) = true.
Proof.
  intros self l.
  assert (H : parse_product (fun _ => "") self "a.json" (PDict l)
              = Raise OverflowError) by (vm_compute; reflexivity).
  split; [exact H|].
  exact (proj2 (proj1 (parse_product_raises (fun _ => "") self "a.json")
                  l OverflowError H)).
Defined.

(** * The rule map and the lookup together *)

Lemma load_rules_no_empty (rules : list pyval) :
  forall m m', load_rules rules m = Ok m' -> m' !! "" = m !! "".
Proof.
  induction rules as [|r rules IH]; intros m m' H.
  - injection H as <-. reflexivity.
  - cbn [load_rules] in H.
    destruct (Py.get r "match" PNone) as [c|e]; [|discriminate].
    cbn [mbind result_bind] in H.
    destruct (Py.truthy c) eqn:Hc; [|exact (IH _ _ H)].
    destruct (Py.get r "produto" PNone) as [v|e]; [|discriminate].
    cbn [mbind result_bind] in H.
    destruct (hashable c); [|discriminate].
    rewrite (IH _ _ H). destruct c; try reflexivity.
    apply lookup_insert_ne. intros ->. discriminate Hc.
Qed.

Lemma init_no_empty (doc : result pyval) :
  st_depara_map (__init__ doc) !! "" = None.
Proof.
  unfold __init__, _load_depara.
  destruct doc as [js|e]; [|reflexivity].
  destruct (Py.get js "default" (PStr "Coloridas")) as [d|e]; [|reflexivity].
  destruct (_ ← Py.get js "regras" (PList []); _) as [m|e] eqn:H;
    [|reflexivity].
  destruct (Py.get js "regras" (PList [])) as [rules|e]; [|discriminate].
  cbn [mbind result_bind] in H.
  destruct (Py.iter rules) as [rs|e]; [|discriminate].
  cbn [mbind result_bind] in H. cbn [st_depara_map].
  rewrite (load_rules_no_empty _ _ _ H). reflexivity.
Qed.

(** X19. Whatever the rule file, a blank identifier gets the default
    product: no rule with an empty text is ever loaded. Here [self] is the
    state [__init__] leaves, its default and its products being texts. *)
Theorem blank_identifier_default (py_repr : pyval -> string)
    (doc : result pyval) (self : FloresPrismaJSON) (s : string) :
  __init__ doc = mkState (PStr <$> depara_map self) (PStr (_default self)) ->
  Py.strip s = "" ->
  _map_product py_repr self (PStr s) = Some (_default self).
Proof.
  intros Hinit Hs. pose proof (init_no_empty doc) as H.
  rewrite Hinit in H. cbn [st_depara_map] in H.
  rewrite lookup_fmap in H. apply fmap_None in H.
  unfold _map_product. cbn [py_str]. rewrite Hs, H. reflexivity.
Qed.

Lemma blank_identifier_default_witness :
  let doc := Ok (PDict [("default", PStr "Verdes");
                        ("regras", PList [PDict [("match", PStr "");
                                                 ("produto", PStr "Freedom 50")];
                                          PDict [("match", PStr "ROSA");
                                                 ("produto", PStr "Freedom 60")]])]) in
  let self := mkParser {["ROSA" := "Freedom 60"]} "Verdes" in
  __init__ doc = mkState (PStr <$> depara_map self) (PStr (_default self)) /\
  Py.strip "   " = "" /\
  _map_product (fun _ => "") self (PStr "   ") = Some "Verdes".
Proof.
  intros doc self.
  assert (H1 : __init__ doc
               = mkState (PStr <$> depara_map self) (PStr (_default self)))
    by reflexivity.
  assert (H2 : Py.strip "   " = "") by reflexivity.
  split; [exact H1|]. split; [exact H2|].
  exact (blank_identifier_default (fun _ => "") doc self "   " H1 H2).
Defined.

Lemma rstrip_with_last (s : string) :
  last_not_space s -> Py.rstrip_with Py.isspace s = s.
Proof.
  induction s as [|c s IH]; [reflexivity|]. intros H.
  cbn [Py.rstrip_with]. destruct s as [|c' s'].
  - cbn [last_not_space] in H. cbn [Py.rstrip_with]. rewrite H. reflexivity.
  - rewrite (IH H). reflexivity.
Qed.

Lemma strip_idem (s : string) : Py.strip (Py.strip s) = Py.strip s.
Proof.
  destruct (strip_spec s) as (_ & _ & _ & _ & _ & Hhead & Hlast).
  set (t := Py.strip s) in *. unfold Py.strip, Py.strip_with.
  assert (Hl : Py.lstrip_with Py.isspace t = t).
  { destruct t as [|c t']; [reflexivity|]. apply lstrip_with_head, Hhead. }
  rewrite Hl. apply rstrip_with_last, Hlast.
Qed.

(** X20. A rule whose text has a blank at either end is never applied: the
    identifier is trimmed before the lookup, so that removing the rule
    changes no result of [_map_product]. *)
Theorem padded_rule_never_applies (py_repr : pyval -> string)
    (self : FloresPrismaJSON) (k : string) (v : pyval) :
  Py.strip k <> k ->
  _map_product py_repr self v =
  _map_product py_repr (mkParser (delete k (depara_map self)) (_default self)) v.
Proof.
  intros Hk.
  assert (H : forall s, delete k (depara_map self) !! Py.strip s
                        = depara_map self !! Py.strip s).
  { intros s. apply lookup_delete_ne. intros Heq. apply Hk.
    rewrite Heq. apply strip_idem. }
  unfold _map_product. cbn [depara_map _default].
  destruct v; try reflexivity; cbv zeta; rewrite H; reflexivity.
Qed.

Lemma padded_rule_never_applies_witness :
  Py.strip " ROSA" <> " ROSA" /\
  _map_product (fun _ => "")
    (mkParser {[" ROSA" := "Freedom 60"]} "Coloridas") (PStr " ROSA")
  = Some "Coloridas".
Proof.
  assert (H : Py.strip " ROSA" <> " ROSA") by discriminate.
  split; [exact H|].
  rewrite (padded_rule_never_applies (fun _ => "")
             (mkParser {[" ROSA" := "Freedom 60"]} "Coloridas") " ROSA"
             (PStr " ROSA") H).
  vm_compute. reflexivity.
Defined.
